(** * Reflection baker: a shallow embedding of [core/reflection_baker.cpp]

    The file embeds [ReflectionBaker::bake], [ReflectionBaker::cancel] and
    [exportImpulseResponseAsWav] and states the properties of the batching,
    dispatch, write-back, progress and cancellation logic over that
    embedding.

    - C++ [int] values are [Z]; array positions are converted with
      [Z.to_nat] where a list is indexed.
    - [Array<T>] is a [list] of fixed length; an access outside the
      allocated length is a fault, as is dereferencing an empty
      [unique_ptr].
    - The statics [sCancel] and [sBakeInProgress], the object behind
      [reflectionsData], the simulator and the per-batch arrays are threaded
      through a state-and-fault monad [M].
    - Everything the baker only calls (scene, simulator, energy fields,
      reverb estimation, geometry, comparison of durations) is an operation
      of the class [Collaborators].
    - The one [float] value the baker computes itself, the progress handed
      to the callback, is computed in IEEE 754 binary32 as specified in
      [Floats.SpecFloat]. *)

From Stdlib Require Import ZArith String List Sorted DecimalString DecimalZ
  DecimalPos Lia.
From Stdlib Require SpecFloat.
From stdpp Require Import base list.
Import ListNotations.
Open Scope Z_scope.

(** ** Enumerations ([enum class] in the headers) *)

(** Modelled from the spec: the declaration of [SceneType] is in a header
  outside this file; the baker only tells [RadeonRays] (the GPU
  many-to-many ray tracer) from every other backend. *)
Module SceneType.
Inductive t := Default | Embree | RadeonRays | Custom.
Definition eqb (x y : t) : bool :=
  match x, y with
  | Default, Default | Embree, Embree
  | RadeonRays, RadeonRays | Custom, Custom => true
  | _, _ => false
  end.
End SceneType.

Module BakedDataVariation.
Inductive t := Reverb | StaticSource | StaticListener | Dynamic.
Definition eqb (x y : t) : bool :=
  match x, y with
  | Reverb, Reverb | StaticSource, StaticSource
  | StaticListener, StaticListener | Dynamic, Dynamic => true
  | _, _ => false
  end.
End BakedDataVariation.

Module BakedDataType.
Inductive t := Reflections | Pathing.
Definition eqb (x y : t) : bool :=
  match x, y with
  | Reflections, Reflections | Pathing, Pathing => true
  | _, _ => false
  end.
End BakedDataType.

#[global] Instance SceneType_eq_dec : EqDecision SceneType.t.
Proof. solve_decision. Defined.
#[global] Instance BakedDataVariation_eq_dec : EqDecision BakedDataVariation.t.
Proof. solve_decision. Defined.
#[global] Instance BakedDataType_eq_dec : EqDecision BakedDataType.t.
Proof. solve_decision. Defined.

(** ** External collaborators *)

(** The types and operations the baker consumes.  [simulate] returns the
  simulator after the call together with the job graph it populated,
  given as the work the graph performs on the energy field of each batch
  slot; [ThreadPool::process] runs that work.  [float_eq] is [==] on
  [float]; [floatBytes] is the object representation of one [float]. *)
Class Collaborators := {
  Vector3f : Type;
  Sphere : Type;
  float : Type;
  IScene : Type;
  OpenCLDevice : Type;
  EnergyField : Type;
  Reverb : Type;
  IReflectionSimulator : Type;
  Sphere_eq_dec :: EqDecision Sphere;
  center : Sphere -> Vector3f;
  contains : Sphere -> Vector3f -> bool;
  float_eq : float -> float -> bool;
  floatBytes : float -> list Z;
  defaultCoordinateSpace : Vector3f;
  EnergyFieldFactory_create :
    SceneType.t -> float -> Z -> option OpenCLDevice -> EnergyField;
  EnergyField_new : float -> Z -> EnergyField;
  copyFrom : EnergyField -> EnergyField -> EnergyField;
  copyDeviceToHost : EnergyField -> EnergyField;
  getImpulseResponse : EnergyField -> list float;
  ReverbEstimator_estimate : EnergyField -> Reverb;
  simulate :
    IReflectionSimulator -> IScene ->
    Z -> list Vector3f -> Z -> list Vector3f ->
    Z -> Z -> float -> Z -> float ->
    IReflectionSimulator * (nat -> EnergyField -> EnergyField);
  IPL_USES_OPENCL : bool
}.

(** ** The diagnostic file writer *)

Module Wav.

(** Conversion to a 32-bit [int] and to a 16-bit [short]. *)
Definition to_int (z : Z) : Z := (z + 2^31) mod 2^32 - 2^31.
Definition to_short (z : Z) : Z := (z + 2^15) mod 2^16 - 2^15.

(** The bytes of an [int] and of a [short], least significant first. *)
Definition int_bytes (z : Z) : list Z :=
  let u := z mod 2^32 in
  [u mod 256; (u / 2^8) mod 256; (u / 2^16) mod 256; (u / 2^24) mod 256].
Definition short_bytes (z : Z) : list Z :=
  let u := z mod 2^16 in [u mod 256; (u / 2^8) mod 256].

Definition chars (s : string) : list Z :=
  map (fun a => Z.of_N (Ascii.N_of_ascii a)) (list_ascii_of_string s).

Definition sizeof_float : Z := 4.

(** [exportImpulseResponseAsWav]: the bytes written to [filePath]. *)
Definition exportImpulseResponseAsWav `{Collaborators}
    (impulseResponse : list float) (sampleRate : Z) : list Z :=
  let dataSize := to_int (Z.of_nat (length impulseResponse) * sizeof_float) in
  let fileSize := to_int (36 + dataSize) in
  let fmtChunkSize := 16 in
  let audioFormat := 3 in
  let numChannels := 1 in
  let byteRate := to_int (sampleRate * numChannels * sizeof_float) in
  let blockAlign := to_short (numChannels * sizeof_float) in
  let bitsPerSample := 32 in
  chars "RIFF" ++ int_bytes fileSize ++ chars "WAVE" ++ chars "fmt " ++
  int_bytes fmtChunkSize ++ short_bytes audioFormat ++
  short_bytes numChannels ++ int_bytes sampleRate ++
  int_bytes byteRate ++ short_bytes blockAlign ++
  short_bytes bitsPerSample ++
  chars "data" ++ int_bytes dataSize ++
  firstn (Z.to_nat dataSize) (concat (map floatBytes impulseResponse)).

(** ["output/impulse_response_" + std::to_string(index) + ".wav"] *)
Definition filePath (index : Z) : string :=
  ("output/impulse_response_" ++
   NilZero.string_of_int (Z.to_int index) ++ ".wav")%string.

(** The number a run of bytes stands for, least significant byte first. *)
Fixpoint le_value (bytes : list Z) : Z :=
  match bytes with
  | [] => 0
  | b :: rest => b + 256 * le_value rest
  end.

(** The [n] bytes at offset [off] of a file. *)
Definition bytesAt (off n : nat) (file : list Z) : list Z :=
  firstn n (skipn off file).

End Wav.

(** ** Single precision *)

(** [float] arithmetic on the values the baker computes itself: IEEE 754
    binary32 (24 bits of precision, exponents below 128), rounding to
    nearest, ties to even. *)
Module Binary32.

(** The conversion of an [int] to [float]. *)
Definition of_int (z : Z) : SpecFloat.spec_float :=
  SpecFloat.binary_normalize 24 128 z 0 false.

Definition add : SpecFloat.spec_float -> SpecFloat.spec_float ->
    SpecFloat.spec_float :=
  SpecFloat.SFadd 24 128.
Definition div : SpecFloat.spec_float -> SpecFloat.spec_float ->
    SpecFloat.spec_float :=
  SpecFloat.SFdiv 24 128.

(** [1.0f] *)
Definition one : SpecFloat.spec_float := of_int 1.

(** [<=] on [float] *)
Definition leb : SpecFloat.spec_float -> SpecFloat.spec_float -> bool :=
  SpecFloat.SFleb.

(** What follows is the vocabulary of the lemmas on rounding. *)

(** The mantissa of a positive integer of at most 24 binary digits,
    scaled to 24 digits. *)
Definition scaled (p : positive) : positive :=
  Pos.shiftl p (Z.to_N (24 - Zpos (SpecFloat.digits2_pos p))).

(** [loc] is where the remainder [r] of a division by [b] lies between
    zero and [b]: at zero, under the half, at the half or over it. *)
Definition located (loc : SpecFloat.location) (r b : Z) : Prop :=
  match loc with
  | SpecFloat.loc_Exact => r = 0
  | SpecFloat.loc_Inexact Lt => 0 < 2 * r < b
  | SpecFloat.loc_Inexact Eq => 2 * r = b
  | SpecFloat.loc_Inexact Gt => b < 2 * r
  end.

(** [f] is the float next to [X * 2^-23]: a full mantissa [M] with the
    exponent [p - 23], within half a unit in the last place of the value,
    and within a quarter of it from under it at the least mantissa. *)
Definition nearest (f : SpecFloat.spec_float) (M : positive) (p X : Z)
    : Prop :=
  f = SpecFloat.S754_finite false M (p - 23) /\
  0 <= p /\ 2^23 <= Zpos M < 2^24 /\
  (2 * Zpos M - 1) * 2^p <= 2 * X /\
  2 * X <= (2 * Zpos M + 1) * 2^p /\
  (Zpos M = 2^23 -> (4 * Zpos M - 1) * 2^p <= 4 * X).

(** The order of two positive floats with full mantissas. *)
Definition below (M1 : positive) (p1 : Z) (M2 : positive) (p2 : Z) : Prop :=
  p1 < p2 \/ (p1 = p2 /\ Zpos M1 <= Zpos M2).

End Binary32.

Arguments Wav.filePath : simpl never.
Arguments Wav.exportImpulseResponseAsWav : simpl never.

Section Baker.
Context `{Collaborators}.

(** ** Data model *)

Record BakedDataIdentifier := {
  type : BakedDataType.t;
  variation : BakedDataVariation.t;
  endpointInfluence : Sphere
}.

#[global] Instance BakedDataIdentifier_eq_dec : EqDecision BakedDataIdentifier.
Proof. solve_decision. Defined.

Record Probe := { influence : Sphere }.

(** Modelled from the spec: [BakedReflectionsData]
    (baked_reflection_data.h is not part of this file).  Per-probe
    storage sized to the probe count at construction, an optional Reverb
    and an optional owned Energy Field per probe set independently, and
    the two capability flags. *)
Record BakedReflectionsData := {
  mHasConvolution : bool;
  mHasParametric : bool;
  mReverbs : list (option Reverb);
  mEnergyFields : list (option EnergyField)
}.

Definition newBakedReflectionsData (numProbes : Z)
    (hasConvolution hasParametric : bool) : BakedReflectionsData :=
  {| mHasConvolution := hasConvolution;
     mHasParametric := hasParametric;
     mReverbs := replicate (Z.to_nat numProbes) None;
     mEnergyFields := replicate (Z.to_nat numProbes) None |}.

(** Modelled from the spec: [setHasConvolution], whose body is in
    baked_reflection_data.h.  The data model has the flags of repeated
    bakes accumulate rather than overwrite, a flag being set when the
    bake pass of its kind runs: the call raises the flag when its argument
    is [true] and leaves it alone otherwise. *)
Definition setHasConvolution (b : bool) (d : BakedReflectionsData) :=
  {| mHasConvolution := mHasConvolution d || b;
     mHasParametric := mHasParametric d;
     mReverbs := mReverbs d;
     mEnergyFields := mEnergyFields d |}.

(** Modelled from the spec: [setHasParametric], likewise. *)
Definition setHasParametric (b : bool) (d : BakedReflectionsData) :=
  {| mHasConvolution := mHasConvolution d;
     mHasParametric := mHasParametric d || b;
     mReverbs := mReverbs d;
     mEnergyFields := mEnergyFields d |}.

Definition setReverb (index : Z) (r : Reverb) (d : BakedReflectionsData) :=
  {| mHasConvolution := mHasConvolution d;
     mHasParametric := mHasParametric d;
     mReverbs := <[Z.to_nat index := Some r]> (mReverbs d);
     mEnergyFields := mEnergyFields d |}.

(** [set(index, unique_ptr<EnergyField>)] takes over whatever the pointer
    holds, an empty pointer included. *)
Definition setEnergyField (index : Z) (f : option EnergyField)
    (d : BakedReflectionsData) :=
  {| mHasConvolution := mHasConvolution d;
     mHasParametric := mHasParametric d;
     mReverbs := mReverbs d;
     mEnergyFields := <[Z.to_nat index := f]> (mEnergyFields d) |}.

(** The Reverb and the Energy Field stored for one probe. *)
Definition reverbAt (d : BakedReflectionsData) (index : Z) : option Reverb :=
  mjoin (mReverbs d !! Z.to_nat index).
Definition energyFieldAt (d : BakedReflectionsData) (index : Z)
    : option EnergyField :=
  mjoin (mEnergyFields d !! Z.to_nat index).

(** [ProbeBatch]: the probes in order and the baked data, one entry per
    identifier. *)
Record ProbeBatch := {
  mProbes : list Probe;
  mData : list (BakedDataIdentifier * BakedReflectionsData)
}.

Definition numProbes (pb : ProbeBatch) : Z := Z.of_nat (length (mProbes pb)).

Fixpoint lookupData (id : BakedDataIdentifier)
    (l : list (BakedDataIdentifier * BakedReflectionsData))
    : option BakedReflectionsData :=
  match l with
  | [] => None
  | (k, v) :: r => if decide (k = id) then Some v else lookupData id r
  end.

Definition hasData (id : BakedDataIdentifier) (pb : ProbeBatch) : bool :=
  match lookupData id (mData pb) with Some _ => true | None => false end.

Definition addData (id : BakedDataIdentifier) (d : BakedReflectionsData)
    (pb : ProbeBatch) : ProbeBatch :=
  {| mProbes := mProbes pb;
     mData := (id, d) :: filter (fun kv => kv.1 <> id) (mData pb) |}.

(** The entry of [id] after the object it points to has been mutated. *)
Fixpoint putData (id : BakedDataIdentifier) (d : BakedReflectionsData)
    (l : list (BakedDataIdentifier * BakedReflectionsData)) :=
  match l with
  | [] => []
  | (k, v) :: r =>
      if decide (k = id) then (k, d) :: r else (k, v) :: putData id d r
  end.

Definition withData (id : BakedDataIdentifier) (d : BakedReflectionsData)
    (pb : ProbeBatch) : ProbeBatch :=
  {| mProbes := mProbes pb; mData := putData id d (mData pb) |}.


(** ** Arguments, observable events and program state *)

Record BakeArgs := {
  scene : IScene;
  identifier : BakedDataIdentifier;
  bakeConvolution : bool;
  bakeParametric : bool;
  numRays : Z;
  numBounces : Z;
  simDuration : float;
  bakeDuration : float;
  order : Z;
  irradianceMinDistance : float;
  numThreads : Z;
  bakeBatchSize : Z;
  sceneType : SceneType.t;
  openCL : option OpenCLDevice;
  callback : bool  (* [true] iff the callback pointer is not null *)
}.

(** The arguments of one [simulator.simulate] call.  The arrays are passed
    whole ([sources.data()], [listeners.data()]); the directivities are all
    [Directivity{}] and are left out. *)
Record SimulateCall := {
  sc_numSources : Z;
  sc_sources : list Vector3f;
  sc_numListeners : Z;
  sc_listeners : list Vector3f;
  sc_numRays : Z;
  sc_numBounces : Z;
  sc_simDuration : float;
  sc_order : Z;
  sc_irradianceMinDistance : float
}.

(** What a bake does to its surroundings, in program order.  [EvSimulate]
    also records the value of the loop variable [i] and the first
    [numValidInBatch] entries of [indices] at the call; [EvProgress n d] is
    the call [callback((n - 1 + 1.0f) / d, userData)], kept as the exact
    pair. *)
Inductive Event :=
| EvJobGraphReset
| EvSimulate (i : Z) (members : list Z) (call : SimulateCall)
| EvProcess
| EvCopyDeviceToHost (j : nat)
| EvSetReverb (index : Z) (r : Reverb)
| EvSetEnergyField (index : Z) (f : option EnergyField)
| EvWriteFile (path : string) (contents : list Z)
| EvProgress (n d : Z)
| EvCancelCheck (requested : bool).

Inductive Fault :=
| AssertionFailure
| AllocationFailure
| IndexOutOfRange
| NullDereference.

(** The state between calls: the two statics, the probe batch, the
    simulator and the events so far. *)
Record State := {
  sCancel : bool;
  sBakeInProgress : bool;
  probeBatch : ProbeBatch;
  simulator : IReflectionSimulator;
  trace : list Event
}.

(** [ReflectionBaker::cancel] *)
Definition cancel (st : State) : State :=
  if sBakeInProgress st then
    {| sCancel := true;
       sBakeInProgress := sBakeInProgress st;
       probeBatch := probeBatch st;
       simulator := simulator st;
       trace := trace st |}
  else st.

(** Calls of [cancel()] from other threads while a bake runs: [cancelDuring
    i] tells whether one lands in iteration [i] of the probe loop no later
    than that iteration's read of [sCancel]; [cancelAfter] whether one
    lands after the last read of [sCancel] and before [sBakeInProgress] is
    reset.  [sCancel] is read nowhere else, so this covers every
    interleaving of the atomic accesses. *)
Record Schedule := {
  cancelDuring : Z -> bool;
  cancelAfter : bool
}.

(** The locals of [bake] that change in the loop, the object
    [reflectionsData] points to, and the statics.  The entries of
    [energyFieldPtrs] alias those of [energyFields] and are not kept
    apart. *)
Record Frame := {
  f_sCancel : bool;
  f_sBakeInProgress : bool;
  reflectionsData : BakedReflectionsData;
  f_simulator : IReflectionSimulator;
  sources : list Vector3f;
  listeners : list Vector3f;
  energyFields : list (option EnergyField);
  indices : list Z;
  numValidInBatch : Z;
  f_trace : list Event
}.

(** ** The state-and-fault monad *)

Inductive Res (A : Type) :=
| Done (a : A) (s : Frame)
| Crash (f : Fault) (s : Frame).
Arguments Done {A} a s.
Arguments Crash {A} f s.

Definition M (A : Type) : Type := Frame -> Res A.

Definition ret {A} (a : A) : M A := fun s => Done a s.
Definition fail {A} (f : Fault) : M A := fun s => Crash f s.
Definition bind {A B} (m : M A) (k : A -> M B) : M B :=
  fun s => match m s with
           | Done a s' => k a s'
           | Crash f s' => Crash f s'
           end.
Definition get : M Frame := fun s => Done s s.
Definition put (s' : Frame) : M unit := fun _ => Done tt s'.

Notation "x <- m ;; k" := (bind m (fun x => k))
  (at level 100, m at next level, right associativity).
Notation "m ;;; k" := (bind m (fun _ => k))
  (at level 100, right associativity).

(** The effect of a call on the object behind [reflectionsData]: the two
    overloads of [BakedReflectionsData::set] write a slot, every other call
    leaves the object alone. *)
Definition applyEvent (e : Event) (d : BakedReflectionsData)
    : BakedReflectionsData :=
  match e with
  | EvSetReverb index r => setReverb index r d
  | EvSetEnergyField index f => setEnergyField index f d
  | _ => d
  end.

(** An observable call: it is appended to the trace and takes effect on
    the baked data. *)
Definition emit (e : Event) : M unit := fun s =>
  Done tt
    {| f_sCancel := f_sCancel s; f_sBakeInProgress := f_sBakeInProgress s;
       reflectionsData := applyEvent e (reflectionsData s);
       f_simulator := f_simulator s;
       sources := sources s; listeners := listeners s;
       energyFields := energyFields s; indices := indices s;
       numValidInBatch := numValidInBatch s;
       f_trace := f_trace s ++ [e] |}.

Definition setEnergyFields (l : list (option EnergyField)) : M unit := fun s =>
  Done tt
    {| f_sCancel := f_sCancel s; f_sBakeInProgress := f_sBakeInProgress s;
       reflectionsData := reflectionsData s; f_simulator := f_simulator s;
       sources := sources s; listeners := listeners s;
       energyFields := l; indices := indices s;
       numValidInBatch := numValidInBatch s;
       f_trace := f_trace s |}.

Definition setSimulator (sim : IReflectionSimulator) : M unit := fun s =>
  Done tt
    {| f_sCancel := f_sCancel s; f_sBakeInProgress := f_sBakeInProgress s;
       reflectionsData := reflectionsData s; f_simulator := sim;
       sources := sources s; listeners := listeners s;
       energyFields := energyFields s; indices := indices s;
       numValidInBatch := numValidInBatch s;
       f_trace := f_trace s |}.

Definition setNumValidInBatch (n : Z) : M unit := fun s =>
  Done tt
    {| f_sCancel := f_sCancel s; f_sBakeInProgress := f_sBakeInProgress s;
       reflectionsData := reflectionsData s; f_simulator := f_simulator s;
       sources := sources s; listeners := listeners s;
       energyFields := energyFields s; indices := indices s;
       numValidInBatch := n;
       f_trace := f_trace s |}.

Definition setCancel (b : bool) : M unit := fun s =>
  Done tt
    {| f_sCancel := b; f_sBakeInProgress := f_sBakeInProgress s;
       reflectionsData := reflectionsData s; f_simulator := f_simulator s;
       sources := sources s; listeners := listeners s;
       energyFields := energyFields s; indices := indices s;
       numValidInBatch := numValidInBatch s;
       f_trace := f_trace s |}.

(** [*energyFields[j]] and [energyFields[j]->]: the array access and the
    dereference of the [unique_ptr] can each go wrong. *)
Definition derefEnergyField (j : nat) : M EnergyField := fun s =>
  match energyFields s !! j with
  | Some (Some f) => Done f s
  | Some None => Crash NullDereference s
  | None => Crash IndexOutOfRange s
  end.

(** [indices[j]] *)
Definition readIndex (j : nat) : M Z := fun s =>
  match indices s !! j with
  | Some i => Done i s
  | None => Crash IndexOutOfRange s
  end.

(** [for (auto j = 0; j < numValidInBatch; ++j) body] with the values of
    [j] listed. *)
Fixpoint forEach (js : list nat) (body : nat -> M unit) : M unit :=
  match js with
  | [] => ret tt
  | j :: js' => body j ;;; forEach js' body
  end.

Definition slots (numValid : Z) : list nat := seq 0 (Z.to_nat numValid).

(** ** [ReflectionBaker::bake] *)

(** Lines 101-104: the batch size the loop works with. *)
Definition effectiveBatchSize (a : BakeArgs) : Z :=
  if negb (SceneType.eqb (sceneType a) SceneType.RadeonRays) &&
     negb (BakedDataVariation.eqb (variation (identifier a))
             BakedDataVariation.StaticListener)
  then 1 else bakeBatchSize a.

(** Lines 132-157: whether the probe is valid and, if so, the source and
    the listener written at position [numValidInBatch]. *)
Definition probeEndpoints (id : BakedDataIdentifier) (p : Probe)
    : option (Vector3f * Vector3f) :=
  match variation id with
  | BakedDataVariation.Reverb =>
      Some (center (influence p), center (influence p))
  | BakedDataVariation.StaticSource =>
      if contains (endpointInfluence id) (center (influence p))
      then Some (center (endpointInfluence id), center (influence p))
      else None
  | BakedDataVariation.StaticListener =>
      if contains (endpointInfluence id) (center (influence p))
      then Some (center (influence p), center (endpointInfluence id))
      else None
  | BakedDataVariation.Dynamic => None
  end.

Definition probeValid (id : BakedDataIdentifier) (p : Probe) : bool :=
  match probeEndpoints id p with Some _ => true | None => false end.

(** Lines 137-138 (145-146, 154-155) and 159-166: the writes at position
    [numValidInBatch] of the batch arrays, and the increment. *)
Definition enqueue (a : BakeArgs) (i : Z) (sl : Vector3f * Vector3f)
    : M unit := fun s =>
  let k := Z.to_nat (numValidInBatch s) in
  if (k <? length (sources s))%nat then
    Done tt
      {| f_sCancel := f_sCancel s; f_sBakeInProgress := f_sBakeInProgress s;
         reflectionsData := reflectionsData s; f_simulator := f_simulator s;
         sources := <[k := sl.1]> (sources s);
         listeners := <[k := sl.2]> (listeners s);
         energyFields :=
           <[k := Some (EnergyFieldFactory_create (sceneType a)
                          (simDuration a) (order a) (openCL a))]>
             (energyFields s);
         indices := <[k := i]> (indices s);
         numValidInBatch := numValidInBatch s + 1;
         f_trace := f_trace s |}
  else Crash IndexOutOfRange s.

(** Lines 170-192. *)
Definition endpointCounts (st : SceneType.t) (v : BakedDataVariation.t)
    (numValid : Z) : Z * Z :=
  let numSources := numValid in
  let numListeners := 1 in
  if SceneType.eqb st SceneType.RadeonRays then
    match v with
    | BakedDataVariation.StaticSource => (1, numValid)
    | BakedDataVariation.StaticListener => (numValid, 1)
    | BakedDataVariation.Reverb => (numValid, numValid)
    | BakedDataVariation.Dynamic => (numSources, numListeners)
    end
  else (numSources, numListeners).

(** [threadPool.process(jobGraph)]: the populated work runs on the energy
    fields of the batch. *)
Definition runJobGraph (work : nat -> EnergyField -> EnergyField)
    (numValid : Z) (fields : list (option EnergyField))
    : list (option EnergyField) :=
  imap (fun j o => if (j <? Z.to_nat numValid)%nat then work j <$> o else o)
       fields.

(** Lines 194-199. *)
Definition simulateBatch (a : BakeArgs) (i : Z) : M unit :=
  s <- get ;;
  let counts :=
    endpointCounts (sceneType a) (variation (identifier a))
                   (numValidInBatch s) in
  let numSources := counts.1 in
  let numListeners := counts.2 in
  emit EvJobGraphReset ;;;
  let jobGraph :=
    simulate (f_simulator s) (scene a)
      numSources (sources s) numListeners (listeners s)
      (numRays a) (numBounces a) (simDuration a) (order a)
      (irradianceMinDistance a) in
  emit (EvSimulate i
          (firstn (Z.to_nat (numValidInBatch s)) (indices s))
          {| sc_numSources := numSources; sc_sources := sources s;
             sc_numListeners := numListeners; sc_listeners := listeners s;
             sc_numRays := numRays a; sc_numBounces := numBounces a;
             sc_simDuration := simDuration a; sc_order := order a;
             sc_irradianceMinDistance := irradianceMinDistance a |}) ;;;
  setSimulator jobGraph.1 ;;;
  setEnergyFields
    (runJobGraph jobGraph.2 (numValidInBatch s) (energyFields s)) ;;;
  emit EvProcess.

(** Lines 201-209, compiled in when [IPL_USES_OPENCL] is defined. *)
Definition copyBack (j : nat) : M unit :=
  f <- derefEnergyField j ;;
  s <- get ;;
  setEnergyFields (<[j := Some (copyDeviceToHost f)]> (energyFields s)) ;;;
  emit (EvCopyDeviceToHost j).

Definition deviceToHost (a : BakeArgs) : M unit :=
  if IPL_USES_OPENCL && SceneType.eqb (sceneType a) SceneType.RadeonRays then
    s <- get ;; forEach (slots (numValidInBatch s)) copyBack
  else ret tt.

(** Lines 215-218. *)
Definition storeReverb (j : nat) : M unit :=
  f <- derefEnergyField j ;;
  let reverb := ReverbEstimator_estimate f in
  index <- readIndex j ;;
  emit (EvSetReverb index reverb).

(** Lines 226-238: the energy field handed to storage.  The move leaves
    [energyFields[j]] empty. *)
Definition takeEnergyField (a : BakeArgs) (j : nat)
    : M (option EnergyField) :=
  if float_eq (simDuration a) (bakeDuration a) then
    s <- get ;;
    match energyFields s !! j with
    | Some p => setEnergyFields (<[j := None]> (energyFields s)) ;;; ret p
    | None => fail IndexOutOfRange
    end
  else
    src <- derefEnergyField j ;;
    ret (Some (copyFrom (EnergyField_new (bakeDuration a) (order a)) src)).

(** Lines 226-243. *)
Definition storeEnergyField (a : BakeArgs) (j : nat) : M unit :=
  energyField <- takeEnergyField a j ;;
  index <- readIndex j ;;
  emit (EvSetEnergyField index energyField) ;;;
  f <- derefEnergyField j ;;
  let impulseResponse := getImpulseResponse f in
  let sampleRate := 44100 in
  index' <- readIndex j ;;
  emit (EvWriteFile (Wav.filePath index')
          (Wav.exportImpulseResponseAsWav impulseResponse sampleRate)).

(** Lines 211-245. *)
Definition writeBack (a : BakeArgs) : M unit :=
  s <- get ;;
  (if bakeParametric a
   then forEach (slots (numValidInBatch s)) storeReverb else ret tt) ;;;
  (if bakeConvolution a
   then forEach (slots (numValidInBatch s)) (storeEnergyField a)
   else ret tt).

(** Lines 249-258; the result tells whether the loop is left. *)
Definition reportAndCheck (a : BakeArgs) (N i : Z) : M bool :=
  (if callback a then emit (EvProgress (i + 1) N) else ret tt) ;;;
  s <- get ;;
  emit (EvCancelCheck (f_sCancel s)) ;;;
  if f_sCancel s then setCancel false ;;; ret true else ret false.

(** Lines 170-258: a closed batch. *)
Definition dispatch (a : BakeArgs) (N i : Z) : M bool :=
  simulateBatch a i ;;;
  deviceToHost a ;;;
  writeBack a ;;;
  setNumValidInBatch 0 ;;;
  reportAndCheck a N i.

(** A call of [cancel()] from another thread while the frame is live. *)
Definition requestCancel (s : Frame) : Frame :=
  if f_sBakeInProgress s then
    {| f_sCancel := true; f_sBakeInProgress := f_sBakeInProgress s;
       reflectionsData := reflectionsData s; f_simulator := f_simulator s;
       sources := sources s; listeners := listeners s;
       energyFields := energyFields s; indices := indices s;
       numValidInBatch := numValidInBatch s;
       f_trace := f_trace s |}
  else s.

Definition cancelRequest : M unit := fun s => Done tt (requestCancel s).

(** The body of the loop over the probes (lines 132-259) with [N =
    probeBatch.numProbes()]; the result tells whether the loop is left. *)
Definition loopBody (a : BakeArgs) (N i : Z) (p : Probe) : M bool :=
  match probeEndpoints (identifier a) p with
  | Some sl => enqueue a i sl
  | None => ret tt
  end ;;;
  s <- get ;;
  if (numValidInBatch s =? effectiveBatchSize a) || (i =? N - 1)
  then dispatch a N i
  else ret false.

(** One iteration: the body, after what other threads do meanwhile. *)
Definition iteration (a : BakeArgs) (sch : Schedule) (N i : Z) (p : Probe)
    : M bool :=
  (if cancelDuring sch i then cancelRequest else ret tt) ;;;
  loopBody a N i p.

(** The loop, over the probes from index [i] on; the result tells whether
    it was left by [break]. *)
Fixpoint bakeLoop (a : BakeArgs) (sch : Schedule) (N i : Z)
    (ps : list Probe) : M bool :=
  match ps with
  | [] => ret false
  | p :: ps' =>
      brk <- iteration a sch N i p ;;
      if brk then ret true else bakeLoop a sch N (i + 1) ps'
  end.

Inductive Outcome := Completed | Cancelled | Faulted (f : Fault).

(** Lines 106-116. *)
Definition targetData (a : BakeArgs) (pb : ProbeBatch) : BakedReflectionsData :=
  let d := match lookupData (identifier a) (mData pb) with
           | Some d => d
           | None => newBakedReflectionsData (numProbes pb)
                       (bakeConvolution a) (bakeParametric a)
           end in
  setHasParametric (bakeParametric a)
    (setHasConvolution (bakeConvolution a) d).

Definition ensureData (a : BakeArgs) (pb : ProbeBatch) : ProbeBatch :=
  if hasData (identifier a) pb then pb
  else addData (identifier a)
         (newBakedReflectionsData (numProbes pb)
            (bakeConvolution a) (bakeParametric a)) pb.

(** Lines 118-128. *)
Definition enter (a : BakeArgs) (st : State) : Frame :=
  let n := Z.to_nat (effectiveBatchSize a) in
  {| f_sCancel := sCancel st; f_sBakeInProgress := true;
     reflectionsData := targetData a (probeBatch st);
     f_simulator := simulator st;
     sources := replicate n defaultCoordinateSpace;
     listeners := replicate n defaultCoordinateSpace;
     energyFields := replicate n None;
     indices := replicate n 0;
     numValidInBatch := 0;
     f_trace := trace st |}.

(** The state a frame leaves behind; [inProgress] is [sBakeInProgress]. *)
Definition leave (a : BakeArgs) (st : State) (inProgress : bool) (s : Frame)
    : State :=
  {| sCancel := f_sCancel s;
     sBakeInProgress := inProgress;
     probeBatch :=
       withData (identifier a) (reflectionsData s)
         (ensureData a (probeBatch st));
     simulator := f_simulator s;
     trace := f_trace s |}.

(** The asserts of lines 95-97. *)
Definition preconditions (a : BakeArgs) : bool :=
  (bakeConvolution a || bakeParametric a) &&
  BakedDataType.eqb (type (identifier a)) BakedDataType.Reflections &&
  negb (BakedDataVariation.eqb (variation (identifier a))
          BakedDataVariation.Dynamic).

(** [ReflectionBaker::bake].  A failed assert aborts before anything is
    touched; an array of negative size cannot be allocated; a fault in the
    loop leaves [sBakeInProgress] set. *)
Definition bake (a : BakeArgs) (sch : Schedule) (st : State)
    : State * Outcome :=
  if negb (preconditions a) then (st, Faulted AssertionFailure)
  else
    let s0 := enter a st in
    if effectiveBatchSize a <? 0 then
      (leave a st true s0, Faulted AllocationFailure)
    else
      match bakeLoop a sch (numProbes (probeBatch st)) 0
              (mProbes (probeBatch st)) s0 with
      | Done brk s =>
          let s' := if cancelAfter sch then requestCancel s else s in
          (leave a st false s', if brk then Cancelled else Completed)
      | Crash f s => (leave a st true s, Faulted f)
      end.

(** ** Vocabulary of the statements *)

(** The events a bake adds to the trace it finds. *)
Definition bakeEvents (a : BakeArgs) (sch : Schedule) (st : State)
    : list Event :=
  drop (length (trace st)) (trace (bake a sch st).1).

(** The probe at [index] is valid for the identifier of the bake. *)
Definition eligible (a : BakeArgs) (pb : ProbeBatch) (index : Z) : bool :=
  (0 <=? index) &&
  match mProbes pb !! Z.to_nat index with
  | Some p => probeValid (identifier a) p
  | None => false
  end.

(** The baked data after a sequence of calls. *)
Definition replay (evs : list Event) (d : BakedReflectionsData)
    : BakedReflectionsData :=
  foldl (fun d e => applyEvent e d) d evs.

Definition storedReverb (pb : ProbeBatch) (id : BakedDataIdentifier)
    (index : Z) : option Reverb :=
  match lookupData id (mData pb) with
  | Some d => reverbAt d index
  | None => None
  end.

Definition storedEnergyField (pb : ProbeBatch) (id : BakedDataIdentifier)
    (index : Z) : option EnergyField :=
  match lookupData id (mData pb) with
  | Some d => energyFieldAt d index
  | None => None
  end.

Definition hasConvolution (pb : ProbeBatch) (id : BakedDataIdentifier)
    : option bool :=
  mHasConvolution <$> lookupData id (mData pb).

Definition hasParametric (pb : ProbeBatch) (id : BakedDataIdentifier)
    : option bool :=
  mHasParametric <$> lookupData id (mData pb).

(** Every baked data object holds one slot of each kind per probe. *)
Definition wellSized (pb : ProbeBatch) : Prop :=
  Forall (fun kv =>
            length (mReverbs kv.2) = length (mProbes pb) /\
            length (mEnergyFields kv.2) = length (mProbes pb))
         (mData pb).

(** The simulator calls of a trace: loop variable, batch members,
    arguments. *)
Definition simulateCalls (evs : list Event)
    : list (Z * list Z * SimulateCall) :=
  omap (fun e => match e with
                 | EvSimulate i members call => Some (i, members, call)
                 | _ => None
                 end) evs.

(** The progress reports of a trace. *)
Definition progressReports (evs : list Event) : list (Z * Z) :=
  omap (fun e => match e with
                 | EvProgress n d => Some (n, d)
                 | _ => None
                 end) evs.

(** Line 251: the value [(i + 1.0f) / probeBatch.numProbes()] passed to
    the callback by the report [EvProgress (i + 1) N].  The [int] [i] is
    converted to [float], [1.0f] is added, and the sum is divided by the
    [int] [numProbes()] converted to [float]. *)
Definition reportedValue (nd : Z * Z) : SpecFloat.spec_float :=
  Binary32.div (Binary32.add (Binary32.of_int (nd.1 - 1)) Binary32.one)
    (Binary32.of_int nd.2).

(** The events of one closed batch that ran through: dispatch, the
    write-back calls, the progress report if there is a callback, the read
    of [sCancel]. *)
Record Batch := {
  b_i : Z;
  b_members : list Z;
  b_call : SimulateCall;
  b_writes : list Event;
  b_cancelled : bool
}.

Definition batchEvents (a : BakeArgs) (N : Z) (b : Batch) : list Event :=
  [EvJobGraphReset; EvSimulate (b_i b) (b_members b) (b_call b); EvProcess]
  ++ b_writes b
  ++ (if callback a then [EvProgress (b_i b + 1) N] else [])
  ++ [EvCancelCheck (b_cancelled b)].

(** A call made between the executor's return and the progress report,
    for a batch with the given members. *)
Definition isWriteBack (members : list Z) (e : Event) : Prop :=
  match e with
  | EvCopyDeviceToHost _ => True
  | EvSetReverb index _ | EvSetEnergyField index _ => In index members
  | EvWriteFile path _ =>
      exists index, In index members /\ path = Wav.filePath index
  | _ => False
  end.

(** ** Relations used by the proofs *)

Definition post {A} (r : Res A) : Frame :=
  match r with Done _ s | Crash _ s => s end.

(** [m] takes every frame to an [R]-related one, whether it returns or
    faults. *)
Definition always (R : Frame -> Frame -> Prop) {A} (m : M A) : Prop :=
  forall s, R s (post (m s)).

(** The trace only grows, the baked data follows the calls made, and
    [sBakeInProgress] stays as it is. *)
Definition logged (s s' : Frame) : Prop :=
  (exists evs,
     f_trace s' = f_trace s ++ evs /\
     reflectionsData s' = replay evs (reflectionsData s)) /\
  f_sBakeInProgress s' = f_sBakeInProgress s.

(** What the steps between the executor's return and the progress report
    leave alone, and the kind of call they make. *)
Definition writesBack (n : nat) (s s' : Frame) : Prop :=
  Z.to_nat (numValidInBatch s) = n ->
  f_sCancel s' = f_sCancel s /\
  f_sBakeInProgress s' = f_sBakeInProgress s /\
  sources s' = sources s /\
  listeners s' = listeners s /\
  indices s' = indices s /\
  numValidInBatch s' = numValidInBatch s /\
  length (energyFields s') = length (energyFields s) /\
  exists evs,
    f_trace s' = f_trace s ++ evs /\
    Forall (isWriteBack (firstn n (indices s))) evs.

(** The write-back of a batch that ran through wrote every member: a
    Reverb if parametric output is requested, an Energy Field followed by
    the diagnostic file if convolution output is. *)
Definition allWritten (a : BakeArgs) (members : list Z) (evs : list Event)
    : Prop :=
  (bakeParametric a = true ->
   forall m, In m members -> exists r, In (EvSetReverb m r) evs) /\
  (bakeConvolution a = true ->
   forall m, In m members ->
     exists f bytes,
       In (EvSetEnergyField m f) evs /\
       In (EvWriteFile (Wav.filePath m) bytes) evs).

(** Every slot of the open batch holds an energy field and an index. *)
Definition Filled (s : Frame) : Prop :=
  forall j, (j < Z.to_nat (numValidInBatch s))%nat ->
    (exists f, energyFields s !! j = Some (Some f)) /\
    (exists index, indices s !! j = Some index).

(** [m] returns on every frame with a filled batch of [n] members, and
    leaves such a frame. *)
Definition safe (n : nat) (m : M unit) : Prop :=
  forall s,
    Z.to_nat (numValidInBatch s) = n -> Filled s ->
    exists s',
      m s = Done tt s' /\ Filled s' /\
      numValidInBatch s' = numValidInBatch s.

(** No energy field is moved out of the batch arrays: convolution output is
    not requested, or the two durations differ. *)
Definition noMove (a : BakeArgs) : bool :=
  negb (bakeConvolution a) ||
  negb (float_eq (simDuration a) (bakeDuration a)).

(** The members of the batch open in a frame. *)
Definition pendingMembers (s : Frame) : list Z :=
  firstn (Z.to_nat (numValidInBatch s)) (indices s).

(** What holds of a frame at the head of iteration [i]. *)
Record HeadInv (a : BakeArgs) (pb : ProbeBatch) (i : Z) (s : Frame)
    : Prop := {
  hi_sources : length (sources s) = Z.to_nat (effectiveBatchSize a);
  hi_listeners : length (listeners s) = Z.to_nat (effectiveBatchSize a);
  hi_fields : length (energyFields s) = Z.to_nat (effectiveBatchSize a);
  hi_indices : length (indices s) = Z.to_nat (effectiveBatchSize a);
  hi_lo : 0 <= numValidInBatch s;
  hi_hi : numValidInBatch s < effectiveBatchSize a \/
          (numValidInBatch s = 0 /\ effectiveBatchSize a = 0);
  hi_members :
    Forall (fun index => index < i /\ eligible a pb index = true)
           (pendingMembers s);
  hi_inProgress : f_sBakeInProgress s = true
}.

(** What holds of the members of a batch closed in iteration [i]. *)
Definition closedBatch (a : BakeArgs) (pb : ProbeBatch) (i : Z)
    (members : list Z) : Prop :=
  Forall (fun index => index <= i /\ eligible a pb index = true) members /\
  Z.of_nat (length members) <= effectiveBatchSize a /\
  (Z.of_nat (length members) = effectiveBatchSize a \/
   i = numProbes pb - 1) /\
  (if eligible a pb i then last members = Some i
   else Z.of_nat (length members) < effectiveBatchSize a \/
        effectiveBatchSize a = 0).

(** The endpoint counts and the pass-through arguments of a call for a
    batch of the given members. *)
Definition callFor (a : BakeArgs) (members : list Z) (call : SimulateCall)
    : Prop :=
  (sc_numSources call, sc_numListeners call) =
    endpointCounts (sceneType a) (variation (identifier a))
      (Z.of_nat (length members)) /\
  sc_numRays call = numRays a /\
  sc_numBounces call = numBounces a /\
  sc_simDuration call = simDuration a /\
  sc_order call = order a /\
  sc_irradianceMinDistance call = irradianceMinDistance a.

(** From [s] to [s'] one batch with the given members was dispatched in
    iteration [i] and ran through, the loop being left iff [brk]. *)
Definition ranBatch (a : BakeArgs) (pb : ProbeBatch) (i : Z)
    (members : list Z) (brk : bool) (s s' : Frame) : Prop :=
  exists call wb,
    closedBatch a pb i members /\
    callFor a members call /\
    (Forall (isWriteBack members) wb /\ allWritten a members wb) /\
    f_trace s' =
      f_trace s ++
      batchEvents a (numProbes pb)
        {| b_i := i; b_members := members; b_call := call;
           b_writes := wb; b_cancelled := brk |}.

(** From [s] to [s'] one batch was dispatched and faulted before its
    progress report. *)
Definition brokeBatch (a : BakeArgs) (pb : ProbeBatch) (i : Z)
    (members : list Z) (s s' : Frame) : Prop :=
  exists call wb,
    closedBatch a pb i members /\
    callFor a members call /\
    Forall (isWriteBack members) wb /\
    f_trace s' =
      f_trace s ++
      [EvJobGraphReset; EvSimulate i members call; EvProcess] ++ wb.

(** [sCancel] as read in iteration [hi] when it was [c0] at the head of
    iteration [lo] and no read in between found it set: some call of
    [cancel()] has landed by then. *)
Definition requested (sch : Schedule) (c0 : bool) (lo hi : Z) : bool :=
  c0 || existsb (cancelDuring sch) (seqZ lo (hi + 1 - lo)).

(** What holds of a batch that ran through in a loop started at iteration
    [lo] with [sCancel = c0]. *)
Definition batchOK (a : BakeArgs) (pb : ProbeBatch) (sch : Schedule)
    (c0 : bool) (lo : Z) (b : Batch) : Prop :=
  lo <= b_i b < numProbes pb /\
  closedBatch a pb (b_i b) (b_members b) /\
  callFor a (b_members b) (b_call b) /\
  (Forall (isWriteBack (b_members b)) (b_writes b) /\
   allWritten a (b_members b) (b_writes b)) /\
  b_cancelled b = requested sch c0 lo (b_i b).

(** The events of a batch dispatched in iteration [i] that faulted
    before its progress report. *)
Definition brokenBatch (a : BakeArgs) (pb : ProbeBatch) (i : Z)
    (evs : list Event) : Prop :=
  exists members call wb,
    closedBatch a pb i members /\
    callFor a members call /\
    Forall (isWriteBack members) wb /\
    evs = [EvJobGraphReset; EvSimulate i members call; EvProcess] ++ wb.

(** The shape of a run of the loop from iteration [i] over the probes [ps]
    with result [r]: the batches that ran through, in order, then
    possibly one that faulted. *)
Definition loopRun (a : BakeArgs) (pb : ProbeBatch) (sch : Schedule)
    (i : Z) (ps : list Probe) (s : Frame) (r : Res bool) : Prop :=
  exists bl partial,
    f_trace (post r) =
      f_trace s ++ concat (map (batchEvents a (numProbes pb)) bl) ++ partial /\
    Forall (batchOK a pb sch (f_sCancel s) i) bl /\
    StronglySorted Z.lt (map b_i bl) /\
    match r with
    | Done true s' =>
        partial = [] /\ f_sCancel s' = false /\
        exists bl0 b,
          bl = bl0 ++ [b] /\ b_cancelled b = true /\
          Forall (fun b => b_cancelled b = false) bl0
    | Done false s' =>
        partial = [] /\
        Forall (fun b => b_cancelled b = false) bl /\
        (ps <> [] ->
         last (map b_i bl) = Some (numProbes pb - 1) /\
         pendingMembers s' = []) /\
        concat (map b_members bl) ++ pendingMembers s' =
          pendingMembers s ++
          filter (fun index => eligible a pb index = true)
                 (seqZ i (Z.of_nat (length ps)))
    | Crash _ s' =>
        Forall (fun b => b_cancelled b = false) bl /\
        (partial = [] \/
         exists j,
           i <= j < numProbes pb /\
           brokenBatch a pb j partial /\
           Forall (fun b => b_i b < j) bl)
    end.

(** The run of the probe loop inside [bake]. *)
Definition loopResult (a : BakeArgs) (sch : Schedule) (st : State)
    : Res bool :=
  bakeLoop a sch (numProbes (probeBatch st)) 0 (mProbes (probeBatch st))
    (enter a st).

Definition isFault (o : Outcome) : bool :=
  match o with Faulted _ => true | _ => false end.

(** The simulator calls of a list of batches. *)
Definition callsOf (bl : list Batch) : list (Z * list Z * SimulateCall) :=
  map (fun b => (b_i b, b_members b, b_call b)) bl.

(** A call of [set] is for an eligible probe. *)
Definition writesEligible (a : BakeArgs) (pb : ProbeBatch) (e : Event)
    : Prop :=
  match e with
  | EvSetReverb index _ | EvSetEnergyField index _ =>
      eligible a pb index = true
  | _ => True
  end.


(** No call of [set] in [evs] writes the Reverb, respectively the Energy
    Field, of probe [n]. *)
Definition reverbUntouched (n : nat) (evs : list Event) : Prop :=
  forall index r, In (EvSetReverb index r) evs -> Z.to_nat index <> n.

Definition energyFieldUntouched (n : nat) (evs : list Event) : Prop :=
  forall index f, In (EvSetEnergyField index f) evs -> Z.to_nat index <> n.

(** The shape of the events of a bake that got as far as the loop, by
    outcome. *)
Definition bakeShape (a : BakeArgs) (sch : Schedule) (st : State)
    (bl : list Batch) (partial : list Event) : Prop :=
  let pb := probeBatch st in
  bakeEvents a sch st =
    concat (map (batchEvents a (numProbes pb)) bl) ++ partial /\
  Forall (batchOK a pb sch (sCancel st) 0) bl /\
  StronglySorted Z.lt (map b_i bl) /\
  match (bake a sch st).2 with
  | Cancelled =>
      partial = [] /\
      sCancel (bake a sch st).1 = cancelAfter sch /\
      exists bl0 b,
        bl = bl0 ++ [b] /\ b_cancelled b = true /\
        Forall (fun b => b_cancelled b = false) bl0
  | Completed =>
      partial = [] /\
      Forall (fun b => b_cancelled b = false) bl /\
      (mProbes pb <> [] -> last (map b_i bl) = Some (numProbes pb - 1)) /\
      concat (map b_members bl) =
        filter (fun index => eligible a pb index = true)
               (seqZ 0 (numProbes pb))
  | Faulted _ =>
      Forall (fun b => b_cancelled b = false) bl /\
      (partial = [] \/
       exists j,
         0 <= j < numProbes pb /\
         brokenBatch a pb j partial /\
         Forall (fun b => b_i b < j) bl)
  end.

(** A call other than the writing of a diagnostic file. *)
Definition notWriteFile (e : Event) : Prop :=
  match e with EvWriteFile _ _ => False | _ => True end.

(** From [s] to [s'] no diagnostic file is written. *)
Definition noFile (s s' : Frame) : Prop :=
  exists evs, f_trace s' = f_trace s ++ evs /\ Forall notWriteFile evs.

(** [hasConvolution] is after the bake what it was before it; data the
    bake creates has it as the bake constructs it, which is [false] when
    no convolution output is requested. *)
Definition convolutionFlagUnchanged (a : BakeArgs) (sch : Schedule)
    (st : State) : Prop :=
  let id := identifier a in
  let pb' := probeBatch (bake a sch st).1 in
  match hasConvolution (probeBatch st) id with
  | Some c => hasConvolution pb' id = Some c
  | None => hasConvolution pb' id = Some (bakeConvolution a)
  end.


(** Accumulation of the capability flags: a bake that does not request an
    output kind leaves the flag of that kind as it found it, and a bake
    that requests it leaves the flag set. *)
Definition flagsAccumulate (a : BakeArgs) (sch : Schedule) (st : State)
    : Prop :=
  let id := identifier a in
  let pb' := probeBatch (bake a sch st).1 in
  (bakeConvolution a = false ->
   hasConvolution pb' id = hasConvolution (probeBatch st) id) /\
  (bakeParametric a = false ->
   hasParametric pb' id = hasParametric (probeBatch st) id) /\
  (bakeConvolution a = true -> hasConvolution pb' id = Some true) /\
  (bakeParametric a = true -> hasParametric pb' id = Some true).

(** ** The claims that fail as they are worded *)

(** Lines 101-104: the condition under which the batch size is set to 1. *)
Definition oneAtATime (a : BakeArgs) : bool :=
  negb (SceneType.eqb (sceneType a) SceneType.RadeonRays) &&
  negb (BakedDataVariation.eqb (variation (identifier a))
          BakedDataVariation.StaticListener).

(** The batching law as worded: on the CPU backend with a variation other
    than [StaticListener] every simulator call processes exactly one
    eligible probe; otherwise up to [bakeBatchSize], a batch closing when
    it reaches [bakeBatchSize] or at the last probe. *)
Definition batchingLawAsWorded (a : BakeArgs) (sch : Schedule) (st : State)
    : Prop :=
  Forall (fun c =>
            if oneAtATime a then length c.1.2 = 1%nat
            else Z.of_nat (length c.1.2) <= bakeBatchSize a /\
                 (Z.of_nat (length c.1.2) = bakeBatchSize a \/
                  c.1.1 = numProbes (probeBatch st) - 1))
         (simulateCalls (bakeEvents a sch st)).

(** The scenario of 10 probes as worded: three simulator calls for 4, 4 and
    2 probes, a Reverb for each of the 10 probes, [hasParametric] set and
    [hasConvolution] as before the call. *)
Definition scenarioAsWorded (a : BakeArgs) (sch : Schedule) (st : State)
    : Prop :=
  let id := identifier a in
  let pb' := probeBatch (bake a sch st).1 in
  map (fun c => length c.1.2) (simulateCalls (bakeEvents a sch st)) =
    [4; 4; 2]%nat /\
  (forall n, (n < 10)%nat -> is_Some (storedReverb pb' id (Z.of_nat n))) /\
  hasParametric pb' id = Some true /\
  convolutionFlagUnchanged a sch st.

(** The final progress value as worded: a bake with a callback that runs
    to completion over a non-empty probe list reports 1.0 last. *)
Definition finalReportAsWorded (a : BakeArgs) (sch : Schedule) (st : State)
    : Prop :=
  callback a = true -> (bake a sch st).2 = Completed ->
  0 < numProbes (probeBatch st) ->
  exists nd,
    last (progressReports (bakeEvents a sch st)) = Some nd /\
    reportedValue nd = Binary32.one.


(** ** Vocabulary of the further properties *)

(** From [s] to [s'] every call made satisfies [P]. *)
Definition emits (P : Event -> Prop) (s s' : Frame) : Prop :=
  exists evs, f_trace s' = f_trace s ++ evs /\ Forall P evs.

(** What the arguments of a bake let a call be: a device copy needs the
    OpenCL build and the RadeonRays backend, a Reverb is stored only for
    parametric output and is the estimate of an energy field, an Energy
    Field is stored and a file written only for convolution output; a
    stored field is, when the two durations differ, a new field of the
    stored duration that received a copy; a file holds the export of an
    impulse response at 44100 Hz under the path of a probe index; progress
    is reported only to a callback. *)
Definition requestedCall (a : BakeArgs) (e : Event) : Prop :=
  match e with
  | EvCopyDeviceToHost _ =>
      IPL_USES_OPENCL = true /\
      SceneType.eqb (sceneType a) SceneType.RadeonRays = true
  | EvSetReverb _ r =>
      bakeParametric a = true /\ exists f, r = ReverbEstimator_estimate f
  | EvSetEnergyField _ f =>
      bakeConvolution a = true /\
      (float_eq (simDuration a) (bakeDuration a) = false ->
       exists src,
         f = Some (copyFrom (EnergyField_new (bakeDuration a) (order a)) src))
  | EvWriteFile path contents =>
      bakeConvolution a = true /\
      exists index ir,
        path = Wav.filePath index /\
        contents = Wav.exportImpulseResponseAsWav ir 44100
  | EvProgress _ _ => callback a = true
  | _ => True
  end.

(** A diagnostic file is that of an eligible probe. *)
Definition fileOfEligible (a : BakeArgs) (pb : ProbeBatch) (e : Event)
    : Prop :=
  match e with
  | EvWriteFile path _ =>
      exists index, eligible a pb index = true /\ path = Wav.filePath index
  | _ => True
  end.

(** The source and the listener lines 134-157 give the probe at [index]. *)
Definition endpointsAt (a : BakeArgs) (pb : ProbeBatch) (index : Z)
    : option (Vector3f * Vector3f) :=
  if 0 <=? index then
    match mProbes pb !! Z.to_nat index with
    | Some p => probeEndpoints (identifier a) p
    | None => None
    end
  else None.

(** The positions at [j] of the two arrays. *)
Definition slotEndpoints (srcs lsts : list Vector3f) (j : nat)
    : option (Vector3f * Vector3f) :=
  match srcs !! j, lsts !! j with
  | Some src, Some lst => Some (src, lst)
  | _, _ => None
  end.

(** The arrays passed to the simulator hold, at the position of each batch
    member, the endpoints of that probe. *)
Definition callEndpoints (a : BakeArgs) (pb : ProbeBatch)
    (members : list Z) (call : SimulateCall) : Prop :=
  forall j index,
    members !! j = Some index ->
    is_Some (endpointsAt a pb index) /\
    slotEndpoints (sc_sources call) (sc_listeners call) j =
      endpointsAt a pb index.

(** The same of the batch open in a frame. *)
Definition Staged (a : BakeArgs) (pb : ProbeBatch) (s : Frame) : Prop :=
  forall j index,
    pendingMembers s !! j = Some index ->
    is_Some (endpointsAt a pb index) /\
    slotEndpoints (sources s) (listeners s) j = endpointsAt a pb index.

(** On a frame with a filled batch of [n] members, [m] returns and leaves
    such a frame, or faults on an emptied pointer. *)
Definition nullSafe (n : nat) (m : M unit) : Prop :=
  forall s,
    Z.to_nat (numValidInBatch s) = n -> Filled s ->
    (exists s',
       m s = Done tt s' /\ Filled s' /\
       numValidInBatch s' = numValidInBatch s) \/
    (exists s', m s = Crash NullDereference s').

(** A call of [set] is for a probe index of the batch. *)
Definition writesInRange (pb : ProbeBatch) (e : Event) : Prop :=
  match e with
  | EvSetReverb index _ | EvSetEnergyField index _ =>
      0 <= index < numProbes pb
  | _ => True
  end.

(** Line 162: the energy field a batch slot starts with. *)
Definition freshField (a : BakeArgs) : EnergyField :=
  EnergyFieldFactory_create (sceneType a) (simDuration a) (order a)
    (openCL a).

(** The simulator call [call] made again on the simulator [sim]. *)
Definition replayCall (a : BakeArgs) (sim : IReflectionSimulator)
    (call : SimulateCall)
    : IReflectionSimulator * (nat -> EnergyField -> EnergyField) :=
  simulate sim (scene a)
    (sc_numSources call) (sc_sources call)
    (sc_numListeners call) (sc_listeners call)
    (sc_numRays call) (sc_numBounces call) (sc_simDuration call)
    (sc_order call) (sc_irradianceMinDistance call).

(** The energy field of slot [j] once the executor has run the job graph of
    the call and, with OpenCL on the RadeonRays backend, the field has been
    copied to the host (lines 194-209). *)
Definition simulatedField (a : BakeArgs) (sim : IReflectionSimulator)
    (call : SimulateCall) (j : nat) : EnergyField :=
  let f := (replayCall a sim call).2 j (freshField a) in
  if IPL_USES_OPENCL && SceneType.eqb (sceneType a) SceneType.RadeonRays
  then copyDeviceToHost f else f.

(** Lines 228-236: the field handed to storage for the simulated field
    [f]. *)
Definition storedField (a : BakeArgs) (f : EnergyField) : EnergyField :=
  if float_eq (simDuration a) (bakeDuration a) then f
  else copyFrom (EnergyField_new (bakeDuration a) (order a)) f.

(** What the write-back of the batch [members], simulated by [call] on
    [sim], may store or write: for the member at position [j], the Reverb
    estimated from the simulated field of slot [j], the field handed to
    storage for it, and the export of its impulse response. *)
Definition writeOf (a : BakeArgs) (sim : IReflectionSimulator)
    (members : list Z) (call : SimulateCall) (e : Event) : Prop :=
  match e with
  | EvSimulate _ _ _ => False
  | EvSetReverb index r =>
      exists j,
        members !! j = Some index /\
        r = ReverbEstimator_estimate (simulatedField a sim call j)
  | EvSetEnergyField index f =>
      exists j,
        members !! j = Some index /\
        f = Some (storedField a (simulatedField a sim call j))
  | EvWriteFile path contents =>
      exists j index,
        members !! j = Some index /\
        path = Wav.filePath index /\
        contents =
          Wav.exportImpulseResponseAsWav
            (getImpulseResponse (simulatedField a sim call j)) 44100
  | _ => True
  end.

(** A call that stores or writes nothing and is not a simulator call. *)
Definition noWrite (e : Event) : Prop :=
  match e with
  | EvSimulate _ _ _ | EvSetReverb _ _ | EvSetEnergyField _ _
  | EvWriteFile _ _ => False
  | _ => True
  end.

(** The calls [evs], made from the simulator [sim] on, store and write
    what the latest simulator call computed; [cur] is what may be stored
    before the next simulator call. *)
Fixpoint computed (a : BakeArgs) (sim : IReflectionSimulator)
    (cur : Event -> Prop) (evs : list Event) : Prop :=
  match evs with
  | [] => True
  | EvSimulate _ members call :: rest =>
      computed a (replayCall a sim call).1 (writeOf a sim members call) rest
  | e :: rest => cur e /\ computed a sim cur rest
  end.

(** The simulator after the simulator calls of [evs]. *)
Fixpoint simulatorAfter (a : BakeArgs) (sim : IReflectionSimulator)
    (evs : list Event) : IReflectionSimulator :=
  match evs with
  | [] => sim
  | EvSimulate _ _ call :: rest =>
      simulatorAfter a (replayCall a sim call).1 rest
  | _ :: rest => simulatorAfter a sim rest
  end.

(** The first [n] slots of the batch in a frame hold the fields [g] and
    the indices [ix], and the simulator is [sim]. *)
Definition Held (g : nat -> EnergyField) (n : nat) (ix : list Z)
    (sim : IReflectionSimulator) (s : Frame) : Prop :=
  Z.to_nat (numValidInBatch s) = n /\
  indices s = ix /\
  f_simulator s = sim /\
  forall j, (j < n)%nat ->
    energyFields s !! j = Some (Some (g j)) /\ is_Some (ix !! j).

(** On a frame that holds [g], [m] makes calls that satisfy [Q] and, when
    it returns, leaves a frame that holds [g]. *)
Definition computes (Q : Event -> Prop) (g : nat -> EnergyField) (n : nat)
    (ix : list Z) (sim : IReflectionSimulator) (m : M unit) : Prop :=
  forall s,
    Held g n ix sim s ->
    match m s with
    | Done _ s' => Held g n ix sim s' /\ emits Q s s'
    | Crash _ s' => f_simulator s' = sim /\ emits Q s s'
    end.

(** What may be stored after the calls [evs]. *)
Fixpoint allowedAfter (a : BakeArgs) (sim : IReflectionSimulator)
    (cur : Event -> Prop) (evs : list Event) : Event -> Prop :=
  match evs with
  | [] => cur
  | EvSimulate _ members call :: rest =>
      allowedAfter a (replayCall a sim call).1 (writeOf a sim members call)
        rest
  | _ :: rest => allowedAfter a sim cur rest
  end.

(** [cur] lets every call pass that stores and simulates nothing. *)
Definition lenient (cur : Event -> Prop) : Prop :=
  forall e, noWrite e -> cur e.

(** Every slot of the open batch holds the field it was given at line 162
    and an index. *)
Definition Ready (a : BakeArgs) (s : Frame) : Prop :=
  forall j, (j < Z.to_nat (numValidInBatch s))%nat ->
    energyFields s !! j = Some (Some (freshField a)) /\
    is_Some (indices s !! j).

Definition simulatesEndpoints (a : BakeArgs) (pb : ProbeBatch) (e : Event)
    : Prop :=
  match e with
  | EvSimulate _ members call => callEndpoints a pb members call
  | _ => True
  end.

End Baker.

Notation "x <- m ;; k" := (bind m (fun x => k))
  (at level 100, m at next level, right associativity).
Notation "m ;;; k" := (bind m (fun _ => k))
  (at level 100, right associativity).

Arguments Done {_ A} a s.
Arguments Crash {_ A} f s.

(** ** A small concrete world

    Positions on a line, spheres as centre and radius, durations in whole
    units, energy fields as a duration, an order and a list of samples.  The
    simulator counts its calls and writes, for each slot, the source, the
    listener and the call number. *)
Module Toy.

Record Field := { f_duration : Z; f_order : Z; f_samples : list Z }.

Definition toy_simulate (sim : nat) (_ : unit)
    (numSources : Z) (srcs : list Z) (numListeners : Z) (lsts : list Z)
    (_ _ : Z) (_ : Z) (_ : Z) (_ : Z)
    : nat * (nat -> Field -> Field) :=
  (S sim,
   fun j f =>
     {| f_duration := f_duration f; f_order := f_order f;
        f_samples := [default 0 (srcs !! j); default 0 (lsts !! j);
                      Z.of_nat sim] |}).

#[global] Instance world : Collaborators := {|
  Vector3f := Z;
  Sphere := Z * Z;
  float := Z;
  IScene := unit;
  OpenCLDevice := unit;
  EnergyField := Field;
  Reverb := Z;
  IReflectionSimulator := nat;
  center := fst;
  contains := fun s p => Z.abs (p - s.1) <=? s.2;
  float_eq := Z.eqb;
  floatBytes := Wav.int_bytes;
  defaultCoordinateSpace := 0;
  EnergyFieldFactory_create := fun _ d o _ =>
    {| f_duration := d; f_order := o; f_samples := [] |};
  EnergyField_new := fun d o =>
    {| f_duration := d; f_order := o; f_samples := [] |};
  copyFrom := fun dst src =>
    {| f_duration := f_duration dst; f_order := f_order dst;
       f_samples := firstn (Z.to_nat (f_duration dst)) (f_samples src) |};
  copyDeviceToHost := fun f => f;
  getImpulseResponse := f_samples;
  ReverbEstimator_estimate := fun f => foldr Z.add 0 (f_samples f);
  simulate := toy_simulate;
  IPL_USES_OPENCL := true
|}.

Definition probeAt (x : Z) : Probe := {| influence := (x, 1) |}.

Definition ident (v : BakedDataVariation.t) (c r : Z) : BakedDataIdentifier :=
  {| type := BakedDataType.Reflections; variation := v;
     endpointInfluence := (c, r) |}.

Definition args (v : BakedDataVariation.t) (c r : Z)
    (conv param : bool) (simDur bakeDur : Z) (batch : Z)
    (st : SceneType.t) (cb : bool) : BakeArgs :=
  {| scene := tt; identifier := ident v c r;
     bakeConvolution := conv; bakeParametric := param;
     numRays := 1024; numBounces := 4;
     simDuration := simDur; bakeDuration := bakeDur;
     order := 1; irradianceMinDistance := 1;
     numThreads := 2; bakeBatchSize := batch;
     sceneType := st; openCL := None; callback := cb |}.

Definition noCancel : Schedule :=
  {| cancelDuring := fun _ => false; cancelAfter := false |}.

Definition fresh (xs : list Z) : State :=
  {| sCancel := false; sBakeInProgress := false;
     probeBatch := {| mProbes := map probeAt xs; mData := [] |};
     simulator := 0%nat; trace := [] |}.

Definition tenProbes : list Z := [0; 1; 2; 3; 4; 5; 6; 7; 8; 9].

(** The scenario of the specification: 10 probes, Reverb, batch size 4, CPU
    backend, parametric output only. *)
Definition scenarioArgs : BakeArgs :=
  args BakedDataVariation.Reverb 0 0 false true 2 2 4 SceneType.Default true.
Definition scenarioState : State := fresh tenProbes.

(** Convolution output with equal durations, on either backend. *)
Definition moveArgsCPU : BakeArgs :=
  args BakedDataVariation.Reverb 0 0 true false 2 2 4 SceneType.Default true.
Definition moveArgsGPU : BakeArgs :=
  args BakedDataVariation.Reverb 0 0 true false 2 2 2 SceneType.RadeonRays
    false.

(** Convolution output only, then parametric output only, with different
    durations. *)
Definition convolutionArgs : BakeArgs :=
  args BakedDataVariation.Reverb 0 0 true false 2 1 4 SceneType.Default true.
Definition parametricArgs : BakeArgs :=
  args BakedDataVariation.Reverb 0 0 false true 2 1 4 SceneType.Default true.

(** A static source at 100 with radius 1; the probes at 0, 1 and 2 are
    outside its influence, the probes at 99 and 100 inside. *)
Definition staticArgs (st : SceneType.t) : BakeArgs :=
  args BakedDataVariation.StaticSource 100 1 false true 2 2 4 st true.

(** A call of [cancel()] landing in iteration 1. *)
Definition cancelAtOne : Schedule :=
  {| cancelDuring := fun i => i =? 1; cancelAfter := false |}.

(** A call of [cancel()] landing after the last read of [sCancel]. *)
Definition cancelLate : Schedule :=
  {| cancelDuring := fun _ => false; cancelAfter := true |}.

(** A batch of 16777218 probes, all at the origin. *)
Definition manyProbes : State := fresh (replicate (Z.to_nat 16777218) 0).


(** An impulse response of three samples. *)
Definition ramp : list float := [1; 2; 3].

(** The state a bake leaves when a call of [cancel()] lands late. *)
Definition pendingState : State :=
  (bake scenarioArgs cancelLate (fresh [0; 1])).1.

End Toy.


(** * Single precision: the value reported to the callback *)

(** How the conversion of an [int], the addition of [1.0f] and the
    division round, from the definitions of [Floats.SpecFloat]: each gives
    the float next to the exact result.  The value reported is therefore
    monotone in the number of probes processed, and is 1.0 at the last
    probe as long as the number of probes is a float as it is. *)

Section SinglePrecision.
Import SpecFloat.

Lemma iter_pos_iter {A} (f : A -> A) k x : iter_pos f k x = Pos.iter f x k.
Proof.
  revert x. induction k as [k IH|k IH|]; intros x; cbn.
  - rewrite !IH, !Pos.iter_swap. reflexivity.
  - rewrite !IH. reflexivity.
  - reflexivity.
Qed.

Lemma digits_shiftl p k :
  digits2_pos (Pos.iter xO p k) = (digits2_pos p + k)%positive.
Proof.
  induction k as [|k IH] using Pos.peano_ind.
  - cbn. rewrite Pos.add_1_r. reflexivity.
  - rewrite Pos.iter_succ. cbn. rewrite IH, Pos.add_succ_r. reflexivity.
Qed.

Lemma shr_shiftl k q :
  iter_pos shr_1 k {| shr_m := Zpos (Pos.iter xO q k); shr_r := false;
                      shr_s := false |} =
    {| shr_m := Zpos q; shr_r := false; shr_s := false |}.
Proof.
  rewrite iter_pos_iter.
  induction k as [|k IH] using Pos.peano_ind.
  - reflexivity.
  - rewrite Pos.iter_succ_r, Pos.iter_succ. cbn. exact IH.
Qed.

Lemma digits_bound p : Zpos p < 2^24 -> Zpos (digits2_pos p) <= 24.
Proof.
  intros Hp.
  assert (Hs : forall q, digits2_pos q = Pos.size q)
    by (intros q; induction q as [q IH|q IH|]; cbn; rewrite ?IH; reflexivity).
  rewrite (Hs p). pose proof (Pos.size_le p) as Hle.
  apply Pos2Z.pos_le_pos in Hle. rewrite Pos2Z.inj_pow in Hle.
  change (Zpos p~0) with (2 * Zpos p) in Hle.
  destruct (Z.le_gt_cases (Zpos (Pos.size p)) 24) as [Hc|Hc]; [exact Hc|].
  assert (2^25 <= 2^(Zpos (Pos.size p))) by (apply Z.pow_le_mono_r; lia).
  lia.
Qed.

(** Rounding keeps a mantissa of 24 digits with an exponent in range. *)
Lemma round_exact m e :
  digits2_pos m = 24%positive -> -149 <= e <= 104 ->
  binary_round_aux 24 128 false (Zpos m) e loc_Exact = S754_finite false m e.
Proof.
  intros Hd He. unfold binary_round_aux, shr_fexp, fexp, emin.
  cbn [Zdigits2 shr_record_of_loc]. rewrite Hd.
  replace (Z.max (24 + e - 24) (3 - 128 - 24) - e) with 0 by lia.
  cbn [shr shr_m loc_of_shr_record round_nearest_even Zdigits2].
  rewrite Hd.
  replace (Z.max (24 + e - 24) (3 - 128 - 24) - e) with 0 by lia.
  cbn [shr shr_m shr_record_of_loc].
  destruct (Z.leb_spec e (128 - 24)); [reflexivity|lia].
Qed.

Lemma digits_scaled p :
  Zpos (digits2_pos p) <= 24 -> digits2_pos (Binary32.scaled p) = 24%positive.
Proof.
  intros Hd. unfold Binary32.scaled, Pos.shiftl.
  destruct (Z.to_N _) as [|k] eqn:Hk.
  - lia.
  - rewrite digits_shiftl. lia.
Qed.

Lemma float_of_int_pos p :
  Zpos (digits2_pos p) <= 24 ->
  Binary32.of_int (Zpos p) =
    S754_finite false (Binary32.scaled p) (Zpos (digits2_pos p) - 24).
Proof.
  intros Hd. unfold Binary32.of_int, binary_normalize, binary_round.
  pose proof (digits_scaled p Hd) as Hs.
  assert (Hf : fexp 24 128 (Zpos (digits2_pos p) + 0) =
               Zpos (digits2_pos p) - 24)
    by (unfold fexp, emin; lia).
  rewrite Hf. unfold shl_align.
  unfold Binary32.scaled, Pos.shiftl in *.
  destruct (Z.to_N (24 - Zpos (digits2_pos p))) as [|k] eqn:Hk.
  - replace (Zpos (digits2_pos p) - 24 - 0) with 0 by lia.
    replace (Zpos (digits2_pos p) - 24) with 0 by lia.
    apply round_exact; [exact Hs|lia].
  - replace (Zpos (digits2_pos p) - 24 - 0) with (Zneg k) by lia.
    apply round_exact; [exact Hs|lia].
Qed.

(** The same integer given with 23 more binary places. *)
Lemma round_shifted p :
  Zpos (digits2_pos p) <= 24 ->
  binary_round 24 128 false (Pos.iter xO p 23) (-23) =
    S754_finite false (Binary32.scaled p) (Zpos (digits2_pos p) - 24).
Proof.
  intros Hd. unfold binary_round.
  pose proof (digits_scaled p Hd) as Hs.
  rewrite digits_shiftl.
  assert (Hf : fexp 24 128 (Zpos (digits2_pos p + 23) + -23) =
               Zpos (digits2_pos p) - 24)
    by (unfold fexp, emin; lia).
  rewrite Hf. unfold shl_align.
  destruct (Zpos (digits2_pos p) - 24 - -23) as [|k|k] eqn:Hk; [| |lia].
  - (* one digit *)
    assert (Hone : digits2_pos p = 1%positive) by lia.
    assert (Hsc : Binary32.scaled p = Pos.iter xO p 23)
      by (unfold Binary32.scaled; rewrite Hone; reflexivity).
    rewrite Hsc in *. rewrite Hone.
    apply (round_exact _ (-23)); [exact Hs|lia].
  - unfold binary_round_aux, shr_fexp. cbn [Zdigits2 shr_record_of_loc].
    rewrite digits_shiftl, Hf.
    replace (Zpos (digits2_pos p) - 24 - -23) with (Zpos k) by lia.
    cbn [shr].
    assert (Hsplit : Pos.iter xO p 23 = Pos.iter xO (Binary32.scaled p) k).
    { unfold Binary32.scaled, Pos.shiftl.
      destruct (Z.to_N (24 - Zpos (digits2_pos p))) as [|j] eqn:Hj.
      - f_equal. lia.
      - rewrite <- Pos.iter_add. f_equal. lia. }
    rewrite Hsplit, shr_shiftl.
    cbn [shr_m loc_of_shr_record round_nearest_even Zdigits2 shr_record_of_loc].
    rewrite Hs. unfold fexp, emin.
    replace (Z.max (24 + (-23 + Zpos k) - 24) (3 - 128 - 24) -
             (-23 + Zpos k)) with 0 by lia.
    cbn [shr shr_m].
    destruct (Z.leb_spec (-23 + Zpos k) (128 - 24)); [|lia].
    f_equal. lia.
Qed.

Lemma add_one n :
  1 <= n < 2^24 ->
  SFadd 24 128 (Binary32.of_int (n - 1)) (Binary32.of_int 1) =
    Binary32.of_int n.
Proof.
  intros Hn. destruct (Z.eq_dec n 1) as [->|Hne]; [reflexivity|].
  destruct n as [|p|p]; try lia.
  destruct (Zpos p - 1) as [|q|q] eqn:Hq; try lia.
  assert (Hdq : Zpos (digits2_pos q) <= 24) by (apply digits_bound; lia).
  assert (Hdp : Zpos (digits2_pos p) <= 24) by (apply digits_bound; lia).
  rewrite (float_of_int_pos q Hdq), (float_of_int_pos p Hdp).
  change (Binary32.of_int 1) with (S754_finite false 8388608 (-23)).
  cbn [SFadd cond_Zopp].
  replace (Z.min (Zpos (digits2_pos q) - 24) (-23)) with (-23) by lia.
  rewrite <- round_shifted by exact Hdp.
  unfold binary_normalize.
  assert (Hsum : Zpos (fst (shl_align (Binary32.scaled q)
                             (Zpos (digits2_pos q) - 24) (-23))) +
                 Zpos (fst (shl_align 8388608 (-23) (-23))) =
                 Zpos (Pos.iter xO p 23)).
  { assert (Hq23 : fst (shl_align (Binary32.scaled q)
                          (Zpos (digits2_pos q) - 24) (-23))
                   = Pos.iter xO q 23).
    { unfold shl_align, Binary32.scaled, Pos.shiftl.
      destruct (Z.to_N (24 - Zpos (digits2_pos q))) as [|j] eqn:Hj;
        destruct (-23 - (Zpos (digits2_pos q) - 24)) as [|k|k] eqn:Hk;
        cbn [fst]; try lia; rewrite <- ?Pos.iter_add; f_equal; lia. }
    rewrite Hq23.
    change (fst (shl_align 8388608 (-23) (-23))) with 8388608%positive.
    assert (Hsh : forall r, Zpos (Pos.iter xO r 23) = Zpos r * 2^23).
    { intros r. cbn. lia. }
    rewrite !Hsh. lia. }
  rewrite Hsum. reflexivity.
Qed.

Lemma div_self m e :
  -149 <= e <= 104 ->
  SFdiv 24 128 (S754_finite false m e) (S754_finite false m e) =
    S754_finite false 8388608 (-23).
Proof.
  intros He. cbn [SFdiv xorb]. unfold SFdiv_core_binary.
  cbn [Zdigits2].
  replace (Zpos (digits2_pos m) + e - (Zpos (digits2_pos m) + e)) with 0
    by lia.
  replace (e - e) with 0 by lia.
  change (Z.min (fexp 24 128 0) 0) with (-24).
  change (0 - -24) with 24.
  cbv iota.
  assert (Hdiv : Z.div_eucl (Z.shiftl (Zpos m) 24) (Zpos m) = (2^24, 0)).
  { rewrite Z.shiftl_mul_pow2 by lia.
    pose proof (Z.div_mul (2^24) (Zpos m) ltac:(lia)) as Hq.
    pose proof (Z.mod_mul (2^24) (Zpos m) ltac:(lia)) as Hr.
    unfold Z.div in Hq. unfold Z.modulo in Hr.
    rewrite (Z.mul_comm (Zpos m)).
    destruct (Z.div_eucl (2^24 * Zpos m) (Zpos m)) as [q r].
    rewrite Hq, Hr. reflexivity. }
  rewrite Hdiv.
  assert (Hloc : new_location (Zpos m) 0 = loc_Exact).
  { unfold new_location, new_location_even, new_location_odd.
    destruct (Z.even _); reflexivity. }
  rewrite Hloc. reflexivity.
Qed.

(** Up to 2^24 probes the last report of a completed bake is 1.0: the
    probe count is converted and incremented without rounding. *)
Lemma reportedValue_one n :
  1 <= n <= 2^24 -> reportedValue (n, n) = Binary32.one.
Proof.
  intros Hn. unfold reportedValue, Binary32.div, Binary32.add, Binary32.one.
  cbn [fst snd].
  destruct (Z.eq_dec n (2^24)) as [->|Hne]; [vm_compute; reflexivity|].
  rewrite add_one by lia.
  destruct n as [|p|p]; try lia.
  rewrite float_of_int_pos by (apply digits_bound; lia).
  apply div_self.
  pose proof (digits_bound p ltac:(lia)). lia.
Qed.

Lemma digits_is p k :
  2^(Zpos k - 1) <= Zpos p < 2^(Zpos k) -> digits2_pos p = k.
Proof.
  intros [Hlo Hhi].
  assert (Hs : forall q, digits2_pos q = Pos.size q)
    by (intros q; induction q as [q IH|q IH|]; cbn; rewrite ?IH; reflexivity).
  rewrite Hs.
  pose proof (Pos.size_le p) as Hle. pose proof (Pos.size_gt p) as Hgt.
  apply Pos2Z.pos_le_pos in Hle. apply Pos2Z.pos_lt_pos in Hgt.
  rewrite Pos2Z.inj_pow in Hle, Hgt.
  change (Zpos p~0) with (2 * Zpos p) in Hle.
  assert (H1 : Zpos k - 1 < Zpos (Pos.size p)).
  { apply (Z.pow_lt_mono_r_iff 2); lia. }
  assert (H2 : Zpos (Pos.size p) < Zpos k + 1).
  { apply (Z.pow_lt_mono_r_iff 2); [lia|lia|].
    rewrite Z.pow_add_r by lia. lia. }
  lia.
Qed.

Lemma digits_range p :
  2^(Zpos (digits2_pos p) - 1) <= Zpos p < 2^(Zpos (digits2_pos p)).
Proof.
  assert (Hs : forall q, digits2_pos q = Pos.size q)
    by (intros q; induction q as [q IH|q IH|]; cbn; rewrite ?IH; reflexivity).
  rewrite Hs.
  pose proof (Pos.size_le p) as Hle. pose proof (Pos.size_gt p) as Hgt.
  apply Pos2Z.pos_le_pos in Hle. apply Pos2Z.pos_lt_pos in Hgt.
  rewrite Pos2Z.inj_pow in Hle, Hgt.
  change (Zpos p~0) with (2 * Zpos p) in Hle.
  split; [|exact Hgt].
  replace (Zpos (Pos.size p)) with (Zpos (Pos.size p) - 1 + 1) in Hle by lia.
  rewrite Z.pow_add_r in Hle by lia. lia.
Qed.

(** Where the remainder of a division lies. *)
Lemma new_location_spec b r :
  0 < b -> 0 <= r < b ->
  (new_location b r = loc_Exact /\ r = 0) \/
  (new_location b r = loc_Inexact Lt /\ 0 < 2 * r < b) \/
  (new_location b r = loc_Inexact Eq /\ 2 * r = b) \/
  (new_location b r = loc_Inexact Gt /\ b < 2 * r).
Proof.
  intros Hb Hr. unfold new_location.
  destruct (Z.even b) eqn:He;
    unfold new_location_even, new_location_odd;
    (destruct (Z.eqb_spec r 0) as [->|Hr0]; [left; auto|right]).
  - destruct (Z.compare_spec (2 * r) b); [right; left|left|right; right];
      (split; [reflexivity|lia]).
  - assert (Hodd : Z.odd b = true) by (rewrite <- Z.negb_even, He; reflexivity).
    apply Z.odd_spec in Hodd. destruct Hodd as [c Hc].
    destruct (Z.compare_spec (2 * r + 1) b); [left|left|right; right];
      (split; [reflexivity|lia]).
Qed.

(** The last step of rounding: a mantissa that reached 2^24 is halved. *)
Lemma round_finish m e :
  2^23 <= Zpos m <= 2^24 -> -149 <= e <= 103 ->
  exists M j,
    (let '(mrs, e') := shr_fexp 24 128 (Zpos m) e loc_Exact in
     match shr_m mrs with
     | Z0 => S754_zero false
     | Zpos m' =>
         if e' <=? 128 - 24 then S754_finite false m' e'
         else S754_infinity false
     | Zneg _ => S754_nan
     end) = S754_finite false M (e + j) /\
    0 <= j <= 1 /\ 2^23 <= Zpos M < 2^24 /\ Zpos M * 2^j = Zpos m.
Proof.
  intros Hm He. unfold shr_fexp, fexp, emin. cbn [Zdigits2 shr_record_of_loc].
  destruct (Z.eq_dec (Zpos m) (2^24)) as [Heq|Hne].
  - assert (Hm24 : m = 16777216%positive) by lia. subst m.
    change (digits2_pos 16777216) with 25%positive.
    replace (Z.max (25 + e - 24) (3 - 128 - 24) - e) with 1 by lia.
    cbn [shr iter_pos shr_1 shr_m].
    destruct (Z.leb_spec (e + 1) (128 - 24)); [|lia].
    exists 8388608%positive, 1. repeat split; lia.
  - rewrite (digits_is m 24) by lia.
    replace (Z.max (24 + e - 24) (3 - 128 - 24) - e) with 0 by lia.
    cbn [shr shr_m].
    destruct (Z.leb_spec e (128 - 24)); [|lia].
    exists m, 0. rewrite Z.add_0_r. repeat split; lia.
Qed.

Lemma round_aux_24 qp e loc :
  digits2_pos qp = 24%positive -> -149 <= e ->
  binary_round_aux 24 128 false (Zpos qp) e loc =
    (let '(mrs, e') :=
       shr_fexp 24 128 (round_nearest_even (Zpos qp) loc) e loc_Exact in
     match shr_m mrs with
     | Z0 => S754_zero false
     | Zpos m' =>
         if e' <=? 128 - 24 then S754_finite false m' e'
         else S754_infinity false
     | Zneg _ => S754_nan
     end).
Proof.
  intros Hd He. unfold binary_round_aux.
  unfold shr_fexp at 1. unfold fexp, emin. cbn [Zdigits2]. rewrite Hd.
  replace (Z.max (24 + e - 24) (3 - 128 - 24) - e) with 0 by lia.
  cbn [shr]. destruct loc as [|[| |]]; reflexivity.
Qed.

Lemma round_aux_25 qp e loc :
  digits2_pos qp = 25%positive -> -149 <= e ->
  binary_round_aux 24 128 false (Zpos qp) e loc =
    (let mrs1 := shr_1 (shr_record_of_loc (Zpos qp) loc) in
     let '(mrs, e') :=
       shr_fexp 24 128
         (round_nearest_even (shr_m mrs1) (loc_of_shr_record mrs1))
         (e + 1) loc_Exact in
     match shr_m mrs with
     | Z0 => S754_zero false
     | Zpos m' =>
         if e' <=? 128 - 24 then S754_finite false m' e'
         else S754_infinity false
     | Zneg _ => S754_nan
     end).
Proof.
  intros Hd He. unfold binary_round_aux.
  unfold shr_fexp at 1. unfold fexp, emin. cbn [Zdigits2]. rewrite Hd.
  replace (Z.max (25 + e - 24) (3 - 128 - 24) - e) with 1 by lia.
  cbn [shr iter_pos]. reflexivity.
Qed.

Lemma new_location_located b r :
  0 < b -> 0 <= r < b -> Binary32.located (new_location b r) r b.
Proof.
  intros Hb Hr.
  destruct (new_location_spec b r Hb Hr)
    as [[-> Hl]|[[-> Hl]|[[-> Hl]|[-> Hl]]]]; exact Hl.
Qed.

Lemma round_loc q r b e loc :
  Binary32.located loc r b ->
  0 < b -> 0 <= r < b -> 2^23 <= q < 2^25 -> -149 <= e <= 102 ->
  exists M j,
    binary_round_aux 24 128 false q e loc = S754_finite false M (e + j) /\
    0 <= j <= 2 /\ (q < 2^24 -> j <= 1) /\ 2^23 <= Zpos M < 2^24 /\
    (2 * Zpos M - 1) * (2^j * b) <= 2 * (q * b + r) /\
    2 * (q * b + r) <= (2 * Zpos M + 1) * (2^j * b) /\
    (Zpos M = 2^23 -> (4 * Zpos M - 1) * (2^j * b) <= 4 * (q * b + r)).
Proof.
  intros Hl Hb Hr Hq He. destruct q as [|qp|qp]; try lia.
  assert (Hfin : forall m1 e1 k,
    -149 <= e1 <= 103 -> e1 = e + k -> 0 <= k <= 1 ->
    (Zpos qp < 2^24 -> k = 0) ->
    2^23 <= m1 <= 2^24 ->
    (2 * m1 - 1) * (2^k * b) <= 2 * (Zpos qp * b + r) ->
    2 * (Zpos qp * b + r) <= (2 * m1 + 1) * (2^k * b) ->
    (m1 = 2^23 -> (4 * m1 - 1) * (2^k * b) <= 4 * (Zpos qp * b + r)) ->
    exists M j,
      (let '(mrs, e') := shr_fexp 24 128 m1 e1 loc_Exact in
       match shr_m mrs with
       | Z0 => S754_zero false
       | Zpos m' =>
           if e' <=? 128 - 24 then S754_finite false m' e'
           else S754_infinity false
       | Zneg _ => S754_nan
       end) = S754_finite false M (e + j) /\
      0 <= j <= 2 /\ (Zpos qp < 2^24 -> j <= 1) /\
      2^23 <= Zpos M < 2^24 /\
      (2 * Zpos M - 1) * (2^j * b) <= 2 * (Zpos qp * b + r) /\
      2 * (Zpos qp * b + r) <= (2 * Zpos M + 1) * (2^j * b) /\
      (Zpos M = 2^23 -> (4 * Zpos M - 1) * (2^j * b) <= 4 * (Zpos qp * b + r))).
  { intros m1 e1 k He1 -> Hk Hk0 Hm1 Hlo Hhi Htight.
    destruct m1 as [|mp|mp]; try lia.
    destruct (round_finish mp (e + k) Hm1 He1) as (M & j & -> & Hj & HM & Hmul).
    exists M, (k + j). rewrite Z.add_assoc. split; [reflexivity|].
    split; [lia|]. split; [lia|]. split; [exact HM|].
    assert (Hpow : 2^(k + j) = 2^k * 2^j) by (apply Z.pow_add_r; lia).
    rewrite Hpow.
    assert (Hj' : j = 0 \/ j = 1) by lia.
    assert (Hkb : 0 < 2^k * b)
      by (apply Z.mul_pos_pos; [apply Z.pow_pos_nonneg|]; lia).
    destruct Hj' as [-> | ->].
    - change (2^0) with 1 in *. rewrite Z.mul_1_r in *.
      replace (Zpos mp) with (Zpos M) in * by lia. auto.
    - change (2^1) with 2 in *.
      assert (Hmp : Zpos mp = 2^24) by lia.
      assert (HMv : Zpos M = 2^23) by lia.
      rewrite Hmp in Hlo, Hhi. rewrite HMv.
      replace (2^k * 2 * b) with (2 * (2^k * b)) by ring.
      split; [nia|split; [nia|intros _; nia]]. }
  destruct (Z.lt_ge_cases (Zpos qp) (2^24)) as [Hlt|Hge].
  - (* a quotient of 24 digits *)
    rewrite round_aux_24 by (try apply digits_is; lia).
    destruct loc as [|[| |]]; cbn [Binary32.located] in Hl;
      cbn [round_nearest_even];
      try destruct (Z.even (Zpos qp)); apply (Hfin _ e 0); lia.
  - (* a quotient of 25 digits *)
    rewrite round_aux_25 by (try apply digits_is; lia).
    destruct loc as [|[| |]]; cbn [Binary32.located] in Hl;
      destruct qp as [h|h|]; try lia;
      cbn [shr_record_of_loc shr_1 orb shr_m loc_of_shr_record
           round_nearest_even];
      rewrite ?(Pos2Z.inj_xI h), ?(Pos2Z.inj_xO h) in *;
      try destruct (Z.even (Zpos h)) eqn:Hev;
      apply (Hfin _ (e + 1) 1); lia.
Qed.

(** Shifting a mantissa right keeps track of where the bits shifted out
    lie. *)
Lemma shr_1_located mrs q r b :
  0 <= shr_m mrs -> shr_m mrs = q -> 0 < b -> 0 <= r < b ->
  Binary32.located (loc_of_shr_record mrs) r b ->
  shr_m (shr_1 mrs) = q / 2 /\
  Binary32.located (loc_of_shr_record (shr_1 mrs)) (q mod 2 * b + r) (2 * b).
Proof.
  intros H0 Hq Hb Hr Hl. destruct mrs as [m rb sb]. cbn [shr_m] in *. subst q.
  destruct m as [|[h|h|]|]; try lia;
    destruct rb, sb; cbn [loc_of_shr_record Binary32.located] in Hl;
    cbn [shr_1 shr_m orb loc_of_shr_record Binary32.located];
    rewrite ?(Pos2Z.inj_xI h), ?(Pos2Z.inj_xO h);
    try replace ((2 * Zpos h + 1) mod 2) with 1
      by (Z.div_mod_to_equations; lia);
    try replace ((2 * Zpos h + 1) / 2) with (Zpos h)
      by (Z.div_mod_to_equations; lia);
    try replace ((2 * Zpos h) mod 2) with 0
      by (Z.div_mod_to_equations; lia);
    try replace ((2 * Zpos h) / 2) with (Zpos h)
      by (Z.div_mod_to_equations; lia);
    change (0 mod 2) with 0; change (1 mod 2) with 1;
    change (0 / 2) with 0; change (1 / 2) with 0;
    (split; [reflexivity|lia]).
Qed.

Lemma shr_iter_located k m :
  0 <= m ->
  let mrs :=
    Pos.iter shr_1 {| shr_m := m; shr_r := false; shr_s := false |} k in
  shr_m mrs = m / 2^(Zpos k) /\
  Binary32.located (loc_of_shr_record mrs) (m mod 2^(Zpos k)) (2^(Zpos k)).
Proof.
  intros Hm. cbn zeta. induction k as [|k IH] using Pos.peano_ind.
  - cbn [Pos.iter].
    destruct (shr_1_located {| shr_m := m; shr_r := false; shr_s := false |}
                m 0 1) as [H1 H2]; try (cbn; lia).
    split; [exact H1|].
    replace (m mod 2 * 1 + 0) with (m mod 2^1) in H2
      by (change (2^1) with 2; lia).
    exact H2.
  - rewrite Pos.iter_succ. destruct IH as [IH1 IH2].
    assert (Hp : 0 < 2^(Zpos k)) by (apply Z.pow_pos_nonneg; lia).
    destruct (shr_1_located
                (Pos.iter shr_1
                   {| shr_m := m; shr_r := false; shr_s := false |} k)
                (m / 2^(Zpos k)) (m mod 2^(Zpos k)) (2^(Zpos k)))
      as [H1 H2].
    + rewrite IH1. apply Z.div_pos; lia.
    + exact IH1.
    + exact Hp.
    + apply Z.mod_pos_bound. exact Hp.
    + exact IH2.
    + rewrite Pos2Z.inj_succ, Z.pow_succ_r by lia.
      rewrite (Z.mul_comm 2). split.
      * rewrite H1. apply Z.div_div; lia.
      * rewrite Z.rem_mul_r by lia.
        replace (m mod 2^(Zpos k) + 2^(Zpos k) * ((m / 2^(Zpos k)) mod 2))
          with ((m / 2^(Zpos k)) mod 2 * 2^(Zpos k) + m mod 2^(Zpos k))
          by ring.
        rewrite (Z.mul_comm _ 2). exact H2.
Qed.

(** Rounding an integer mantissa of at least 24 digits. *)
Lemma round_int x e :
  2^23 <= Zpos x -> -149 <= e ->
  e + (Zpos (digits2_pos x) - 24) <= 102 ->
  exists M p,
    binary_round_aux 24 128 false (Zpos x) e loc_Exact =
      S754_finite false M (e + p) /\
    Zpos (digits2_pos x) - 24 <= p <= Zpos (digits2_pos x) - 23 /\
    2^23 <= Zpos M < 2^24 /\
    (2 * Zpos M - 1) * 2^p <= 2 * Zpos x /\
    2 * Zpos x <= (2 * Zpos M + 1) * 2^p /\
    (Zpos M = 2^23 -> (4 * Zpos M - 1) * 2^p <= 4 * Zpos x).
Proof.
  intros Hx He Hd. pose proof (digits_range x) as Hr.
  set (d := Zpos (digits2_pos x)) in *.
  assert (Hd24 : 24 <= d).
  { destruct (Z.lt_ge_cases d 24) as [Hlt|]; [exfalso|assumption].
    assert (2^d <= 2^23) by (apply Z.pow_le_mono_r; lia). lia. }
  destruct (Z.eq_dec d 24) as [Heq|Hne].
  - rewrite Heq in Hr.
    destruct (round_loc (Zpos x) 0 1 e loc_Exact)
      as (M & j & Hres & Hj & Hj1 & HM & Hlo & Hhi & Ht);
      try (cbn; lia).
    exists M, j. rewrite Hres. split; [reflexivity|].
    rewrite !Z.mul_1_r, Z.add_0_r in *.
    repeat split; try lia; auto.
  - set (k := Z.to_pos (d - 24)).
    assert (Hk : Zpos k = d - 24) by (subst k; rewrite Z2Pos.id; lia).
    assert (Hp : 0 < 2^(Zpos k)) by (apply Z.pow_pos_nonneg; lia).
    destruct (shr_iter_located k (Zpos x) ltac:(lia)) as [Hm Hl].
    assert (Hsplit : 2^d = 2^24 * 2^(Zpos k))
      by (rewrite <- Z.pow_add_r by lia; f_equal; lia).
    assert (Hsplit' : 2^(d - 1) = 2^23 * 2^(Zpos k))
      by (rewrite <- Z.pow_add_r by lia; f_equal; lia).
    assert (Hq : 2^23 <= Zpos x / 2^(Zpos k) < 2^24).
    { split.
      - apply Z.div_le_lower_bound; lia.
      - apply Z.div_lt_upper_bound; lia. }
    pose proof (Z.div_mod (Zpos x) (2^(Zpos k)) ltac:(lia)) as Hdm.
    pose proof (Z.mod_pos_bound (Zpos x) (2^(Zpos k)) Hp) as Hrb.
    destruct (Zpos x / 2^(Zpos k)) as [|qp|qp] eqn:Hqp; try lia.
    destruct (round_loc (Zpos qp) (Zpos x mod 2^(Zpos k)) (2^(Zpos k))
                (e + Zpos k) _ Hl)
      as (M & j & Hres & Hj & Hj1 & HM & Hlo & Hhi & Ht); try lia.
    exists M, (Zpos k + j).
    split.
    + rewrite Z.add_assoc, <- Hres.
      rewrite (round_aux_24 qp) by (try apply digits_is; lia).
      unfold binary_round_aux. unfold shr_fexp at 1. unfold fexp, emin.
      cbn [Zdigits2 shr_record_of_loc]. fold d.
      replace (Z.max (d + e - 24) (3 - 128 - 24) - e) with (Zpos k) by lia.
      cbn [shr]. rewrite iter_pos_iter.
      destruct (Pos.iter shr_1 _ k) as [mq rb sb]. cbn [shr_m] in Hm.
      rewrite Hm. reflexivity.
    + replace (Zpos qp * 2^(Zpos k) + Zpos x mod 2^(Zpos k)) with (Zpos x)
        in * by lia.
      rewrite (Z.pow_add_r 2 (Zpos k) j) by lia.
      rewrite (Z.mul_comm (2^(Zpos k))).
      repeat split; try lia; auto.
Qed.

Lemma shiftl_value p k : Zpos (Pos.iter xO p k) = Zpos p * 2^(Zpos k).
Proof.
  induction k as [|k IH] using Pos.peano_ind.
  - cbn. lia.
  - rewrite Pos.iter_succ, Pos2Z.inj_xO, IH, Pos2Z.inj_succ, Z.pow_succ_r
      by lia.
    ring.
Qed.

(** An integer of at most 2^24 is a float as it is. *)
Lemma of_int_canonical n :
  1 <= n <= 2^24 ->
  exists a e,
    Binary32.of_int n = S754_finite false a e /\
    2^23 <= Zpos a < 2^24 /\ -23 <= e <= 1 /\
    Zpos a * 2^(e + 23) = n * 2^23.
Proof.
  intros Hn. destruct (Z.eq_dec n (2^24)) as [->|Hne].
  { exists 8388608%positive, 1. repeat split; try reflexivity; lia. }
  destruct n as [|p|p]; try lia.
  pose proof (digits_bound p ltac:(lia)) as Hd.
  pose proof (digits_range p) as Hr.
  rewrite (float_of_int_pos p Hd).
  exists (Binary32.scaled p), (Zpos (digits2_pos p) - 24).
  split; [reflexivity|].
  pose proof (digits_range (Binary32.scaled p)) as Hs.
  rewrite (digits_scaled p Hd) in Hs.
  split; [exact Hs|]. split; [lia|].
  unfold Binary32.scaled, Pos.shiftl.
  destruct (Z.to_N (24 - Zpos (digits2_pos p))) as [|k] eqn:Hk.
  - replace (Zpos (digits2_pos p) - 24 + 23) with 23 by lia. reflexivity.
  - rewrite shiftl_value, <- Z.mul_assoc, <- Z.pow_add_r by lia.
    f_equal. f_equal. lia.
Qed.

Lemma below_of_bounds W M1 p1 M2 p2 X1 X2 :
  0 < W -> 0 <= p1 -> 0 <= p2 ->
  2^23 <= Zpos M1 < 2^24 -> 2^23 <= Zpos M2 < 2^24 ->
  (2 * Zpos M1 - 1) * (2^p1 * W) <= 2 * X1 ->
  (Zpos M1 = 2^23 -> (4 * Zpos M1 - 1) * (2^p1 * W) <= 4 * X1) ->
  2 * X2 <= (2 * Zpos M2 + 1) * (2^p2 * W) ->
  X1 < X2 ->
  Binary32.below M1 p1 M2 p2.
Proof.
  intros HW Hp1 Hp2 HM1 HM2 Hlo1 Ht1 Hhi2 Hx. unfold Binary32.below.
  assert (HW2 : 0 < 2^p2 * W)
    by (apply Z.mul_pos_pos; [apply Z.pow_pos_nonneg|]; lia).
  destruct (Z.lt_trichotomy p1 p2) as [Hl|[Heq|Hg]]; [left; exact Hl| |].
  - right. split; [exact Heq|]. subst p1.
    destruct (Z.le_gt_cases (Zpos M1) (Zpos M2)) as [|Hgt]; [assumption|].
    exfalso. nia.
  - exfalso.
    assert (Hp : 2^p1 = 2^(p1 - p2) * 2^p2)
      by (rewrite <- Z.pow_add_r by lia; f_equal; lia).
    assert (Hk : 2 <= 2^(p1 - p2))
      by (change 2 with (2^1) at 1; apply Z.pow_le_mono_r; lia).
    set (V := 2^p2 * W) in *.
    assert (HW1 : 2^p1 * W = 2^(p1 - p2) * V) by (subst V; rewrite Hp; ring).
    rewrite HW1 in Hlo1, Ht1.
    destruct (Z.eq_dec (Zpos M1) (2^23)) as [HM|HM].
    + specialize (Ht1 HM). rewrite HM in Ht1. nia.
    + assert (2^23 + 1 <= Zpos M1) by lia. nia.
Qed.

Lemma below_SFleb M1 p1 M2 p2 c :
  Binary32.below M1 p1 M2 p2 ->
  SFleb (S754_finite false M1 (p1 + c)) (S754_finite false M2 (p2 + c)) = true.
Proof.
  intros Hb. unfold SFleb, SFcompare.
  destruct (Z.compare_spec (p1 + c) (p2 + c)) as [Heq|Hl|Hg].
  - change (Pos.compare_cont Eq M1 M2) with (Pos.compare M1 M2).
    destruct (Pos.compare_spec M1 M2) as [?|?|Hgt]; try reflexivity.
    exfalso. apply Pos2Z.pos_lt_pos in Hgt. unfold Binary32.below in Hb. lia.
  - reflexivity.
  - exfalso. unfold Binary32.below in Hb. lia.
Qed.

Lemma below_refl M p : Binary32.below M p M p.
Proof. right. split; [reflexivity|lia]. Qed.

(** Two different floats in order have values in strict order. *)
Lemma below_value M1 p1 M2 p2 :
  0 <= p1 -> 2^23 <= Zpos M1 < 2^24 -> 2^23 <= Zpos M2 < 2^24 ->
  Binary32.below M1 p1 M2 p2 -> (M1, p1) <> (M2, p2) ->
  Zpos M1 * 2^p1 < Zpos M2 * 2^p2.
Proof.
  intros Hp1 HM1 HM2 [Hl|[-> Hle]] Hne.
  - assert (Hp : 2^p2 = 2^(p2 - p1) * 2^p1)
      by (rewrite <- Z.pow_add_r by lia; f_equal; lia).
    assert (Hk : 2 <= 2^(p2 - p1))
      by (change 2 with (2^1) at 1; apply Z.pow_le_mono_r; lia).
    assert (0 < 2^p1) by (apply Z.pow_pos_nonneg; lia).
    rewrite Hp. nia.
  - assert (Zpos M1 <> Zpos M2) by congruence.
    assert (0 < 2^p2) by (apply Z.pow_pos_nonneg; lia). nia.
Qed.

(** The exponent of the float next to a value under 2^K. *)
Lemma nearest_exponent f M p X K :
  Binary32.nearest f M p X -> X < 2^K -> 23 <= K -> p <= K - 23.
Proof.
  intros (_ & Hp & HM & Hlo & _) HX HK.
  destruct (Z.le_gt_cases p (K - 23)) as [|Hgt]; [assumption|exfalso].
  assert (H1 : 2^(K - 22) <= 2^p) by (apply Z.pow_le_mono_r; lia).
  assert (H2 : 2^K = 2^22 * 2^(K - 22))
    by (rewrite <- Z.pow_add_r by lia; f_equal; lia).
  assert (0 < 2^(K - 22)) by (apply Z.pow_pos_nonneg; lia).
  nia.
Qed.

(** The conversion of an [int] rounds to the float next to it. *)
Lemma of_int_nearest m :
  1 <= m < 2^31 ->
  exists M p, Binary32.nearest (Binary32.of_int m) M p (m * 2^23) /\ p <= 31.
Proof.
  intros Hm.
  assert (Hexp : forall M p,
            Binary32.nearest (Binary32.of_int m) M p (m * 2^23) -> p <= 31).
  { intros M p Hn. apply (nearest_exponent _ _ _ _ 54 Hn); lia. }
  destruct (Z.le_gt_cases m (2^24)) as [Hle|Hgt].
  - destruct (of_int_canonical m ltac:(lia)) as (a & e & Hf & Ha & He & Hv).
    assert (Hnear : Binary32.nearest (Binary32.of_int m) a (e + 23) (m * 2^23)).
    { unfold Binary32.nearest. rewrite Hf.
      replace (e + 23 - 23) with e by lia.
      assert (0 < 2^(e + 23)) by (apply Z.pow_pos_nonneg; lia).
      repeat split; try lia; try nia. }
    exists a, (e + 23). split; [exact Hnear|apply (Hexp _ _ Hnear)].
  - destruct m as [|x|x]; try lia.
    pose proof (digits_range x) as Hr.
    set (d := Zpos (digits2_pos x)) in *.
    assert (Hd : 25 <= d <= 31).
    { split.
      - destruct (Z.lt_ge_cases d 25) as [Hlt|]; [exfalso|assumption].
        assert (2^d <= 2^24) by (apply Z.pow_le_mono_r; lia). lia.
      - destruct (Z.le_gt_cases d 31) as [|Hlt]; [assumption|exfalso].
        assert (2^31 <= 2^(d - 1)) by (apply Z.pow_le_mono_r; lia). lia. }
    destruct (round_int x 0) as (M & p & Hres & Hp & HM & Hlo & Hhi & Ht);
      try (fold d; lia).
    fold d in Hp.
    assert (Hnear : Binary32.nearest (Binary32.of_int (Zpos x)) M (p + 23)
                      (Zpos x * 2^23)).
    { unfold Binary32.nearest, Binary32.of_int, binary_normalize, binary_round.
      fold d.
      assert (Hf : fexp 24 128 (d + 0) = d - 24) by (unfold fexp, emin; lia).
      rewrite Hf. unfold shl_align.
      destruct (d - 24 - 0) as [|k|k] eqn:Hk; try lia.
      rewrite Hres. replace (p + 23 - 23) with (0 + p) by lia.
      rewrite Z.pow_add_r by lia.
      repeat split; try lia; try nia. }
    exists M, (p + 23). split; [exact Hnear|apply (Hexp _ _ Hnear)].
Qed.

(** Adding [1.0f] to a float of full mantissa rounds the exact sum. *)
Lemma add_nearest M p :
  2^23 <= Zpos M < 2^24 -> 0 <= p <= 31 ->
  exists M' p',
    Binary32.nearest
      (SFadd 24 128 (S754_finite false M (p - 23)) (Binary32.of_int 1))
      M' p' (Zpos M * 2^p + 2^23) /\ p' <= 33.
Proof.
  intros HM Hp.
  change (Binary32.of_int 1) with (S754_finite false 8388608 (-23)).
  cbn [SFadd cond_Zopp].
  replace (Z.min (p - 23) (-23)) with (-23) by lia.
  change (fst (shl_align 8388608 (-23) (-23))) with 8388608%positive.
  assert (Hal : Zpos (fst (shl_align M (p - 23) (-23))) = Zpos M * 2^p).
  { unfold shl_align.
    destruct (-23 - (p - 23)) as [|k|k] eqn:Hk; cbn [fst]; try lia.
    - replace p with 0 by lia. lia.
    - rewrite shiftl_value. f_equal. f_equal. lia. }
  assert (0 < 2^p) by (apply Z.pow_pos_nonneg; lia).
  destruct (Zpos (fst (shl_align M (p - 23) (-23))) + 8388608)
    as [|s|s] eqn:Hs; try lia.
  assert (HS : Zpos s = Zpos M * 2^p + 2^23) by lia.
  unfold binary_normalize, binary_round.
  pose proof (digits_range s) as Hr.
  set (d := Zpos (digits2_pos s)) in *.
  assert (Hsmall : Zpos s < 2^56).
  { assert (2^p <= 2^31) by (apply Z.pow_le_mono_r; lia).
    assert (Zpos M * 2^p <= 2^24 * 2^31) by nia. lia. }
  assert (Hd : 24 <= d <= 56).
  { split.
    - destruct (Z.lt_ge_cases d 24) as [Hlt|]; [exfalso|assumption].
      assert (2^d <= 2^23) by (apply Z.pow_le_mono_r; lia). nia.
    - destruct (Z.le_gt_cases d 56) as [|Hlt]; [assumption|exfalso].
      assert (2^56 <= 2^(d - 1)) by (apply Z.pow_le_mono_r; lia). lia. }
  assert (Hf : fexp 24 128 (d + -23) = d - 47) by (unfold fexp, emin; lia).
  rewrite Hf. unfold shl_align.
  destruct (d - 47 - -23) as [|k|k] eqn:Hk; try lia;
    (destruct (round_int s (-23))
       as (M' & p' & Hres & Hp' & HM' & Hlo & Hhi & Ht);
     [nia|lia|fold d; lia|];
     fold d in Hp'; exists M', p'; rewrite Hres, <- HS;
     split; [|lia]; unfold Binary32.nearest;
     replace (-23 + p') with (p' - 23) by lia;
     repeat split; try lia; auto).
Qed.

(** The quotient of two floats with full mantissas is the rounded exact
    quotient. *)
Lemma div_nearest a ea b eb :
  2^23 <= Zpos a < 2^24 -> 2^23 <= Zpos b < 2^24 ->
  -64 <= ea - eb <= 64 ->
  exists M j,
    SFdiv 24 128 (S754_finite false a ea) (S754_finite false b eb) =
      S754_finite false M (j + (ea - eb - 24)) /\
    0 <= j <= 2 /\ 2^23 <= Zpos M < 2^24 /\
    (2 * Zpos M - 1) * (2^j * Zpos b) <= 2 * (Zpos a * 2^24) /\
    2 * (Zpos a * 2^24) <= (2 * Zpos M + 1) * (2^j * Zpos b) /\
    (Zpos M = 2^23 ->
     (4 * Zpos M - 1) * (2^j * Zpos b) <= 4 * (Zpos a * 2^24)).
Proof.
  intros Ha Hb He. cbn [SFdiv xorb]. unfold SFdiv_core_binary.
  cbn [Zdigits2]. rewrite (digits_is a 24), (digits_is b 24) by lia.
  replace (24 + ea - (24 + eb)) with (ea - eb) by lia.
  assert (He' : Z.min (fexp 24 128 (ea - eb)) (ea - eb) = ea - eb - 24)
    by (unfold fexp, emin; lia).
  rewrite He'.
  replace (ea - eb - (ea - eb - 24)) with 24 by lia. cbv iota.
  rewrite Z.shiftl_mul_pow2 by lia.
  pose proof (Z.div_mod (Zpos a * 2^24) (Zpos b) ltac:(lia)) as Hdm.
  pose proof (Z.mod_pos_bound (Zpos a * 2^24) (Zpos b) ltac:(lia)) as Hr.
  assert (Hq : 2^23 <= Zpos a * 2^24 / Zpos b < 2^25).
  { split.
    - apply Z.div_le_lower_bound; lia.
    - apply Z.div_lt_upper_bound; lia. }
  unfold Z.div, Z.modulo in Hdm, Hr, Hq.
  destruct (Z.div_eucl (Zpos a * 2^24) (Zpos b)) as [q r].
  destruct (round_loc q r (Zpos b) (ea - eb - 24) _
              (new_location_located (Zpos b) r ltac:(lia) Hr))
    as (M & j & Hres & Hj & _ & Hrest); try lia.
  exists M, j. rewrite Hres, (Z.add_comm j). split; [reflexivity|].
  replace (q * Zpos b + r) with (Zpos a * 2^24) in Hrest by lia.
  split; [exact Hj|exact Hrest].
Qed.

(** Division by a fixed float is monotone in the numerator. *)
Lemma div_monotone a1 e1 a2 e2 b eb :
  2^23 <= Zpos a1 < 2^24 -> 2^23 <= Zpos a2 < 2^24 ->
  2^23 <= Zpos b < 2^24 ->
  -64 <= e1 - eb <= 64 -> -64 <= e2 - eb <= 64 ->
  Binary32.below a1 e1 a2 e2 ->
  SFleb (SFdiv 24 128 (S754_finite false a1 e1) (S754_finite false b eb))
        (SFdiv 24 128 (S754_finite false a2 e2) (S754_finite false b eb))
    = true.
Proof.
  intros Ha1 Ha2 Hb He1 He2 Hbel.
  destruct (div_nearest a1 e1 b eb Ha1 Hb He1)
    as (M1 & j1 & Hr1 & Hj1 & HM1 & Hlo1 & _ & Ht1).
  destruct (div_nearest a2 e2 b eb Ha2 Hb He2)
    as (M2 & j2 & Hr2 & Hj2 & HM2 & _ & Hhi2 & _).
  assert (Hsame : a1 = a2 /\ e1 = e2 \/
                  e1 <= e2 /\ Zpos a1 < Zpos a2 * 2^(e2 - e1)).
  { destruct Hbel as [Hl|[-> Hle]].
    - right. split; [lia|].
      assert (2^1 <= 2^(e2 - e1)) by (apply Z.pow_le_mono_r; lia).
      change (2^1) with 2 in *. nia.
    - destruct (Z.eq_dec (Zpos a1) (Zpos a2)) as [Heq|Hne].
      + left. split; [congruence|reflexivity].
      + right. rewrite Z.sub_diag. lia. }
  destruct Hsame as [[-> ->]|[Hle Hlt]].
  { rewrite Hr2. apply (below_SFleb M2 j2 M2 j2), below_refl. }
  rewrite Hr1, Hr2.
  set (d := e2 - e1) in *.
  replace (j2 + (e2 - eb - 24)) with (d + j2 + (e1 - eb - 24))
    by (subst d; lia).
  apply below_SFleb.
  assert (0 < 2^d) by (apply Z.pow_pos_nonneg; lia).
  apply (below_of_bounds (Zpos b) M1 j1 M2 (d + j2)
           (Zpos a1 * 2^24) (Zpos a2 * 2^d * 2^24)); try lia; auto.
  rewrite Z.pow_add_r by lia. nia.
Qed.

(** The numerator [i + 1.0f] of the reported value, for [n = i + 1]. *)
Lemma numerator_shape n :
  1 <= n < 2^31 ->
  exists M p,
    SFadd 24 128 (Binary32.of_int (n - 1)) (Binary32.of_int 1) =
      S754_finite false M (p - 23) /\
    2^23 <= Zpos M < 2^24 /\ 0 <= p <= 33.
Proof.
  intros Hn. destruct (Z.eq_dec n 1) as [->|Hne].
  { exists 8388608%positive, 0. repeat split; try reflexivity; lia. }
  destruct (of_int_nearest (n - 1) ltac:(lia))
    as (Ma & pa & (Hf & Hpa & HMa & _) & Hpa').
  rewrite Hf.
  destruct (add_nearest Ma pa HMa ltac:(lia))
    as (M & p & (Hg & Hp & HM & _) & Hp').
  exists M, p. rewrite Hg. repeat split; lia.
Qed.

Lemma numerator_monotone n1 n2 :
  1 <= n1 <= n2 -> n2 < 2^31 ->
  exists M1 p1 M2 p2,
    SFadd 24 128 (Binary32.of_int (n1 - 1)) (Binary32.of_int 1) =
      S754_finite false M1 (p1 - 23) /\
    SFadd 24 128 (Binary32.of_int (n2 - 1)) (Binary32.of_int 1) =
      S754_finite false M2 (p2 - 23) /\
    2^23 <= Zpos M1 < 2^24 /\ 2^23 <= Zpos M2 < 2^24 /\
    0 <= p1 <= 33 /\ 0 <= p2 <= 33 /\
    Binary32.below M1 p1 M2 p2.
Proof.
  intros Hn1 Hn2.
  destruct (Z.eq_dec n1 n2) as [->|Hne].
  { destruct (numerator_shape n2 ltac:(lia)) as (M & p & Hx & HM & Hp).
    exists M, p, M, p. repeat split; try assumption; try lia.
    apply below_refl. }
  destruct (Z.eq_dec n1 1) as [->|Hn1'].
  { destruct (numerator_shape n2 ltac:(lia)) as (M & p & Hx & HM & Hp).
    exists 8388608%positive, 0, M, p.
    repeat split; try assumption; try reflexivity; try lia.
    unfold Binary32.below. lia. }
  destruct (of_int_nearest (n1 - 1) ltac:(lia))
    as (Ma & pa & (Hfa & Hpa & HMa & Hloa & Hhia & Hta) & Hpa').
  destruct (of_int_nearest (n2 - 1) ltac:(lia))
    as (Mb & pb & (Hfb & Hpb & HMb & Hlob & Hhib & Htb) & Hpb').
  assert (Hbel : Binary32.below Ma pa Mb pb).
  { apply (below_of_bounds 1 Ma pa Mb pb ((n1 - 1) * 2^23) ((n2 - 1) * 2^23));
      rewrite ?Z.mul_1_r; try lia; auto. }
  rewrite Hfa, Hfb.
  destruct (add_nearest Ma pa HMa ltac:(lia))
    as (M1 & p1 & (Hg1 & Hp1 & HM1 & Hlo1 & Hhi1 & Ht1) & Hp1').
  destruct (add_nearest Mb pb HMb ltac:(lia))
    as (M2 & p2 & (Hg2 & Hp2 & HM2 & Hlo2 & Hhi2 & Ht2) & Hp2').
  exists M1, p1, M2, p2. rewrite Hg2.
  split; [exact Hg1|]. split; [reflexivity|].
  repeat (split; [lia|]).
  destruct (Z.eq_dec (Zpos Ma) (Zpos Mb)) as [HMe|HMne];
    [destruct (Z.eq_dec pa pb) as [Hpe|Hpne]|].
  - (* the two conversions agree *)
    assert (Ma = Mb) by congruence. subst Mb pb.
    rewrite Hg1 in Hg2. injection Hg2 as -> Hp12.
    replace p2 with p1 by lia. apply below_refl.
  - apply (below_of_bounds 1 M1 p1 M2 p2 (Zpos Ma * 2^pa + 2^23)
             (Zpos Mb * 2^pb + 2^23));
      rewrite ?Z.mul_1_r; try lia; auto.
    assert (Zpos Ma * 2^pa < Zpos Mb * 2^pb)
      by (apply below_value; try lia; auto; congruence).
    lia.
  - apply (below_of_bounds 1 M1 p1 M2 p2 (Zpos Ma * 2^pa + 2^23)
             (Zpos Mb * 2^pb + 2^23));
      rewrite ?Z.mul_1_r; try lia; auto.
    assert (Zpos Ma * 2^pa < Zpos Mb * 2^pb)
      by (apply below_value; try lia; auto; congruence).
    lia.
Qed.

(** The value reported does not decrease with the number of probes
    processed. *)
Lemma reportedValue_monotone n1 n2 N :
  1 <= n1 <= n2 -> n2 < 2^31 -> 1 <= N < 2^31 ->
  Binary32.leb (reportedValue (n1, N)) (reportedValue (n2, N)) = true.
Proof.
  intros Hn1 Hn2 HN.
  unfold reportedValue, Binary32.leb, Binary32.div, Binary32.add,
    Binary32.one.
  cbn [fst snd].
  destruct (numerator_monotone n1 n2 Hn1 Hn2)
    as (M1 & p1 & M2 & p2 & -> & -> & HM1 & HM2 & Hp1 & Hp2 & Hbel).
  destruct (of_int_nearest N HN) as (b & pb & (-> & Hpb & Hb & _) & Hpb').
  apply div_monotone; try lia.
  unfold Binary32.below in *. lia.
Qed.

End SinglePrecision.


(** * Proofs *)

Section Proofs.
Context `{Collaborators}.

(** ** The monad *)

Lemma bind_eq {A B} (m : M A) (k : A -> M B) (s : Frame) :
  bind m k s = match m s with
               | Done a s' => k a s'
               | Crash f s' => Crash f s'
               end.
Proof. reflexivity. Qed.

Lemma always_ret R `{!Reflexive R} {A} (x : A) : always R (ret x).
Proof. intros s. apply reflexivity. Qed.

Lemma always_fail R `{!Reflexive R} {A} (f : Fault) : always R (@fail _ A f).
Proof. intros s. apply reflexivity. Qed.

Lemma always_get R `{!Reflexive R} : always R get.
Proof. intros s. apply reflexivity. Qed.

Lemma always_bind R `{!Transitive R} {A B} (m : M A) (k : A -> M B) :
  always R m -> (forall x, always R (k x)) -> always R (bind m k).
Proof.
  intros Hm Hk s. rewrite bind_eq. specialize (Hm s).
  destruct (m s) as [x s'|f s']; cbn in *; [|exact Hm].
  etransitivity; [exact Hm|apply Hk].
Qed.

Lemma always_forEach R `{!Reflexive R} `{!Transitive R}
    (js : list nat) (body : nat -> M unit) :
  (forall j, In j js -> always R (body j)) -> always R (forEach js body).
Proof.
  induction js as [|j js IH]; intros Hb; cbn [forEach].
  - apply always_ret; assumption.
  - apply always_bind; [assumption|apply Hb; left; reflexivity|].
    intros _. apply IH. intros j' Hj'. apply Hb. right. exact Hj'.
Qed.

(** ** The log of calls *)

Lemma replay_app (evs1 evs2 : list Event) (d : BakedReflectionsData) :
  replay (evs1 ++ evs2) d = replay evs2 (replay evs1 d).
Proof. unfold replay. apply foldl_app. Qed.

#[local] Instance logged_refl : Reflexive logged.
Proof.
  intros s. split; [|reflexivity].
  exists []. rewrite app_nil_r. split; reflexivity.
Qed.

#[local] Instance logged_trans : Transitive logged.
Proof.
  intros s1 s2 s3 [(e1 & Ht1 & Hd1) Hp1] [(e2 & Ht2 & Hd2) Hp2].
  split; [|congruence]. exists (e1 ++ e2).
  rewrite Ht2, Ht1, Hd2, Hd1, replay_app, app_assoc. split; reflexivity.
Qed.

Lemma logged_silent (s s' : Frame) :
  f_trace s' = f_trace s -> reflectionsData s' = reflectionsData s ->
  f_sBakeInProgress s' = f_sBakeInProgress s ->
  logged s s'.
Proof.
  intros Ht Hd Hp. split; [|exact Hp].
  exists []. rewrite app_nil_r. split; assumption.
Qed.

Lemma logged_emit (e : Event) : always logged (emit e).
Proof. intros s. split; [|reflexivity]. exists [e]. split; reflexivity. Qed.

Lemma logged_derefEnergyField (j : nat) : always logged (derefEnergyField j).
Proof.
  intros s. unfold derefEnergyField.
  destruct (energyFields s !! j) as [[f|]|]; apply reflexivity.
Qed.

Lemma logged_readIndex (j : nat) : always logged (readIndex j).
Proof.
  intros s. unfold readIndex.
  destruct (indices s !! j); apply reflexivity.
Qed.

Lemma logged_setEnergyFields l : always logged (setEnergyFields l).
Proof. intros s. apply logged_silent; reflexivity. Qed.

Lemma logged_setSimulator sim : always logged (setSimulator sim).
Proof. intros s. apply logged_silent; reflexivity. Qed.

Lemma logged_setNumValidInBatch n : always logged (setNumValidInBatch n).
Proof. intros s. apply logged_silent; reflexivity. Qed.

Lemma logged_setCancel b : always logged (setCancel b).
Proof. intros s. apply logged_silent; reflexivity. Qed.

Lemma logged_cancelRequest : always logged cancelRequest.
Proof.
  intros s. unfold cancelRequest, requestCancel. cbn.
  destruct (f_sBakeInProgress s) eqn:Hp; apply logged_silent;
    cbn; congruence.
Qed.

Lemma logged_enqueue a i sl : always logged (enqueue a i sl).
Proof.
  intros s. unfold enqueue.
  destruct (_ <? _)%nat; apply logged_silent; reflexivity.
Qed.

Create HintDb logged.
#[local] Hint Resolve logged_emit logged_derefEnergyField logged_readIndex
  logged_setEnergyFields logged_setSimulator logged_setNumValidInBatch
  logged_setCancel logged_cancelRequest logged_enqueue : logged.

Ltac logged_step :=
  first
    [ solve [auto with logged]
    | apply always_ret; exact _
    | apply always_fail; exact _
    | apply always_get; exact _
    | apply always_bind; [exact _ | | intros ?]
    | apply always_forEach; [exact _ | exact _ | intros ? _] ].

Lemma logged_simulateBatch a i : always logged (simulateBatch a i).
Proof. unfold simulateBatch. repeat logged_step. Qed.

Lemma logged_copyBack j : always logged (copyBack j).
Proof. unfold copyBack. repeat logged_step. Qed.
#[local] Hint Resolve logged_simulateBatch logged_copyBack : logged.

Lemma logged_deviceToHost a : always logged (deviceToHost a).
Proof. unfold deviceToHost. destruct (_ && _); repeat logged_step. Qed.

Lemma logged_storeReverb j : always logged (storeReverb j).
Proof. unfold storeReverb. repeat logged_step. Qed.

Lemma logged_takeEnergyField a j : always logged (takeEnergyField a j).
Proof.
  unfold takeEnergyField. destruct (float_eq _ _); repeat logged_step.
  destruct (energyFields _ !! j); repeat logged_step.
Qed.
#[local] Hint Resolve logged_deviceToHost logged_storeReverb
  logged_takeEnergyField : logged.

Lemma logged_storeEnergyField a j : always logged (storeEnergyField a j).
Proof. unfold storeEnergyField. repeat logged_step. Qed.
#[local] Hint Resolve logged_storeEnergyField : logged.

Lemma logged_writeBack a : always logged (writeBack a).
Proof.
  unfold writeBack. logged_step; [logged_step|]. logged_step.
  - destruct (bakeParametric a); repeat logged_step.
  - destruct (bakeConvolution a); repeat logged_step.
Qed.

Lemma logged_reportAndCheck a N i : always logged (reportAndCheck a N i).
Proof.
  unfold reportAndCheck. logged_step.
  - destruct (callback a); repeat logged_step.
  - logged_step; [logged_step|]. logged_step; [logged_step|].
    destruct (f_sCancel _); repeat logged_step.
Qed.
#[local] Hint Resolve logged_writeBack logged_reportAndCheck : logged.

Lemma logged_dispatch a N i : always logged (dispatch a N i).
Proof. unfold dispatch. repeat logged_step. Qed.
#[local] Hint Resolve logged_dispatch : logged.

Lemma logged_loopBody a N i p : always logged (loopBody a N i p).
Proof.
  unfold loopBody. logged_step.
  - destruct (probeEndpoints _ p); repeat logged_step.
  - logged_step; [logged_step|].
    destruct (_ || _); repeat logged_step.
Qed.
#[local] Hint Resolve logged_loopBody : logged.

Lemma logged_iteration a sch N i p : always logged (iteration a sch N i p).
Proof.
  unfold iteration. logged_step; [|logged_step].
  destruct (cancelDuring sch i); repeat logged_step.
Qed.
#[local] Hint Resolve logged_iteration : logged.

Lemma logged_bakeLoop a sch N ps :
  forall i, always logged (bakeLoop a sch N i ps).
Proof.
  induction ps as [|p ps IH]; intros i; cbn [bakeLoop].
  - logged_step.
  - logged_step; [logged_step|].
    destruct x; [logged_step|apply IH].
Qed.

(** ** Write-back *)

#[local] Instance writesBack_refl n : Reflexive (writesBack n).
Proof.
  intros s _. repeat split. exists []. rewrite app_nil_r. split; constructor.
Qed.

#[local] Instance writesBack_trans n : Transitive (writesBack n).
Proof.
  intros s1 s2 s3 H12 H23 Hn.
  destruct (H12 Hn) as (? & ? & ? & ? & Hi & Hv & ? & e1 & Ht1 & He1).
  destruct H23 as (? & ? & ? & ? & ? & ? & ? & e2 & Ht2 & He2);
    [congruence|].
  repeat split; try congruence. exists (e1 ++ e2).
  rewrite Ht2, Ht1, app_assoc. split; [reflexivity|].
  apply Forall_app; split; [assumption|]. rewrite <- Hi. assumption.
Qed.

Lemma writesBack_silent n (s s' : Frame) :
  f_sCancel s' = f_sCancel s ->
  f_sBakeInProgress s' = f_sBakeInProgress s ->
  sources s' = sources s -> listeners s' = listeners s ->
  indices s' = indices s -> numValidInBatch s' = numValidInBatch s ->
  length (energyFields s') = length (energyFields s) ->
  f_trace s' = f_trace s ->
  writesBack n s s'.
Proof.
  intros ? ? ? ? ? ? ? Ht _. repeat split; try assumption.
  exists []. rewrite app_nil_r. split; [assumption|constructor].
Qed.

Lemma writesBack_emit n (s : Frame) (e : Event) :
  isWriteBack (firstn n (indices s)) e -> writesBack n s (post (emit e s)).
Proof.
  intros He _. repeat split. exists [e]. split; [reflexivity|].
  constructor; [assumption|constructor].
Qed.

Lemma member_of_slot (l : list Z) (n j : nat) (index : Z) :
  l !! j = Some index -> (j < n)%nat -> In index (firstn n l).
Proof.
  intros Hl Hj. apply list_elem_of_In.
  apply (list_elem_of_lookup_2 _ j). rewrite lookup_take_lt; assumption.
Qed.

Lemma writesBack_copyBack n j : always (writesBack n) (copyBack j).
Proof.
  intros s. unfold copyBack. rewrite bind_eq. unfold derefEnergyField.
  destruct (energyFields s !! j) as [[f|]|]; cbn; try apply reflexivity.
  intros _. repeat split; cbn.
  - apply length_insert.
  - exists [EvCopyDeviceToHost j]. split; [reflexivity|].
    repeat constructor.
Qed.

Lemma writesBack_storeReverb n j :
  (j < n)%nat -> always (writesBack n) (storeReverb j).
Proof.
  intros Hj s. unfold storeReverb. rewrite bind_eq. unfold derefEnergyField.
  destruct (energyFields s !! j) as [[f|]|]; cbn; try apply reflexivity.
  rewrite bind_eq. unfold readIndex.
  destruct (indices s !! j) as [index|] eqn:Hi; cbn; [|apply reflexivity].
  apply writesBack_emit. cbn. eapply member_of_slot; eassumption.
Qed.

Ltac frame_simpl :=
  cbn [post f_sCancel f_sBakeInProgress reflectionsData f_simulator sources
       listeners indices numValidInBatch energyFields f_trace].

Ltac writesBack_case :=
  intros _; frame_simpl; rewrite ?length_insert;
  refine (conj eq_refl (conj eq_refl (conj eq_refl (conj eq_refl
         (conj eq_refl (conj eq_refl (conj eq_refl _)))))));
  rewrite <- ?app_assoc;
  first [ eexists; split; [reflexivity|]
        | exists []; split; [symmetry; apply app_nil_r|] ];
  repeat constructor; cbn; eauto using member_of_slot.

Lemma writesBack_storeEnergyField n a j :
  (j < n)%nat -> always (writesBack n) (storeEnergyField a j).
Proof.
  intros Hj s.
  unfold storeEnergyField, takeEnergyField, bind, readIndex,
    derefEnergyField, emit, get, setEnergyFields, ret, fail.
  destruct (float_eq _ _);
    destruct (energyFields s !! j) as [[f|]|] eqn:Hf; frame_simpl;
    destruct (indices s !! j) as [index|] eqn:Hi; frame_simpl;
    try rewrite Hf;
    try (destruct (<[j:=None]> (energyFields s) !! j) as [[f'|]|]);
    frame_simpl; try rewrite Hi;
    writesBack_case.
Qed.

Lemma writesBack_forEach n (body : nat -> M unit) :
  (forall j, (j < n)%nat -> always (writesBack n) (body j)) ->
  forall s, writesBack n s (post (forEach (slots (numValidInBatch s)) body s)).
Proof.
  intros Hb s Hn. unfold slots. rewrite Hn.
  assert (Ha : always (writesBack n) (forEach (seq 0 n) body)).
  { apply always_forEach; try exact _.
    intros j Hj. apply Hb. apply in_seq in Hj. lia. }
  exact (Ha s Hn).
Qed.

Lemma writesBack_deviceToHost n a : always (writesBack n) (deviceToHost a).
Proof.
  intros s. unfold deviceToHost. destruct (_ && _); [|apply reflexivity].
  rewrite bind_eq. cbn. apply writesBack_forEach.
  intros j _. apply writesBack_copyBack.
Qed.

Lemma writesBack_writeBack n a : always (writesBack n) (writeBack a).
Proof.
  intros s Hn. unfold writeBack. rewrite bind_eq. cbn [get].
  rewrite bind_eq.
  assert (H1 : writesBack n s
            (post ((if bakeParametric a
                    then forEach (slots (numValidInBatch s)) storeReverb
                    else ret tt) s))).
  { destruct (bakeParametric a); [|apply reflexivity].
    apply writesBack_forEach. intros j Hj. apply writesBack_storeReverb, Hj. }
  match type of H1 with
  | writesBack _ _ (post ?r) => destruct r as [[] s1|f s1]
  end; cbn [post] in *; [|exact (H1 Hn)].
  refine (transitivity H1 _ Hn).
  destruct (bakeConvolution a); [|apply reflexivity].
  destruct (H1 Hn) as (_ & _ & _ & _ & _ & Hv & _).
  rewrite <- Hv.
  apply writesBack_forEach. intros j Hj. apply writesBack_storeEnergyField, Hj.
Qed.

(** ** What a write-back that returns has written *)

Lemma forEach_done (ix : list Z) (E : nat -> list Event -> Prop)
    (body : nat -> M unit) (js : list nat) :
  (forall j evs e1 e2, E j evs -> E j (e1 ++ evs ++ e2)) ->
  (forall j s s', In j js -> indices s = ix -> body j s = Done tt s' ->
     indices s' = ix /\
     exists evs, f_trace s' = f_trace s ++ evs /\ E j evs) ->
  forall s s', indices s = ix -> forEach js body s = Done tt s' ->
    indices s' = ix /\
    exists evs, f_trace s' = f_trace s ++ evs /\
                forall j, In j js -> E j evs.
Proof.
  intros Hmono. induction js as [|j js IH]; intros Hbody s s' Hix Hrun.
  - cbn in Hrun. injection Hrun as <-. split; [exact Hix|].
    exists []. rewrite app_nil_r. split; [reflexivity|]. intros j [].
  - cbn [forEach] in Hrun. rewrite bind_eq in Hrun.
    destruct (body j s) as [[] s1|f s1] eqn:Hb; [|discriminate].
    destruct (Hbody j s s1 ltac:(left; reflexivity) Hix Hb)
      as (Hix1 & e1 & Ht1 & He1).
    destruct (IH (fun j' s0 s0' Hin => Hbody j' s0 s0' (or_intror Hin))
                s1 s' Hix1 Hrun) as (Hix' & e2 & Ht2 & He2).
    split; [exact Hix'|]. exists (e1 ++ e2).
    split; [rewrite Ht2, Ht1, app_assoc; reflexivity|].
    intros j' [<-|Hin].
    + specialize (Hmono j e1 [] e2 He1). cbn in Hmono. exact Hmono.
    + specialize (Hmono j' e2 e1 [] (He2 j' Hin)).
      rewrite app_nil_r in Hmono. exact Hmono.
Qed.

Lemma storeReverb_done j s s' :
  storeReverb j s = Done tt s' ->
  indices s' = indices s /\
  exists index r,
    indices s !! j = Some index /\
    f_trace s' = f_trace s ++ [EvSetReverb index r].
Proof.
  unfold storeReverb, bind, derefEnergyField, readIndex, emit.
  destruct (energyFields s !! j) as [[f|]|]; try discriminate.
  destruct (indices s !! j) as [index|]; [|discriminate].
  intros Hd. injection Hd as <-. frame_simpl. eauto.
Qed.

Lemma storeEnergyField_done a j s s' :
  storeEnergyField a j s = Done tt s' ->
  indices s' = indices s /\
  exists index f bytes,
    indices s !! j = Some index /\
    f_trace s' =
      f_trace s ++
      [EvSetEnergyField index f; EvWriteFile (Wav.filePath index) bytes].
Proof.
  unfold storeEnergyField, takeEnergyField, bind, readIndex,
    derefEnergyField, emit, get, setEnergyFields, ret, fail.
  destruct (float_eq _ _);
    destruct (energyFields s !! j) as [[f|]|] eqn:Hf; frame_simpl;
    try discriminate;
    destruct (indices s !! j) as [index|] eqn:Hi; frame_simpl;
    try discriminate;
    try rewrite Hf;
    try (destruct (<[j:=None]> (energyFields s) !! j) as [[f'|]|]);
    frame_simpl; try rewrite Hi; try discriminate;
    intros Hd; injection Hd as <-; frame_simpl;
    rewrite <- ?app_assoc; eauto 10.
Qed.

Lemma member_slot (l : list Z) (n : nat) (m : Z) :
  In m (firstn n l) -> exists j, (j < n)%nat /\ l !! j = Some m.
Proof.
  intros Hin. apply list_elem_of_In, list_elem_of_lookup in Hin.
  destruct Hin as (j & Hj). apply lookup_take_Some in Hj.
  exists j. tauto.
Qed.

Lemma writeBack_done a s s' :
  writeBack a s = Done tt s' ->
  exists evs,
    f_trace s' = f_trace s ++ evs /\ allWritten a (pendingMembers s) evs.
Proof.
  unfold writeBack. rewrite bind_eq. cbn [get]. rewrite bind_eq.
  set (n := Z.to_nat (numValidInBatch s)).
  assert (Hslot : forall j, In j (slots (numValidInBatch s)) <-> (j < n)%nat).
  { intros j. unfold slots. fold n. rewrite in_seq. lia. }
  destruct (bakeParametric a) eqn:Hpar.
  - destruct (forEach _ storeReverb s) as [[] s1|f s1] eqn:H1;
      [|discriminate].
    destruct (forEach_done (indices s)
                (fun j evs => forall index, indices s !! j = Some index ->
                                exists r, In (EvSetReverb index r) evs)
                storeReverb (slots (numValidInBatch s))) with (s := s) (s' := s1)
      as (Hix1 & e1 & Ht1 & He1); try assumption; try reflexivity.
    { intros j evs e1 e2 He index Hi. destruct (He index Hi) as (r & Hin).
      exists r. apply in_or_app. right. apply in_or_app. left. exact Hin. }
    { intros j s0 s0' _ Hix Hd. apply storeReverb_done in Hd.
      destruct Hd as (Hix' & index & r & Hi & Ht).
      split; [congruence|]. eexists. split; [exact Ht|].
      intros index' Hi'. rewrite Hix in Hi. exists r.
      left. congruence. }
    assert (Hpar1 : forall m, In m (pendingMembers s) ->
                      exists r, In (EvSetReverb m r) e1).
    { intros m Hm. apply member_slot in Hm. destruct Hm as (j & Hj & Hl).
      apply (He1 j); [apply Hslot, Hj|exact Hl]. }
    destruct (bakeConvolution a) eqn:Hcv.
    + intros H2.
      destruct (forEach_done (indices s)
                  (fun j evs => forall index, indices s !! j = Some index ->
                     exists f bytes,
                       In (EvSetEnergyField index f) evs /\
                       In (EvWriteFile (Wav.filePath index) bytes) evs)
                  (storeEnergyField a) (slots (numValidInBatch s)))
        with (s := s1) (s' := s')
        as (Hix2 & e2 & Ht2 & He2); try assumption.
      { intros j evs x1 x2 He index Hi.
        destruct (He index Hi) as (f & bytes & Hin1 & Hin2).
        exists f, bytes. rewrite !in_app_iff. auto. }
      { intros j s0 s0' _ Hix Hd. apply storeEnergyField_done in Hd.
        destruct Hd as (Hix' & index & f & bytes & Hi & Ht).
        split; [congruence|]. eexists. split; [exact Ht|].
        intros index' Hi'. rewrite Hix in Hi. exists f, bytes.
        replace index' with index by congruence. cbn. auto. }
      exists (e1 ++ e2). split; [rewrite Ht2, Ht1, app_assoc; reflexivity|].
      split; intros _ m Hm.
      * destruct (Hpar1 m Hm) as (r & Hin). exists r.
        apply in_or_app. left. exact Hin.
      * apply member_slot in Hm. destruct Hm as (j & Hj & Hl).
        destruct (He2 j ltac:(apply Hslot, Hj) m Hl) as (f & bytes & I1 & I2).
        exists f, bytes. rewrite !in_app_iff. auto.
    + cbn [ret]. intros Hd. injection Hd as <-.
      exists e1. split; [exact Ht1|]. split; [intros _; exact Hpar1|].
      intros ?; congruence.
  - cbn [ret]. destruct (bakeConvolution a) eqn:Hcv.
    + intros H2.
      destruct (forEach_done (indices s)
                  (fun j evs => forall index, indices s !! j = Some index ->
                     exists f bytes,
                       In (EvSetEnergyField index f) evs /\
                       In (EvWriteFile (Wav.filePath index) bytes) evs)
                  (storeEnergyField a) (slots (numValidInBatch s)))
        with (s := s) (s' := s')
        as (Hix2 & e2 & Ht2 & He2); try assumption; try reflexivity.
      { intros j evs x1 x2 He index Hi.
        destruct (He index Hi) as (f & bytes & Hin1 & Hin2).
        exists f, bytes. rewrite !in_app_iff. auto. }
      { intros j s0 s0' _ Hix Hd. apply storeEnergyField_done in Hd.
        destruct Hd as (Hix' & index & f & bytes & Hi & Ht).
        split; [congruence|]. eexists. split; [exact Ht|].
        intros index' Hi'. rewrite Hix in Hi. exists f, bytes.
        replace index' with index by congruence. cbn. auto. }
      exists e2. split; [exact Ht2|]. split; [intros ?; congruence|].
      intros _ m Hm. apply member_slot in Hm. destruct Hm as (j & Hj & Hl).
      apply (He2 j); [apply Hslot, Hj|exact Hl].
    + intros Hd. injection Hd as <-. exists []. rewrite app_nil_r.
      split; [reflexivity|]. split; intros ?; congruence.
Qed.

(** ** One closed batch *)

Lemma length_runJobGraph work n (l : list (option EnergyField)) :
  length (runJobGraph work n l) = length l.
Proof. unfold runJobGraph. apply length_imap. Qed.

Lemma simulateBatch_spec a i s :
  exists call s1,
    simulateBatch a i s = Done tt s1 /\
    f_trace s1 =
      f_trace s ++
      [EvJobGraphReset; EvSimulate i (pendingMembers s) call; EvProcess] /\
    (sc_numSources call, sc_numListeners call) =
      endpointCounts (sceneType a) (variation (identifier a))
        (numValidInBatch s) /\
    sc_numRays call = numRays a /\
    sc_numBounces call = numBounces a /\
    sc_simDuration call = simDuration a /\
    sc_order call = order a /\
    sc_irradianceMinDistance call = irradianceMinDistance a /\
    f_sCancel s1 = f_sCancel s /\
    f_sBakeInProgress s1 = f_sBakeInProgress s /\
    sources s1 = sources s /\ listeners s1 = listeners s /\
    indices s1 = indices s /\
    numValidInBatch s1 = numValidInBatch s /\
    length (energyFields s1) = length (energyFields s).
Proof.
  eexists _, _. split.
  { unfold simulateBatch, bind, get, emit, setSimulator, setEnergyFields.
    frame_simpl. reflexivity. }
  frame_simpl.
  rewrite <- !app_assoc. cbn [app sc_numSources sc_numListeners sc_numRays
    sc_numBounces sc_simDuration sc_order sc_irradianceMinDistance].
  rewrite length_runJobGraph.
  repeat split. destruct (endpointCounts _ _ _); reflexivity.
Qed.

Lemma length_pendingMembers s :
  0 <= numValidInBatch s ->
  (Z.to_nat (numValidInBatch s) <= length (indices s))%nat ->
  Z.of_nat (length (pendingMembers s)) = numValidInBatch s.
Proof.
  intros H0 Hle. unfold pendingMembers. rewrite length_take. lia.
Qed.

Lemma dispatch_spec a N i s :
  0 <= numValidInBatch s ->
  (Z.to_nat (numValidInBatch s) <= length (indices s))%nat ->
  exists call wb,
    callFor a (pendingMembers s) call /\
    Forall (isWriteBack (pendingMembers s)) wb /\
    match dispatch a N i s with
    | Done brk s' =>
        allWritten a (pendingMembers s) wb /\
        f_trace s' =
          f_trace s ++
          batchEvents a N {| b_i := i; b_members := pendingMembers s;
                             b_call := call; b_writes := wb;
                             b_cancelled := brk |} /\
        brk = f_sCancel s /\
        f_sCancel s' = false /\
        numValidInBatch s' = 0 /\
        f_sBakeInProgress s' = f_sBakeInProgress s /\
        length (sources s') = length (sources s) /\
        length (listeners s') = length (listeners s) /\
        length (energyFields s') = length (energyFields s) /\
        length (indices s') = length (indices s)
    | Crash _ s' =>
        f_trace s' =
          f_trace s ++
          [EvJobGraphReset; EvSimulate i (pendingMembers s) call; EvProcess]
          ++ wb
    end.
Proof.
  intros H0 Hle.
  destruct (simulateBatch_spec a i s)
    as (call & s1 & Hsim & Ht1 & Hcnt & Hr & Hb & Hd & Ho & Hm
        & Hc1 & Hp1 & Hs1 & Hl1 & Hi1 & Hv1 & He1).
  assert (Hcall : callFor a (pendingMembers s) call).
  { unfold callFor. rewrite length_pendingMembers by assumption.
    repeat split; assumption. }
  set (n := Z.to_nat (numValidInBatch s)).
  assert (Hn1 : Z.to_nat (numValidInBatch s1) = n) by (rewrite Hv1; reflexivity).
  unfold dispatch. rewrite bind_eq, Hsim. rewrite bind_eq.
  destruct (writesBack_deviceToHost n a s1 Hn1)
    as (Hc2 & Hp2 & Hs2 & Hl2 & Hi2 & Hv2 & He2 & wb1 & Ht2 & Hw1).
  destruct (deviceToHost a s1) as [[] s2|f s2]; cbn [post] in *.
  2:{ exists call, wb1. split; [exact Hcall|]. split.
      - unfold pendingMembers. fold n. rewrite <- Hi1. exact Hw1.
      - rewrite Ht2, Ht1, <- app_assoc. reflexivity. }
  assert (Hn2 : Z.to_nat (numValidInBatch s2) = n) by congruence.
  rewrite bind_eq.
  destruct (writesBack_writeBack n a s2 Hn2)
    as (Hc3 & Hp3 & Hs3 & Hl3 & Hi3 & Hv3 & He3 & wb2 & Ht3 & Hw2).
  assert (Hwb : Forall (isWriteBack (pendingMembers s)) (wb1 ++ wb2)).
  { apply Forall_app. unfold pendingMembers. fold n. split.
    - rewrite <- Hi1. exact Hw1.
    - rewrite <- Hi1, <- Hi2. exact Hw2. }
  exists call, (wb1 ++ wb2). split; [exact Hcall|]. split; [exact Hwb|].
  destruct (writeBack a s2) as [[] s3|f s3] eqn:Hwrote; cbn [post] in *.
  2:{ rewrite Ht3, Ht2, Ht1, <- !app_assoc. reflexivity. }
  assert (Hall : allWritten a (pendingMembers s) (wb1 ++ wb2)).
  { destruct (writeBack_done a s2 s3 Hwrote) as (evs & Hte & [Hp Hc]).
    rewrite Ht3 in Hte. apply app_inv_head in Hte. subst evs.
    assert (Hpm : pendingMembers s2 = pendingMembers s)
      by (unfold pendingMembers; congruence).
    rewrite Hpm in Hp, Hc. split.
    - intros Hpar x Hx. destruct (Hp Hpar x Hx) as (r & Hin).
      exists r. apply in_or_app. right. exact Hin.
    - intros Hcv x Hx. destruct (Hc Hcv x Hx) as (f & bytes & I1 & I2).
      exists f, bytes. rewrite !in_app_iff. auto. }
  unfold reportAndCheck, setNumValidInBatch, bind, get, emit, setCancel, ret.
  unfold batchEvents. cbn [b_i b_members b_call b_writes b_cancelled].
  destruct (callback a); frame_simpl; destruct (f_sCancel s3) eqn:Hc;
    frame_simpl; (split; [exact Hall|]);
    rewrite Ht3, Ht2, Ht1, <- !app_assoc;
    repeat split; congruence.
Qed.

(** ** One iteration *)

Lemma eligible_at a pb i p :
  0 <= i -> mProbes pb !! Z.to_nat i = Some p ->
  eligible a pb i = probeValid (identifier a) p.
Proof.
  intros H0 Hp. unfold eligible. rewrite Hp.
  destruct (Z.leb_spec 0 i); [reflexivity|lia].
Qed.

Lemma HeadInv_enqueue a pb i p sl s :
  HeadInv a pb i s -> 0 <= i -> mProbes pb !! Z.to_nat i = Some p ->
  probeEndpoints (identifier a) p = Some sl ->
  match enqueue a i sl s with
  | Done _ s1 =>
      f_trace s1 = f_trace s /\ f_sCancel s1 = f_sCancel s /\
      f_sBakeInProgress s1 = true /\
      length (sources s1) = Z.to_nat (effectiveBatchSize a) /\
      length (listeners s1) = Z.to_nat (effectiveBatchSize a) /\
      length (energyFields s1) = Z.to_nat (effectiveBatchSize a) /\
      length (indices s1) = Z.to_nat (effectiveBatchSize a) /\
      numValidInBatch s1 = numValidInBatch s + 1 /\
      numValidInBatch s1 <= effectiveBatchSize a /\
      pendingMembers s1 = pendingMembers s ++ [i]
  | Crash _ s1 => s1 = s
  end.
Proof.
  intros [Hs Hl He Hi H0 Hhi Hm Hp] Hi0 Hpr Hsl. unfold enqueue.
  destruct (Nat.ltb_spec (Z.to_nat (numValidInBatch s)) (length (sources s)))
    as [Hlt|Hge]; [|reflexivity].
  frame_simpl. rewrite !length_insert.
  repeat split; try assumption; try lia.
  unfold pendingMembers. frame_simpl.
  replace (Z.to_nat (numValidInBatch s + 1))
    with (S (Z.to_nat (numValidInBatch s))) by lia.
  erewrite take_S_r
    by (apply list_lookup_insert_eq; lia).
  rewrite take_insert_ge by lia. reflexivity.
Qed.

Lemma close_or_continue a pb i s1 members :
  f_sBakeInProgress s1 = true ->
  length (sources s1) = Z.to_nat (effectiveBatchSize a) ->
  length (listeners s1) = Z.to_nat (effectiveBatchSize a) ->
  length (energyFields s1) = Z.to_nat (effectiveBatchSize a) ->
  length (indices s1) = Z.to_nat (effectiveBatchSize a) ->
  0 <= numValidInBatch s1 <= effectiveBatchSize a ->
  pendingMembers s1 = members ->
  Forall (fun index => index <= i /\ eligible a pb index = true) members ->
  (if eligible a pb i then last members = Some i
   else numValidInBatch s1 < effectiveBatchSize a \/
        effectiveBatchSize a = 0) ->
  match (s <- get ;;
         if (numValidInBatch s =? effectiveBatchSize a)
            || (i =? numProbes pb - 1)
         then dispatch a (numProbes pb) i
         else ret false) s1 with
  | Done brk s' =>
      HeadInv a pb (i + 1) s' /\
      ((brk = false /\ i <> numProbes pb - 1 /\ s' = s1) \/
       (ranBatch a pb i members brk s1 s' /\
        brk = f_sCancel s1 /\ f_sCancel s' = false /\
        numValidInBatch s' = 0))
  | Crash _ s' => brokeBatch a pb i members s1 s'
  end.
Proof.
  intros Hp Hs Hl He Hi Hv Hm Hall Hlast.
  assert (Hlen : Z.of_nat (length members) = numValidInBatch s1).
  { rewrite <- Hm. apply length_pendingMembers; lia. }
  rewrite bind_eq. cbn [get].
  destruct ((numValidInBatch s1 =? effectiveBatchSize a)
            || (i =? numProbes pb - 1)) eqn:Hc.
  - assert (Hclosed : closedBatch a pb i members).
    { unfold closedBatch. rewrite Hlen.
      repeat split; try assumption; lia. }
    destruct (dispatch_spec a (numProbes pb) i s1) as (call & wb & Hcall & Hwb & Hd);
      [lia|lia|].
    rewrite Hm in Hcall, Hwb, Hd.
    destruct (dispatch a (numProbes pb) i s1) as [brk s'|f s'].
    + destruct Hd as (Hall' & Ht & Hb & Hc' & Hv' & Hp' & Hs' & Hl' & He' & Hi').
      split.
      * constructor; try congruence; try lia.
        unfold pendingMembers. rewrite Hv'. constructor.
      * right. split; [|auto]. exists call, wb. auto.
    + exists call, wb. auto.
  - apply orb_false_iff in Hc. destruct Hc as [Hc1 Hc2]. split.
    + constructor; try assumption; try lia.
      rewrite Hm. eapply Forall_impl; [exact Hall|]. cbn. intros x [? ?].
      split; [lia|assumption].
    + left. repeat split. lia.
Qed.

Lemma loopBody_spec a pb i p s :
  HeadInv a pb i s -> 0 <= i -> mProbes pb !! Z.to_nat i = Some p ->
  let members :=
    pendingMembers s ++ (if probeValid (identifier a) p then [i] else []) in
  match loopBody a (numProbes pb) i p s with
  | Done brk s' =>
      HeadInv a pb (i + 1) s' /\
      ((brk = false /\ i <> numProbes pb - 1 /\
        f_trace s' = f_trace s /\ f_sCancel s' = f_sCancel s /\
        pendingMembers s' = members) \/
       (ranBatch a pb i members brk s s' /\
        brk = f_sCancel s /\ f_sCancel s' = false /\
        numValidInBatch s' = 0))
  | Crash _ s' =>
      f_trace s' = f_trace s \/ brokeBatch a pb i members s s'
  end.
Proof.
  intros HI Hi0 Hpr members. pose proof (eligible_at a pb i p Hi0 Hpr) as Hel.
  unfold loopBody. rewrite bind_eq.
  assert (Hold : Forall (fun index => index <= i /\ eligible a pb index = true)
                   (pendingMembers s)).
  { eapply Forall_impl; [exact (hi_members _ _ _ _ HI)|]. cbn.
    intros x [? ?]. split; [lia|assumption]. }
  subst members. unfold probeValid in *.
  destruct (probeEndpoints (identifier a) p) as [sl|] eqn:Hsl.
  - pose proof (HeadInv_enqueue a pb i p sl s HI Hi0 Hpr Hsl) as Henq.
    destruct (enqueue a i sl s) as [[] s1|f s1]; [|left; congruence].
    destruct Henq as (Ht & Hc & Hp & Hs & Hl & He & Hix & Hv & Hle & Hm).
    pose proof (hi_lo _ _ _ _ HI).
    pose proof (close_or_continue a pb i s1 (pendingMembers s ++ [i])
                  Hp Hs Hl He Hix ltac:(lia) Hm) as Hcc.
    match type of Hcc with _ -> _ -> ?G =>
      assert (Hres : G) end.
    { apply Hcc.
      - apply Forall_app. split; [exact Hold|].
        constructor; [|constructor]. split; [lia|congruence].
      - rewrite Hel. apply last_snoc. }
    clear Hcc.
    match type of Hres with match ?r with _ => _ end =>
      destruct r as [brk s'|f s'] end.
    + destruct Hres as [HI' Hres]. split; [exact HI'|].
      destruct Hres as [(? & ? & ->)|(Hran & ? & ? & ?)].
      * left. auto.
      * right. repeat split; try congruence.
        destruct Hran as (call & wb & ? & ? & ? & Htr).
        exists call, wb. rewrite <- Ht. auto.
    + right. destruct Hres as (call & wb & ? & ? & ? & Htr).
      exists call, wb. rewrite <- Ht. auto.
  - cbn [ret]. rewrite app_nil_r. destruct HI as [Hs Hl He Hix H0 Hhi Hm Hp].
    pose proof (close_or_continue a pb i s (pendingMembers s)
                  Hp Hs Hl He Hix ltac:(lia) eq_refl Hold) as Hcc.
    match type of Hcc with _ -> ?G => assert (Hres : G) end.
    { apply Hcc. rewrite Hel. lia. }
    clear Hcc.
    match type of Hres with match ?r with _ => _ end =>
      destruct r as [brk s'|f s'] end.
    + destruct Hres as [HI' Hres]. split; [exact HI'|].
      destruct Hres as [(? & ? & ->)|?]; [left|right]; auto.
    + right. exact Hres.
Qed.

Lemma requested_one sch c0 lo :
  requested sch c0 lo lo = c0 || cancelDuring sch lo.
Proof.
  unfold requested. replace (lo + 1 - lo) with 1 by lia.
  rewrite seqZ_cons by lia. cbn [Z.pred Z.add Z.pos_sub].
  change (seqZ (Z.succ lo) 0) with (@nil Z). cbn [existsb].
  rewrite orb_false_r. reflexivity.
Qed.

Lemma requested_step sch c0 lo hi :
  lo < hi ->
  requested sch c0 lo hi = requested sch (c0 || cancelDuring sch lo) (lo + 1) hi.
Proof.
  intros Hlt. unfold requested. rewrite seqZ_cons by lia. cbn [existsb].
  replace (Z.pred (hi + 1 - lo)) with (hi + 1 - (lo + 1)) by lia.
  replace (Z.succ lo) with (lo + 1) by lia. apply orb_assoc.
Qed.

Lemma HeadInv_requestCancel a pb i s :
  HeadInv a pb i s -> HeadInv a pb i (requestCancel s).
Proof.
  intros [Hs Hl He Hi H0 Hhi Hm Hp]. unfold requestCancel. rewrite Hp.
  constructor; first [assumption|reflexivity].
Qed.

Lemma iteration_spec a sch pb i p s :
  HeadInv a pb i s -> 0 <= i -> mProbes pb !! Z.to_nat i = Some p ->
  let members :=
    pendingMembers s ++ (if probeValid (identifier a) p then [i] else []) in
  let req := f_sCancel s || cancelDuring sch i in
  match iteration a sch (numProbes pb) i p s with
  | Done brk s' =>
      HeadInv a pb (i + 1) s' /\
      ((brk = false /\ i <> numProbes pb - 1 /\
        f_trace s' = f_trace s /\ f_sCancel s' = req /\
        pendingMembers s' = members) \/
       (ranBatch a pb i members brk s s' /\
        brk = req /\ f_sCancel s' = false /\
        numValidInBatch s' = 0))
  | Crash _ s' =>
      f_trace s' = f_trace s \/ brokeBatch a pb i members s s'
  end.
Proof.
  intros HI Hi0 Hpr members req. unfold iteration. rewrite bind_eq.
  subst req. destruct (cancelDuring sch i).
  - cbn [cancelRequest].
    pose proof (loopBody_spec a pb i p (requestCancel s)
                  (HeadInv_requestCancel _ _ _ _ HI) Hi0 Hpr) as Hb.
    cbn zeta in Hb. unfold requestCancel in Hb.
    rewrite (hi_inProgress _ _ _ _ HI) in Hb.
    unfold requestCancel. rewrite (hi_inProgress _ _ _ _ HI).
    rewrite orb_true_r.
    match type of Hb with match ?r with _ => _ end =>
      destruct r as [brk s'|f s'] end; exact Hb.
  - cbn [ret]. rewrite orb_false_r. apply loopBody_spec; assumption.
Qed.

(** ** The loop *)

Lemma drop_cons_inv {A} (l : list A) (n : nat) (x : A) (r : list A) :
  drop n l = x :: r -> l !! n = Some x /\ drop (S n) l = r.
Proof.
  intros Hd. split.
  - rewrite <- (Nat.add_0_r n), <- lookup_drop, Hd. reflexivity.
  - replace (S n) with (n + 1)%nat by lia.
    rewrite <- drop_drop, Hd. reflexivity.
Qed.

Lemma batchOK_shift a pb sch c0 i b :
  i < b_i b ->
  batchOK a pb sch (c0 || cancelDuring sch i) (i + 1) b ->
  batchOK a pb sch c0 i b.
Proof.
  intros Hlt (Hr & Hc & Hf & Hw & Hq).
  refine (conj _ (conj Hc (conj Hf (conj Hw _)))); [lia|].
  rewrite Hq. symmetry. apply requested_step. exact Hlt.
Qed.

Lemma eligible_seqZ_cons a pb i n :
  filter (fun index => eligible a pb index = true) (seqZ i (Z.of_nat (S n))) =
  (if eligible a pb i then [i] else []) ++
  filter (fun index => eligible a pb index = true) (seqZ (i + 1) (Z.of_nat n)).
Proof.
  rewrite seqZ_cons by lia.
  replace (Z.pred (Z.of_nat (S n))) with (Z.of_nat n) by lia.
  replace (Z.succ i) with (i + 1) by lia.
  rewrite filter_cons. destruct (eligible a pb i); cbn.
  - destruct (decide (true = true)); [reflexivity|congruence].
  - destruct (decide (false = true)); [congruence|reflexivity].
Qed.

Lemma bakeLoop_run a sch pb :
  forall ps i s,
    HeadInv a pb i s -> 0 <= i ->
    drop (Z.to_nat i) (mProbes pb) = ps ->
    loopRun a pb sch i ps s (bakeLoop a sch (numProbes pb) i ps s).
Proof.
  induction ps as [|p ps IH]; intros i s HI Hi0 Hdrop.
  { exists [], []. cbn. rewrite !app_nil_r.
    repeat split; try constructor; congruence. }
  destruct (drop_cons_inv _ _ _ _ Hdrop) as [Hp Hdrop'].
  assert (HN : numProbes pb = i + 1 + Z.of_nat (length ps)).
  { unfold numProbes. apply (f_equal length) in Hdrop.
    rewrite length_drop in Hdrop. cbn in Hdrop. lia. }
  pose proof (iteration_spec a sch pb i p s HI Hi0 Hp) as Hit.
  cbn zeta in Hit. cbn [bakeLoop]. rewrite bind_eq.
  pose proof (eligible_at a pb i p Hi0 Hp) as Hel.
  destruct (iteration a sch (numProbes pb) i p s) as [brk s1|f s1].
  2:{ (* the iteration faults *)
      destruct Hit as [Ht|(call & wb & Hc & Hf & Hw & Ht)].
      - exists [], []. cbn. rewrite app_nil_r.
        repeat split; try constructor; auto.
      - eexists [], _.
        cbn [post map concat app]. split; [exact Ht|].
        split; [constructor|]. split; [constructor|]. split; [constructor|].
        right. exists i.
        split; [lia|]. split; [|constructor].
        eexists _, call, wb. repeat (split; [eassumption|]). reflexivity. }
  destruct Hit as [HI1 Hit].
  replace (Z.to_nat i + 1)%nat with (Z.to_nat (i + 1)) in * by lia.
  replace (S (Z.to_nat i)) with (Z.to_nat (i + 1)) in Hdrop' by lia.
  destruct Hit as [(-> & Hne & Ht & Hc & Hm)|(Hran & Hb & Hc & Hv)].
  - (* no batch closes *)
    destruct (IH (i + 1) s1 HI1 ltac:(lia) Hdrop')
      as (bl & partial & Htr & Hok & Hsort & Hres).
    assert (Hlo : Forall (fun b => i < b_i b) bl).
    { eapply Forall_impl; [exact Hok|]. intros b Hb. destruct Hb; lia. }
    assert (Hok' : Forall (batchOK a pb sch (f_sCancel s) i) bl).
    { rewrite Forall_forall in Hok, Hlo |- *. intros b Hb.
      apply batchOK_shift; [apply Hlo, Hb|]. rewrite <- Hc. apply Hok, Hb. }
    exists bl, partial. split; [rewrite Htr, Ht; reflexivity|].
    split; [exact Hok'|]. split; [exact Hsort|].
    destruct (bakeLoop a sch (numProbes pb) (i + 1) ps s1) as [[|] s'|f s'].
    + exact Hres.
    + destruct Hres as (-> & Hnc & Hlast & Hcat).
      split; [reflexivity|]. split; [exact Hnc|]. split.
      * intros _. apply Hlast. intros ->. cbn in HN. lia.
      * rewrite Hcat, Hm, <- app_assoc. f_equal. cbn [length].
        rewrite eligible_seqZ_cons, Hel. reflexivity.
    + destruct Hres as (Hnc & Hpart). split; [exact Hnc|].
      destruct Hpart as [->|(j & Hj & Hbr & Hlt)]; [left; reflexivity|].
      right. exists j. repeat split; try assumption; lia.
  - (* a batch closes and runs through *)
    destruct Hran as (call & wb & Hcl & Hcf & Hwb & Ht).
    set (members := pendingMembers s ++
                    (if probeValid (identifier a) p then [i] else [])) in *.
    set (b := {| b_i := i; b_members := members; b_call := call;
                 b_writes := wb; b_cancelled := brk |}) in *.
    assert (Hbok : batchOK a pb sch (f_sCancel s) i b).
    { refine (conj _ (conj Hcl (conj Hcf (conj Hwb _)))); cbn; [lia|].
      rewrite requested_one. exact Hb. }
    destruct brk.
    + exists [b], []. cbn [post map concat]. rewrite !app_nil_r.
      split; [exact Ht|]. split; [constructor; [exact Hbok|constructor]|].
      split; [repeat constructor|].
      repeat split; try assumption.
      exists [], b. repeat split; constructor.
    + destruct (IH (i + 1) s1 HI1 ltac:(lia) Hdrop')
        as (bl & partial & Htr & Hok & Hsort & Hres).
      assert (Hlo : Forall (fun b => i < b_i b) bl).
      { eapply Forall_impl; [exact Hok|]. intros b' Hb'. destruct Hb'; lia. }
      assert (Hok' : Forall (batchOK a pb sch (f_sCancel s) i) bl).
      { rewrite Forall_forall in Hok, Hlo |- *. intros b' Hb'.
        apply batchOK_shift; [apply Hlo, Hb'|].
        rewrite <- Hb. cbn. rewrite <- Hc. apply Hok, Hb'. }
      exists (b :: bl), partial.
      split.
      { rewrite Htr, Ht. cbn [map concat]. rewrite <- !app_assoc.
        reflexivity. }
      split; [constructor; assumption|].
      split.
      { cbn [map]. constructor; [exact Hsort|].
        apply Forall_map. exact Hlo. }
      assert (Hnil : ps = [] -> bl = []).
      { intros ->. destruct bl as [|b' bl]; [reflexivity|].
        apply Forall_inv in Hok. destruct Hok as [Hr _]. cbn in HN. lia. }
      assert (Hpend1 : pendingMembers s1 = []).
      { unfold pendingMembers. rewrite Hv. reflexivity. }
      destruct ps as [|p' ps'] eqn:Hps.
      * (* the probe was the last one *)
        rewrite (Hnil eq_refl) in *. cbn [bakeLoop ret] in *.
        destruct Hres as (-> & _ & _ & Hcat).
        split; [reflexivity|].
        split; [constructor; [reflexivity|constructor]|]. split.
        -- intros _. split; [|exact Hpend1]. cbn. f_equal. cbn in HN. lia.
        -- cbn [map concat b_members b]. rewrite Hpend1, !app_nil_r.
           subst members. cbn [length].
           rewrite (eligible_seqZ_cons a pb i 0), Hel. cbn.
           rewrite app_nil_r. reflexivity.
      * rewrite <- Hps in *.
        assert (Hne : ps <> []) by (rewrite Hps; discriminate).
        destruct (bakeLoop a sch (numProbes pb) (i + 1) ps s1)
          as [[|] s'|f s'].
        -- destruct Hres as (-> & Hc' & bl0 & b' & -> & Hb' & Hnc).
           repeat split; try assumption.
           exists (b :: bl0), b'. repeat split; try assumption.
           constructor; [reflexivity|exact Hnc].
        -- destruct Hres as (-> & Hnc & Hlast & Hcat).
           destruct (Hlast Hne) as [Hl Hpe].
           split; [reflexivity|].
           split; [constructor; [reflexivity|exact Hnc]|]. split.
           ++ intros _. split; [|exact Hpe]. cbn [map].
              destruct bl as [|b' bl]; [discriminate Hl|]. exact Hl.
           ++ cbn [map concat b_members b]. rewrite <- app_assoc, Hcat, Hpend1.
              subst members. cbn [app]. rewrite <- app_assoc. f_equal.
              cbn [length]. rewrite eligible_seqZ_cons, Hel.
              reflexivity.
        -- destruct Hres as (Hnc & Hpart).
           split; [constructor; [reflexivity|exact Hnc]|].
           destruct Hpart as [->|(j & Hj & Hbr & Hlt)]; [left; reflexivity|].
           right. exists j. repeat split; try assumption; try lia.
           constructor; [cbn; lia|exact Hlt].
Qed.

(** ** The call as a whole *)

Lemma HeadInv_enter a st :
  0 <= effectiveBatchSize a -> HeadInv a (probeBatch st) 0 (enter a st).
Proof.
  intros Hb. constructor; cbn; rewrite ?length_replicate; try reflexivity.
  - lia.
  - constructor.
Qed.

Lemma bake_unfold a sch st :
  preconditions a = true -> 0 <= effectiveBatchSize a ->
  bake a sch st =
    match loopResult a sch st with
    | Done brk s =>
        (leave a st false (if cancelAfter sch then requestCancel s else s),
         if brk then Cancelled else Completed)
    | Crash f s => (leave a st true s, Faulted f)
    end.
Proof.
  intros Hpre Hb. unfold bake. rewrite Hpre. cbn [negb].
  destruct (Z.ltb_spec (effectiveBatchSize a) 0); [lia|]. reflexivity.
Qed.

Lemma f_trace_requestCancel s : f_trace (requestCancel s) = f_trace s.
Proof. unfold requestCancel. destruct (f_sBakeInProgress s); reflexivity. Qed.

Lemma reflectionsData_requestCancel s :
  reflectionsData (requestCancel s) = reflectionsData s.
Proof. unfold requestCancel. destruct (f_sBakeInProgress s); reflexivity. Qed.

(** The events of a bake are those of its loop. *)
Lemma bake_trace a sch st :
  preconditions a = true -> 0 <= effectiveBatchSize a ->
  f_trace (post (loopResult a sch st)) = trace st ++ bakeEvents a sch st /\
  trace (bake a sch st).1 = f_trace (post (loopResult a sch st)).
Proof.
  intros Hpre Hb.
  destruct (logged_bakeLoop a sch (numProbes (probeBatch st))
              (mProbes (probeBatch st)) 0 (enter a st)) as [(evs & Ht & _) _].
  fold (loopResult a sch st) in Ht. cbn [enter f_trace] in Ht.
  assert (Htr : trace (bake a sch st).1 = f_trace (post (loopResult a sch st))).
  { rewrite bake_unfold by assumption.
    destruct (loopResult a sch st) as [brk s|f s]; cbn; [|reflexivity].
    destruct (cancelAfter sch); [apply f_trace_requestCancel|reflexivity]. }
  split; [|exact Htr].
  unfold bakeEvents. rewrite Htr, Ht, drop_app_length. reflexivity.
Qed.

Lemma bakeEvents_early a sch st :
  preconditions a = false \/ effectiveBatchSize a < 0 ->
  bakeEvents a sch st = [].
Proof.
  intros Hc. unfold bakeEvents, bake.
  destruct (preconditions a); cbn [negb].
  - destruct Hc as [Hc|Hc]; [discriminate|].
    destruct (Z.ltb_spec (effectiveBatchSize a) 0); [|lia].
    cbn. apply drop_all.
  - cbn. apply drop_all.
Qed.

(** The run of the loop inside a bake that got as far as the loop. *)
Lemma bake_run a sch st :
  preconditions a = true -> 0 <= effectiveBatchSize a ->
  loopRun a (probeBatch st) sch 0 (mProbes (probeBatch st)) (enter a st)
    (loopResult a sch st).
Proof.
  intros Hpre Hb. apply bakeLoop_run.
  - apply HeadInv_enter, Hb.
  - lia.
  - reflexivity.
Qed.

(** ** Projections of a run *)

Lemma simulateCalls_app l1 l2 :
  simulateCalls (l1 ++ l2) = simulateCalls l1 ++ simulateCalls l2.
Proof. apply omap_app. Qed.

Lemma progressReports_app l1 l2 :
  progressReports (l1 ++ l2) = progressReports l1 ++ progressReports l2.
Proof. apply omap_app. Qed.

Lemma writes_silent members wb :
  Forall (isWriteBack members) wb ->
  simulateCalls wb = [] /\ progressReports wb = [].
Proof.
  induction 1 as [|e wb He _ [IH1 IH2]]; [split; reflexivity|].
  destruct e; cbn in He; try contradiction; cbn; auto.
Qed.

Lemma simulateCalls_batch a N b :
  Forall (isWriteBack (b_members b)) (b_writes b) ->
  simulateCalls (batchEvents a N b) = [(b_i b, b_members b, b_call b)].
Proof.
  intros Hw. unfold batchEvents. rewrite !simulateCalls_app.
  rewrite (proj1 (writes_silent _ _ Hw)).
  destruct (callback a); reflexivity.
Qed.

Lemma progressReports_batch a N b :
  Forall (isWriteBack (b_members b)) (b_writes b) ->
  progressReports (batchEvents a N b) =
    if callback a then [(b_i b + 1, N)] else [].
Proof.
  intros Hw. unfold batchEvents. rewrite !progressReports_app.
  rewrite (proj2 (writes_silent _ _ Hw)).
  destruct (callback a); reflexivity.
Qed.

Lemma simulateCalls_batches a N bl :
  Forall (fun b => Forall (isWriteBack (b_members b)) (b_writes b)) bl ->
  simulateCalls (concat (map (batchEvents a N) bl)) = callsOf bl.
Proof.
  induction 1 as [|b bl Hb _ IH]; [reflexivity|].
  cbn [map concat callsOf]. rewrite simulateCalls_app, simulateCalls_batch, IH
    by assumption. reflexivity.
Qed.

Lemma progressReports_batches a N bl :
  Forall (fun b => Forall (isWriteBack (b_members b)) (b_writes b)) bl ->
  progressReports (concat (map (batchEvents a N) bl)) =
    if callback a then map (fun b => (b_i b + 1, N)) bl else [].
Proof.
  induction 1 as [|b bl Hb _ IH]; [destruct (callback a); reflexivity|].
  cbn [map concat]. rewrite progressReports_app, progressReports_batch, IH
    by assumption. destruct (callback a); reflexivity.
Qed.

Lemma batchOK_writes a pb sch c0 lo bl :
  Forall (batchOK a pb sch c0 lo) bl ->
  Forall (fun b => Forall (isWriteBack (b_members b)) (b_writes b)) bl.
Proof.
  intros Hok. eapply Forall_impl; [exact Hok|].
  intros b (_ & _ & _ & [Hw _] & _). exact Hw.
Qed.

Lemma simulateCalls_broken a pb j partial :
  brokenBatch a pb j partial ->
  exists members call,
    simulateCalls partial = [(j, members, call)] /\
    progressReports partial = [] /\
    closedBatch a pb j members /\ callFor a members call.
Proof.
  intros (members & call & wb & Hc & Hf & Hw & ->).
  exists members, call.
  rewrite simulateCalls_app, progressReports_app.
  rewrite (proj1 (writes_silent _ _ Hw)), (proj2 (writes_silent _ _ Hw)).
  cbn. auto.
Qed.

(** Every simulator call of a bake is for a closed batch and carries the
    arguments made for it. *)
Lemma bake_calls a sch st :
  Forall (fun c =>
            0 <= c.1.1 < numProbes (probeBatch st) /\
            closedBatch a (probeBatch st) c.1.1 c.1.2 /\
            callFor a c.1.2 c.2)
         (simulateCalls (bakeEvents a sch st)).
Proof.
  destruct (preconditions a) eqn:Hpre;
    [|rewrite bakeEvents_early by auto; constructor].
  destruct (Z.ltb_spec (effectiveBatchSize a) 0) as [Hneg|Hb];
    [rewrite bakeEvents_early by auto; constructor|].
  destruct (bake_run a sch st Hpre Hb) as (bl & partial & Htr & Hok & _ & Hres).
  destruct (bake_trace a sch st Hpre Hb) as [Ht _].
  rewrite Ht in Htr. cbn [enter f_trace] in Htr.
  apply app_inv_head in Htr. rewrite Htr, simulateCalls_app.
  rewrite simulateCalls_batches by (eapply batchOK_writes; exact Hok).
  apply Forall_app. split.
  - unfold callsOf. apply Forall_map. eapply Forall_impl; [exact Hok|].
    intros b (Hr & Hc & Hf & _). cbn. auto.
  - destruct (loopResult a sch st) as [[|] s'|f s'].
    + destruct Hres as (-> & _). constructor.
    + destruct Hres as (-> & _). constructor.
    + destruct Hres as (_ & [->|(j & Hj & Hbr & _)]); [constructor|].
      destruct (simulateCalls_broken _ _ _ _ Hbr)
        as (members & call & -> & _ & Hc & Hf).
      constructor; [|constructor]. cbn. auto.
Qed.

Lemma bake_shape a sch st :
  preconditions a = true -> 0 <= effectiveBatchSize a ->
  exists bl partial, bakeShape a sch st bl partial.
Proof.
  intros Hpre Hb.
  destruct (bake_run a sch st Hpre Hb)
    as (bl & partial & Htr & Hok & Hsort & Hres).
  destruct (bake_trace a sch st Hpre Hb) as [Ht _].
  rewrite Ht in Htr. cbn [enter f_trace] in Htr. apply app_inv_head in Htr.
  destruct (logged_bakeLoop a sch (numProbes (probeBatch st))
              (mProbes (probeBatch st)) 0 (enter a st)) as [_ Hp].
  fold (loopResult a sch st) in Hp. cbn [enter f_sBakeInProgress] in Hp.
  exists bl, partial. unfold bakeShape. cbn zeta.
  split; [exact Htr|]. split; [exact Hok|]. split; [exact Hsort|].
  rewrite bake_unfold by assumption.
  destruct (loopResult a sch st) as [[|] s|f s]; cbn [fst snd post] in *.
  - destruct Hres as (-> & Hc & Hex). split; [reflexivity|].
    split; [|exact Hex]. cbn. unfold requestCancel. rewrite Hp.
    destruct (cancelAfter sch); [reflexivity|exact Hc].
  - destruct Hres as (-> & Hnc & Hlast & Hcat).
    change (pendingMembers (enter a st)) with (@nil Z) in Hcat.
    cbn [app] in Hcat.
    split; [reflexivity|]. split; [exact Hnc|]. split.
    + intros Hne. apply Hlast, Hne.
    + unfold numProbes.
      destruct (mProbes (probeBatch st)) as [|p ps] eqn:Hps.
      * cbn in Hcat |- *. apply app_eq_nil in Hcat. apply Hcat.
      * destruct (Hlast ltac:(discriminate)) as [_ Hpe].
        rewrite Hpe, app_nil_r in Hcat. exact Hcat.
  - exact Hres.
Qed.

(** ** Bakes that do not fault *)

Lemma safe_ret n : safe n (ret tt).
Proof. intros s _ Hf. exists s. auto. Qed.

Lemma safe_bind n (m k : M unit) :
  safe n m -> safe n k -> safe n (m ;;; k).
Proof.
  intros Hm Hk s Hn Hf. rewrite bind_eq.
  destruct (Hm s Hn Hf) as (s1 & -> & Hf1 & Hv1).
  destruct (Hk s1 ltac:(congruence) Hf1) as (s2 & -> & Hf2 & Hv2).
  exists s2. split; [reflexivity|]. split; [assumption|congruence].
Qed.

Lemma safe_forEach n (js : list nat) (body : nat -> M unit) :
  (forall j, In j js -> safe n (body j)) -> safe n (forEach js body).
Proof.
  induction js as [|j js IH]; intros Hb; cbn [forEach].
  - apply safe_ret.
  - apply safe_bind; [apply Hb; left; reflexivity|].
    apply IH. intros j' Hj'. apply Hb. right. exact Hj'.
Qed.

Lemma safe_slots n (body : nat -> M unit) :
  (forall j, (j < n)%nat -> safe n (body j)) ->
  safe n (s <- get ;; forEach (slots (numValidInBatch s)) body).
Proof.
  intros Hb s Hn Hf. rewrite bind_eq. cbn [get]. unfold slots. rewrite Hn.
  apply (safe_forEach n (seq 0 n) body); try assumption.
  intros j Hj. apply Hb. apply in_seq in Hj. lia.
Qed.

Lemma safe_copyBack n j : (j < n)%nat -> safe n (copyBack j).
Proof.
  intros Hj s Hn Hf. destruct (Hf j ltac:(lia)) as [(f & Hfj) _].
  unfold copyBack, bind, derefEnergyField, get, setEnergyFields, emit.
  rewrite Hfj. frame_simpl. eexists. split; [reflexivity|].
  split; [|reflexivity]. intros j' Hj'.
  cbn [energyFields indices numValidInBatch] in *.
  destruct (Hf j' Hj') as [(f' & Hf') Hi']. split; [|exact Hi'].
  destruct (decide (j = j')) as [<-|Hne].
  - rewrite list_lookup_insert_eq by (eapply lookup_lt_Some; eassumption).
    eauto.
  - rewrite list_lookup_insert_ne by assumption. eauto.
Qed.

Lemma safe_storeReverb n j : (j < n)%nat -> safe n (storeReverb j).
Proof.
  intros Hj s Hn Hf. destruct (Hf j ltac:(lia)) as [(f & Hfj) (index & Hij)].
  unfold storeReverb, bind, derefEnergyField, readIndex, emit.
  rewrite Hfj, Hij. eexists. split; [reflexivity|].
  split; [exact Hf|reflexivity].
Qed.

Lemma safe_storeEnergyField n a j :
  (j < n)%nat -> float_eq (simDuration a) (bakeDuration a) = false ->
  safe n (storeEnergyField a j).
Proof.
  intros Hj Hne s Hn Hf.
  destruct (Hf j ltac:(lia)) as [(f & Hfj) (index & Hij)].
  unfold storeEnergyField, takeEnergyField, bind, derefEnergyField,
    readIndex, emit, ret.
  rewrite Hne. cbv beta. rewrite Hfj. cbv beta iota. rewrite Hij.
  frame_simpl. rewrite Hfj. cbv beta iota. frame_simpl. rewrite Hij.
  eexists. split; [reflexivity|]. split; [exact Hf|reflexivity].
Qed.

Lemma safe_deviceToHost n a : safe n (deviceToHost a).
Proof.
  unfold deviceToHost. destruct (_ && _); [|apply safe_ret].
  apply safe_slots. intros j Hj. apply safe_copyBack, Hj.
Qed.

Lemma safe_fixed_slots n s0 (body : nat -> M unit) :
  Z.to_nat (numValidInBatch s0) = n ->
  (forall j, (j < n)%nat -> safe n (body j)) ->
  safe n (forEach (slots (numValidInBatch s0)) body).
Proof.
  intros Hn Hb. unfold slots. rewrite Hn. apply safe_forEach.
  intros j Hj. apply Hb. apply in_seq in Hj. lia.
Qed.

Lemma safe_writeBack n a : noMove a = true -> safe n (writeBack a).
Proof.
  intros Hnm s Hn Hf. unfold writeBack. rewrite bind_eq. cbn [get].
  apply (safe_bind n
           (if bakeParametric a
            then forEach (slots (numValidInBatch s)) storeReverb
            else ret tt)
           (if bakeConvolution a
            then forEach (slots (numValidInBatch s)) (storeEnergyField a)
            else ret tt)); [| |exact Hn|exact Hf].
  - destruct (bakeParametric a); [|apply safe_ret].
    apply safe_fixed_slots; [assumption|].
    intros j Hj. apply safe_storeReverb, Hj.
  - unfold noMove in Hnm. destruct (bakeConvolution a); [|apply safe_ret].
    cbn in Hnm. apply negb_true_iff in Hnm.
    apply safe_fixed_slots; [assumption|].
    intros j Hj. apply safe_storeEnergyField; assumption.
Qed.

Lemma safe_simulateBatch n a i : safe n (simulateBatch a i).
Proof.
  intros s Hn Hf.
  unfold simulateBatch, bind, get, emit, setSimulator, setEnergyFields.
  frame_simpl. eexists. split; [reflexivity|]. split; [|reflexivity].
  intros j Hj. cbn [energyFields indices numValidInBatch] in *.
  destruct (Hf j Hj) as [(f & Hfj) Hi]. split; [|exact Hi].
  unfold runJobGraph. rewrite list_lookup_imap, Hfj. cbn [fmap option_fmap
    option_map].
  destruct (j <? Z.to_nat (numValidInBatch s))%nat; cbn; eauto.
Qed.

(** A closed batch with all its slots filled runs through when no energy
    field is moved away. *)
Lemma dispatch_safe a N i s :
  noMove a = true -> Filled s ->
  exists brk s', dispatch a N i s = Done brk s'.
Proof.
  intros Hnm Hf. unfold dispatch. rewrite bind_eq.
  set (n := Z.to_nat (numValidInBatch s)).
  destruct (safe_simulateBatch n a i s eq_refl Hf) as (s1 & -> & Hf1 & Hv1).
  rewrite bind_eq.
  destruct (safe_deviceToHost n a s1 ltac:(subst n; congruence) Hf1)
    as (s2 & -> & Hf2 & Hv2).
  rewrite bind_eq.
  destruct (safe_writeBack n a Hnm s2 ltac:(subst n; congruence) Hf2)
    as (s3 & -> & Hf3 & Hv3).
  unfold reportAndCheck, setNumValidInBatch, bind, get, emit, setCancel, ret.
  destruct (callback a); frame_simpl; destruct (f_sCancel s3); eauto.
Qed.

Lemma Filled_enqueue a i sl s s1 :
  Filled s -> 0 <= numValidInBatch s ->
  length (energyFields s) = length (sources s) ->
  length (indices s) = length (sources s) ->
  enqueue a i sl s = Done tt s1 -> Filled s1.
Proof.
  intros Hf H0 He Hi. unfold enqueue.
  destruct (Nat.ltb_spec (Z.to_nat (numValidInBatch s)) (length (sources s)))
    as [Hlt|]; [|discriminate].
  intros Hd. injection Hd as <-. intros j Hj.
  cbn [energyFields indices numValidInBatch] in *.
  destruct (decide (j = Z.to_nat (numValidInBatch s))) as [->|Hne].
  - rewrite !list_lookup_insert_eq by lia. eauto.
  - rewrite !list_lookup_insert_ne by auto. apply Hf. lia.
Qed.

Lemma Filled_requestCancel s : Filled s -> Filled (requestCancel s).
Proof.
  unfold requestCancel. destruct (f_sBakeInProgress s); intros Hf; exact Hf.
Qed.

Lemma iteration_safe a sch pb i p s :
  noMove a = true -> 1 <= effectiveBatchSize a ->
  HeadInv a pb i s -> Filled s ->
  exists brk s',
    iteration a sch (numProbes pb) i p s = Done brk s' /\
    (brk = false -> Filled s').
Proof.
  intros Hnm Hbs HI Hf. unfold iteration. rewrite bind_eq.
  set (s0 := if cancelDuring sch i then requestCancel s else s).
  assert (Hs0 : (if cancelDuring sch i then cancelRequest else ret tt) s
                = Done tt s0)
    by (subst s0; destruct (cancelDuring sch i); reflexivity).
  assert (HI0 : HeadInv a pb i s0)
    by (subst s0; destruct (cancelDuring sch i);
        [apply HeadInv_requestCancel|]; exact HI).
  assert (Hf0 : Filled s0)
    by (subst s0; destruct (cancelDuring sch i);
        [apply Filled_requestCancel|]; exact Hf).
  rewrite Hs0. clearbody s0. clear Hs0 HI Hf s.
  destruct HI0 as [Hs Hl He Hi H0 Hhi Hm Hp].
  unfold loopBody. rewrite bind_eq.
  assert (Hstep : exists s1,
            match probeEndpoints (identifier a) p with
            | Some sl => enqueue a i sl
            | None => ret tt
            end s0 = Done tt s1 /\ Filled s1).
  { destruct (probeEndpoints (identifier a) p) as [sl|]; [|eauto].
    destruct (enqueue a i sl s0) as [[] s1|f s1] eqn:Henq.
    - exists s1. split; [reflexivity|].
      eapply Filled_enqueue; try eassumption; congruence.
    - exfalso. unfold enqueue in Henq.
      destruct (Nat.ltb_spec (Z.to_nat (numValidInBatch s0))
                  (length (sources s0))); [discriminate|lia]. }
  destruct Hstep as (s1 & -> & Hf1). rewrite bind_eq. cbn [get].
  destruct (_ || _).
  - destruct (dispatch_safe a (numProbes pb) i s1 Hnm Hf1) as (brk & s' & Hd).
    exists brk, s'. split; [exact Hd|]. intros ->.
    assert (Hv : numValidInBatch s' = 0).
    { revert Hd. unfold dispatch, reportAndCheck, setNumValidInBatch, bind,
        get, emit, setCancel, ret.
      destruct (simulateBatch a i s1) as [[] x1|]; [|discriminate].
      destruct (deviceToHost a x1) as [[] x2|]; [|discriminate].
      destruct (writeBack a x2) as [[] x3|]; [|discriminate].
      destruct (callback a); frame_simpl; destruct (f_sCancel x3);
        intros Hd; first [discriminate Hd|injection Hd as <-; reflexivity]. }
    intros j Hj. rewrite Hv in Hj. cbn in Hj. lia.
  - exists false, s1. auto.
Qed.

Lemma bakeLoop_safe a sch pb :
  noMove a = true -> 1 <= effectiveBatchSize a ->
  forall ps i s,
    HeadInv a pb i s -> Filled s -> 0 <= i ->
    drop (Z.to_nat i) (mProbes pb) = ps ->
    exists brk s', bakeLoop a sch (numProbes pb) i ps s = Done brk s'.
Proof.
  intros Hnm Hbs. induction ps as [|p ps IH]; intros i s HI Hf Hi0 Hdrop.
  - cbn. eauto.
  - destruct (drop_cons_inv _ _ _ _ Hdrop) as [Hp Hdrop'].
    cbn [bakeLoop]. rewrite bind_eq.
    destruct (iteration_safe a sch pb i p s Hnm Hbs HI Hf)
      as (brk & s1 & Hit & Hf1).
    pose proof (iteration_spec a sch pb i p s HI Hi0 Hp) as Hspec.
    cbn zeta in Hspec. rewrite Hit in Hspec. rewrite Hit.
    destruct brk; [cbn; eauto|].
    destruct Hspec as [HI1 _].
    apply (IH (i + 1) s1 HI1 (Hf1 eq_refl)); [lia|].
    replace (Z.to_nat (i + 1)) with (S (Z.to_nat i)) by lia. exact Hdrop'.
Qed.

(** A bake of at least one probe per batch that moves no energy field
    away does not fault. *)
Lemma bake_no_fault a sch st :
  preconditions a = true -> noMove a = true -> 1 <= effectiveBatchSize a ->
  isFault (bake a sch st).2 = false.
Proof.
  intros Hpre Hnm Hbs. rewrite bake_unfold by (auto; lia).
  destruct (bakeLoop_safe a sch (probeBatch st) Hnm Hbs
              (mProbes (probeBatch st)) 0 (enter a st)) as (brk & s' & Hl).
  - apply HeadInv_enter. lia.
  - intros j Hj. cbn in Hj. lia.
  - lia.
  - reflexivity.
  - unfold loopResult. rewrite Hl. destruct brk; reflexivity.
Qed.

(** ** The diagnostic file when the energy field is moved *)

#[local] Instance noFile_refl : Reflexive noFile.
Proof. intros s. exists []. rewrite app_nil_r. split; constructor. Qed.

#[local] Instance noFile_trans : Transitive noFile.
Proof.
  intros s1 s2 s3 (e1 & Ht1 & H1) (e2 & Ht2 & H2). exists (e1 ++ e2).
  rewrite Ht2, Ht1, app_assoc. split; [reflexivity|].
  apply Forall_app. auto.
Qed.

Lemma noFile_silent s s' : f_trace s' = f_trace s -> noFile s s'.
Proof. intros Ht. exists []. rewrite app_nil_r. split; [exact Ht|constructor]. Qed.

Lemma noFile_emit e : notWriteFile e -> always noFile (emit e).
Proof.
  intros He s. exists [e]. split; [reflexivity|]. constructor; [exact He|].
  constructor.
Qed.

Lemma noFile_storeReverb j : always noFile (storeReverb j).
Proof.
  intros s. unfold storeReverb, bind, derefEnergyField, readIndex.
  destruct (energyFields s !! j) as [[f|]|]; try apply reflexivity.
  destruct (indices s !! j); [|apply reflexivity].
  apply noFile_emit. exact I.
Qed.

Lemma noFile_copyBack j : always noFile (copyBack j).
Proof.
  intros s. unfold copyBack, bind, derefEnergyField, get, setEnergyFields.
  destruct (energyFields s !! j) as [[f|]|]; try apply reflexivity.
  exists [EvCopyDeviceToHost j]. split; [reflexivity|]. repeat constructor.
Qed.

(** With equal durations the field is moved to storage and the read of its
    impulse response, through the emptied pointer, faults: the file is not
    written. *)
Lemma noFile_storeEnergyField a j :
  float_eq (simDuration a) (bakeDuration a) = true ->
  always noFile (storeEnergyField a j).
Proof.
  intros Heq s.
  unfold storeEnergyField, takeEnergyField, bind, readIndex,
    derefEnergyField, emit, get, setEnergyFields, ret, fail.
  rewrite Heq. cbv beta.
  destruct (energyFields s !! j) as [p|] eqn:Hf; frame_simpl;
    [|apply reflexivity].
  destruct (indices s !! j) as [index|]; frame_simpl;
    [|apply noFile_silent; reflexivity].
  rewrite list_lookup_insert_eq by (eapply lookup_lt_Some; eassumption).
  frame_simpl. exists [EvSetEnergyField index p].
  split; [reflexivity|]. repeat constructor.
Qed.

Lemma noFile_dispatch a N i :
  float_eq (simDuration a) (bakeDuration a) = true ->
  always noFile (dispatch a N i).
Proof.
  intros Heq. unfold dispatch.
  apply always_bind; [exact _| |intros _].
  { intros s. destruct (simulateBatch_spec a i s)
      as (call & s1 & -> & Ht & _). cbn [post]. eexists. split; [exact Ht|].
    repeat constructor. }
  apply always_bind; [exact _| |intros _].
  { unfold deviceToHost. destruct (_ && _); [|apply always_ret; exact _].
    apply always_bind; [exact _|apply always_get; exact _|intros s0].
    apply always_forEach; try exact _. intros j _. apply noFile_copyBack. }
  apply always_bind; [exact _| |intros _].
  { unfold writeBack.
    apply always_bind; [exact _|apply always_get; exact _|intros s0].
    apply always_bind; [exact _| |intros _].
    - destruct (bakeParametric a); [|apply always_ret; exact _].
      apply always_forEach; try exact _. intros j _. apply noFile_storeReverb.
    - destruct (bakeConvolution a); [|apply always_ret; exact _].
      apply always_forEach; try exact _. intros j _.
      apply noFile_storeEnergyField, Heq. }
  apply always_bind; [exact _| |intros _].
  { intros s. apply noFile_silent. reflexivity. }
  unfold reportAndCheck.
  apply always_bind; [exact _| |intros _].
  { destruct (callback a); [|apply always_ret; exact _].
    apply noFile_emit. exact I. }
  apply always_bind; [exact _|apply always_get; exact _|intros s0].
  apply always_bind; [exact _|apply noFile_emit; exact I|intros _].
  destruct (f_sCancel s0); [|apply always_ret; exact _].
  apply always_bind; [exact _| |intros _; apply always_ret; exact _].
  intros s. apply noFile_silent. reflexivity.
Qed.

Lemma noFile_bakeLoop a sch N ps :
  float_eq (simDuration a) (bakeDuration a) = true ->
  forall i, always noFile (bakeLoop a sch N i ps).
Proof.
  intros Heq. induction ps as [|p ps IH]; intros i; cbn [bakeLoop].
  - apply always_ret; exact _.
  - apply always_bind; [exact _| |intros [|]].
    + unfold iteration. apply always_bind; [exact _| |intros _].
      * destruct (cancelDuring sch i); [|apply always_ret; exact _].
        intros s. apply noFile_silent, f_trace_requestCancel.
      * unfold loopBody. apply always_bind; [exact _| |intros _].
        -- destruct (probeEndpoints _ p); [|apply always_ret; exact _].
           intros s. unfold enqueue. destruct (_ <? _)%nat;
             apply noFile_silent; reflexivity.
        -- apply always_bind; [exact _|apply always_get; exact _|intros s0].
           destruct (_ || _); [apply noFile_dispatch, Heq|].
           apply always_ret; exact _.
    + apply always_ret; exact _.
    + apply IH.
Qed.

(** When the simulated and the stored duration are equal, a bake writes no
    diagnostic file at all. *)
Lemma moved_field_writes_no_file a sch st :
  float_eq (simDuration a) (bakeDuration a) = true ->
  Forall notWriteFile (bakeEvents a sch st).
Proof.
  intros Heq.
  destruct (preconditions a) eqn:Hpre;
    [|rewrite bakeEvents_early by auto; constructor].
  destruct (Z.ltb_spec (effectiveBatchSize a) 0) as [Hneg|Hb];
    [rewrite bakeEvents_early by auto; constructor|].
  destruct (noFile_bakeLoop a sch (numProbes (probeBatch st))
              (mProbes (probeBatch st)) Heq 0 (enter a st)) as (evs & Ht & Hn).
  fold (loopResult a sch st) in Ht.
  destruct (bake_trace a sch st Hpre Hb) as [Ht' _].
  rewrite Ht' in Ht. cbn [enter f_trace] in Ht. apply app_inv_head in Ht.
  rewrite Ht. exact Hn.
Qed.

(** Lines 226-238 on their own: with equal durations the pointer held by
    the batch slot is handed over as it is and the slot is left empty;
    otherwise a new field of the stored duration and the same order
    receives the content of the simulated field, which stays in its slot
    and is not stored. *)
Lemma takeEnergyField_spec a j s f :
  energyFields s !! j = Some (Some f) ->
  if float_eq (simDuration a) (bakeDuration a) then
    exists s', takeEnergyField a j s = Done (Some f) s' /\
               energyFields s' = <[j := None]> (energyFields s) /\
               f_trace s' = f_trace s
  else
    takeEnergyField a j s =
      Done (Some (copyFrom (EnergyField_new (bakeDuration a) (order a)) f)) s.
Proof.
  intros Hf. unfold takeEnergyField, bind, get, setEnergyFields,
    derefEnergyField, ret.
  destruct (float_eq _ _); rewrite Hf; [|reflexivity].
  eexists. repeat split.
Qed.

(** * The claims *)

Lemma effectiveBatchSize_eq a :
  effectiveBatchSize a = if oneAtATime a then 1 else bakeBatchSize a.
Proof. reflexivity. Qed.

Lemma endpointCounts_eq st v k :
  endpointCounts st v k =
    if SceneType.eqb st SceneType.RadeonRays then
      match v with
      | BakedDataVariation.StaticSource => (1, k)
      | BakedDataVariation.StaticListener => (k, 1)
      | BakedDataVariation.Reverb => (k, k)
      | BakedDataVariation.Dynamic => (k, 1)
      end
    else (k, 1).
Proof. unfold endpointCounts. destruct (SceneType.eqb _ _), v; reflexivity. Qed.

Lemma closedBatch_eligible a pb i members :
  closedBatch a pb i members ->
  Forall (fun index => eligible a pb index = true) members.
Proof.
  intros (Hall & _). eapply Forall_impl; [exact Hall|]. intros x [_ Hx].
  exact Hx.
Qed.

Lemma bake_early_outcome a sch st :
  preconditions a = false \/ effectiveBatchSize a < 0 ->
  isFault (bake a sch st).2 = true.
Proof.
  intros Hc. unfold bake. destruct (preconditions a); cbn [negb].
  - destruct Hc as [Hc|Hc]; [discriminate|].
    destruct (Z.ltb_spec (effectiveBatchSize a) 0); [reflexivity|lia].
  - reflexivity.
Qed.

Lemma completed_started a sch st :
  isFault (bake a sch st).2 = false ->
  preconditions a = true /\ 0 <= effectiveBatchSize a.
Proof.
  intros Hnf. destruct (preconditions a) eqn:Hpre.
  - split; [reflexivity|].
    destruct (Z.ltb_spec (effectiveBatchSize a) 0) as [Hneg|Hb]; [|exact Hb].
    rewrite bake_early_outcome in Hnf by auto. discriminate.
  - rewrite bake_early_outcome in Hnf by auto. discriminate.
Qed.

(** Lines 170-258 make one simulator call, the first thing they do, and
    no other, whatever the batch arrays hold and whether the write-back
    faults or not. *)
Lemma dispatch_call a N i s :
  exists call rest,
    f_trace (post (dispatch a N i s)) =
      f_trace s ++
      EvJobGraphReset :: EvSimulate i (pendingMembers s) call :: EvProcess
        :: rest /\
    simulateCalls rest = [] /\
    (sc_numSources call, sc_numListeners call) =
      endpointCounts (sceneType a) (variation (identifier a))
        (numValidInBatch s).
Proof.
  destruct (simulateBatch_spec a i s)
    as (call & s1 & Hsim & Ht1 & Hcnt & _ & _ & _ & _ & _
        & _ & _ & _ & _ & Hi1 & Hv1 & _).
  set (n := Z.to_nat (numValidInBatch s)).
  assert (Hn1 : Z.to_nat (numValidInBatch s1) = n) by (rewrite Hv1; reflexivity).
  unfold dispatch. rewrite bind_eq, Hsim. rewrite bind_eq.
  destruct (writesBack_deviceToHost n a s1 Hn1)
    as (_ & _ & _ & _ & Hi2 & Hv2 & _ & wb1 & Ht2 & Hw1).
  apply writes_silent in Hw1. destruct Hw1 as [Hw1 _].
  destruct (deviceToHost a s1) as [[] s2|f s2]; cbn [post] in *.
  2:{ exists call, wb1. split; [|split; assumption].
      rewrite Ht2, Ht1, <- app_assoc. reflexivity. }
  assert (Hn2 : Z.to_nat (numValidInBatch s2) = n) by congruence.
  rewrite bind_eq.
  destruct (writesBack_writeBack n a s2 Hn2)
    as (_ & _ & _ & _ & _ & _ & _ & wb2 & Ht3 & Hw2).
  apply writes_silent in Hw2. destruct Hw2 as [Hw2 _].
  destruct (writeBack a s2) as [[] s3|f s3]; cbn [post] in *.
  2:{ exists call, (wb1 ++ wb2). split; [|split; [|assumption]].
      - rewrite Ht3, Ht2, Ht1, <- !app_assoc. reflexivity.
      - rewrite simulateCalls_app, Hw1, Hw2. reflexivity. }
  exists call,
    (wb1 ++ wb2 ++
     (if callback a then [EvProgress (i + 1) N] else []) ++
     [EvCancelCheck (f_sCancel s3)]).
  split; [|split; [|assumption]].
  - unfold reportAndCheck, setNumValidInBatch, bind, get, emit, setCancel, ret.
    destruct (callback a); frame_simpl; destruct (f_sCancel s3);
      frame_simpl; rewrite Ht3, Ht2, Ht1, <- !app_assoc; reflexivity.
  - rewrite !simulateCalls_app, Hw1, Hw2.
    destruct (callback a); reflexivity.
Qed.

(** C5: every closed batch makes one simulator call.  With k the number
    of probes in the batch (numValidInBatch at line 168), the call has
    numSources = k and numListeners = 1, except on the GPU backend
    (RadeonRays), where StaticSource gives (1, k), StaticListener gives
    (k, 1) and Reverb gives (k, k).  In a bake the members of every call
    are eligible probes of the probe batch, and k is their number; in a
    bake that runs to completion every eligible probe is a member of
    exactly one call, in probe order. *)
Theorem endpoint_counts_per_batch (a : BakeArgs) (sch : Schedule) (st : State) :
  (forall N i s,
     let k := numValidInBatch s in
     exists call rest,
       f_trace (post (dispatch a N i s)) =
         f_trace s ++
         EvJobGraphReset :: EvSimulate i (pendingMembers s) call :: EvProcess
           :: rest /\
       simulateCalls rest = [] /\
       (sc_numSources call, sc_numListeners call) =
         if SceneType.eqb (sceneType a) SceneType.RadeonRays then
           match variation (identifier a) with
           | BakedDataVariation.StaticSource => (1, k)
           | BakedDataVariation.StaticListener => (k, 1)
           | BakedDataVariation.Reverb => (k, k)
           | BakedDataVariation.Dynamic => (k, 1)
           end
         else (k, 1)) /\
  Forall (fun c =>
            let k := Z.of_nat (length c.1.2) in
            Forall (fun index => eligible a (probeBatch st) index = true)
                   c.1.2 /\
            (sc_numSources c.2, sc_numListeners c.2) =
              if SceneType.eqb (sceneType a) SceneType.RadeonRays then
                match variation (identifier a) with
                | BakedDataVariation.StaticSource => (1, k)
                | BakedDataVariation.StaticListener => (k, 1)
                | BakedDataVariation.Reverb => (k, k)
                | BakedDataVariation.Dynamic => (k, 1)
                end
              else (k, 1))
         (simulateCalls (bakeEvents a sch st)) /\
  ((bake a sch st).2 = Completed ->
   concat (map (fun c => c.1.2) (simulateCalls (bakeEvents a sch st))) =
     filter (fun index => eligible a (probeBatch st) index = true)
            (seqZ 0 (numProbes (probeBatch st)))).
Proof.
  split.
  { intros N i s k.
    destruct (dispatch_call a N i s) as (call & rest & Ht & Hr & Hc).
    exists call, rest. rewrite <- endpointCounts_eq. auto. }
  split.
  2:{ intros Hdone.
      destruct (completed_started a sch st) as [Hpre Hb];
        [rewrite Hdone; reflexivity|].
      destruct (bake_shape a sch st Hpre Hb) as (bl & partial & Hsh).
      destruct Hsh as (Hev & Hok & _ & Hres). rewrite Hdone in Hres.
      destruct Hres as (-> & _ & _ & Hcat). rewrite app_nil_r in Hev.
      rewrite Hev, simulateCalls_batches by (eapply batchOK_writes, Hok).
      unfold callsOf. rewrite !map_map. exact Hcat. }
  eapply Forall_impl; [apply bake_calls|].
  intros [[i members] call] (_ & Hc & Hf & _). cbn in *. split.
  - eapply closedBatch_eligible, Hc.
  - rewrite Hf. apply endpointCounts_eq.
Qed.

(** C3 (amended): on the CPU backend with a variation other than
    StaticListener every simulator call processes at most one eligible
    probe: exactly one, the probe of the iteration, when that probe is
    eligible, and none when the call is made at the last probe and that
    probe is not eligible.  On the GPU backend, or with StaticListener, a
    call processes up to bakeBatchSize eligible probes, the batch closing
    when it reaches bakeBatchSize or at the last probe. *)
Theorem batching_law (a : BakeArgs) (sch : Schedule) (st : State) :
  Forall (fun c =>
            Forall (fun index => eligible a (probeBatch st) index = true)
                   c.1.2 /\
            if oneAtATime a then
              (c.1.2 = [c.1.1] /\ eligible a (probeBatch st) c.1.1 = true) \/
              (c.1.2 = [] /\ eligible a (probeBatch st) c.1.1 = false /\
               c.1.1 = numProbes (probeBatch st) - 1)
            else
              Z.of_nat (length c.1.2) <= bakeBatchSize a /\
              (Z.of_nat (length c.1.2) = bakeBatchSize a \/
               c.1.1 = numProbes (probeBatch st) - 1))
         (simulateCalls (bakeEvents a sch st)).
Proof.
  eapply Forall_impl; [apply bake_calls|].
  intros [[i members] call] (_ & Hc & _). cbn [fst snd] in *.
  split; [eapply closedBatch_eligible, Hc|].
  destruct Hc as (_ & Hle & Hfull & Hlast).
  rewrite effectiveBatchSize_eq in Hle, Hfull, Hlast.
  destruct (oneAtATime a); [|auto].
  destruct (eligible a (probeBatch st) i).
  - left. split; [|reflexivity].
    destruct members as [|x [|y members]]; cbn in *; try discriminate; try lia.
    congruence.
  - right. destruct members as [|x members]; cbn in *; [|lia].
    repeat split. lia.
Qed.

(** ** The baked data of a bake *)

Lemma lookupData_putData id d l :
  lookupData id l <> None -> lookupData id (putData id d l) = Some d.
Proof.
  induction l as [|[k v] l IH]; cbn; [congruence|].
  destruct (decide (k = id)) as [->|Hne]; cbn.
  - destruct (decide (id = id)); congruence.
  - destruct (decide (k = id)); [congruence|]. exact IH.
Qed.

Lemma lookupData_putData_ne id id' d l :
  id' <> id -> lookupData id' (putData id d l) = lookupData id' l.
Proof.
  intros Hne. induction l as [|[k v] l IH]; cbn; [reflexivity|].
  destruct (decide (k = id)) as [->|Hk]; cbn.
  - destruct (decide (id = id')); [congruence|reflexivity].
  - destruct (decide (k = id')); [reflexivity|exact IH].
Qed.

Lemma keys_putData id d l : map fst (putData id d l) = map fst l.
Proof.
  induction l as [|[k v] l IH]; cbn; [reflexivity|].
  destruct (decide (k = id)); cbn; congruence.
Qed.

Lemma lookupData_ensureData a pb :
  lookupData (identifier a) (mData (ensureData a pb)) =
    Some (match lookupData (identifier a) (mData pb) with
          | Some d => d
          | None => newBakedReflectionsData (numProbes pb)
                      (bakeConvolution a) (bakeParametric a)
          end).
Proof.
  unfold ensureData, hasData.
  destruct (lookupData (identifier a) (mData pb)) as [d|] eqn:Hl.
  - exact Hl.
  - cbn. destruct (decide (identifier a = identifier a)); congruence.
Qed.

Lemma lookupData_leave a st b s :
  lookupData (identifier a) (mData (probeBatch (leave a st b s))) =
    Some (reflectionsData s).
Proof.
  cbn. apply lookupData_putData. rewrite lookupData_ensureData. discriminate.
Qed.

(** The data of the identifier after a bake is the data it started from
    with the calls of the bake applied in order: nothing is undone. *)
Lemma bake_data a sch st :
  preconditions a = true ->
  lookupData (identifier a) (mData (probeBatch (bake a sch st).1)) =
    Some (replay (bakeEvents a sch st) (targetData a (probeBatch st))).
Proof.
  intros Hpre.
  destruct (Z.ltb_spec (effectiveBatchSize a) 0) as [Hneg|Hb].
  - rewrite bakeEvents_early by auto. unfold bake. rewrite Hpre. cbn [negb].
    destruct (Z.ltb_spec (effectiveBatchSize a) 0); [|lia].
    cbn [fst]. rewrite lookupData_leave. reflexivity.
  - destruct (logged_bakeLoop a sch (numProbes (probeBatch st))
                (mProbes (probeBatch st)) 0 (enter a st))
      as [(evs & Ht & Hd) _].
    fold (loopResult a sch st) in Ht, Hd.
    destruct (bake_trace a sch st Hpre Hb) as [Ht' _].
    rewrite Ht' in Ht. cbn [enter f_trace] in Ht. apply app_inv_head in Ht.
    subst evs. cbn [enter reflectionsData] in Hd.
    rewrite bake_unfold by assumption.
    destruct (loopResult a sch st) as [brk s|f s]; cbn [fst post] in *;
      rewrite lookupData_leave; [|congruence].
    destruct (cancelAfter sch);
      rewrite ?reflectionsData_requestCancel; congruence.
Qed.

Lemma replay_cons e evs d :
  replay (e :: evs) d = replay evs (applyEvent e d).
Proof. reflexivity. Qed.

Lemma replay_flags evs d :
  mHasConvolution (replay evs d) = mHasConvolution d /\
  mHasParametric (replay evs d) = mHasParametric d.
Proof.
  revert d. induction evs as [|e evs IH]; intros d; [split; reflexivity|].
  rewrite replay_cons. destruct (IH (applyEvent e d)) as [-> ->].
  destruct e; split; reflexivity.
Qed.

Lemma replay_reverbUntouched n evs d :
  reverbUntouched n evs ->
  mReverbs (replay evs d) !! n = mReverbs d !! n.
Proof.
  revert d. induction evs as [|e evs IH]; intros d Hun; [reflexivity|].
  rewrite replay_cons.
  rewrite IH by (intros index r Hin; apply (Hun index r); right; exact Hin).
  destruct e; try reflexivity. cbn.
  apply list_lookup_insert_ne. apply (Hun index r). left. reflexivity.
Qed.

Lemma replay_energyFieldUntouched n evs d :
  energyFieldUntouched n evs ->
  mEnergyFields (replay evs d) !! n = mEnergyFields d !! n.
Proof.
  revert d. induction evs as [|e evs IH]; intros d Hun; [reflexivity|].
  rewrite replay_cons.
  rewrite IH by (intros index r Hin; apply (Hun index r); right; exact Hin).
  destruct e; try reflexivity. cbn.
  apply list_lookup_insert_ne. apply (Hun index f). left. reflexivity.
Qed.

Lemma targetData_slots a pb :
  let d := targetData a pb in
  (forall n, mjoin (mReverbs d !! n) =
             storedReverb pb (identifier a) (Z.of_nat n)) /\
  (forall n, mjoin (mEnergyFields d !! n) =
             storedEnergyField pb (identifier a) (Z.of_nat n)).
Proof.
  unfold targetData, storedReverb, storedEnergyField, reverbAt, energyFieldAt.
  destruct (lookupData (identifier a) (mData pb)) as [d|]; cbn;
    split; intros n; rewrite ?Nat2Z.id; try reflexivity.
  - destruct (replicate _ _ !! n) as [x|] eqn:Hx; [|reflexivity].
    apply lookup_replicate in Hx. destruct Hx as [-> _]. reflexivity.
  - destruct (replicate _ _ !! n) as [x|] eqn:Hx; [|reflexivity].
    apply lookup_replicate in Hx. destruct Hx as [-> _]. reflexivity.
Qed.

(** What a bake leaves of the slots of a probe it does not write. *)
Lemma bake_frame a sch st n :
  preconditions a = true ->
  let id := identifier a in
  let pb' := probeBatch (bake a sch st).1 in
  (reverbUntouched n (bakeEvents a sch st) ->
   storedReverb pb' id (Z.of_nat n) =
     storedReverb (probeBatch st) id (Z.of_nat n)) /\
  (energyFieldUntouched n (bakeEvents a sch st) ->
   storedEnergyField pb' id (Z.of_nat n) =
     storedEnergyField (probeBatch st) id (Z.of_nat n)).
Proof.
  intros Hpre. cbn zeta. unfold storedReverb at 1, storedEnergyField at 1.
  rewrite bake_data by assumption. unfold reverbAt, energyFieldAt.
  rewrite Nat2Z.id.
  destruct (targetData_slots a (probeBatch st)) as [Hr He]. split; intros Hun.
  - rewrite replay_reverbUntouched by assumption. apply Hr.
  - rewrite replay_energyFieldUntouched by assumption. apply He.
Qed.

Lemma isWriteBack_eligible a pb i members wb :
  closedBatch a pb i members -> Forall (isWriteBack members) wb ->
  Forall (writesEligible a pb) wb.
Proof.
  intros Hc Hw. pose proof (closedBatch_eligible _ _ _ _ Hc) as Hel.
  rewrite Forall_forall in Hel. eapply Forall_impl; [exact Hw|].
  intros e He. destruct e; cbn in *; auto; apply Hel, list_elem_of_In, He.
Qed.

Lemma batchEvents_eligible a pb sch c0 lo b :
  batchOK a pb sch c0 lo b ->
  Forall (writesEligible a pb) (batchEvents a (numProbes pb) b).
Proof.
  intros (_ & Hc & _ & [Hw _] & _). unfold batchEvents.
  repeat (apply Forall_app; split);
    try (repeat constructor; fail).
  - eapply isWriteBack_eligible; eassumption.
  - destruct (callback a); repeat constructor.
Qed.

(** Every call of [set] made by a bake is for an eligible probe. *)
Lemma bake_writes_eligible a sch st :
  Forall (writesEligible a (probeBatch st)) (bakeEvents a sch st).
Proof.
  destruct (preconditions a) eqn:Hpre;
    [|rewrite bakeEvents_early by auto; constructor].
  destruct (Z.ltb_spec (effectiveBatchSize a) 0) as [Hneg|Hb];
    [rewrite bakeEvents_early by auto; constructor|].
  destruct (bake_run a sch st Hpre Hb) as (bl & partial & Htr & Hok & _ & Hres).
  destruct (bake_trace a sch st Hpre Hb) as [Ht _].
  rewrite Ht in Htr. cbn [enter f_trace] in Htr.
  apply app_inv_head in Htr. rewrite Htr.
  apply Forall_app. split.
  - apply Forall_concat, Forall_map. eapply Forall_impl; [exact Hok|].
    intros b Hb'. eapply batchEvents_eligible, Hb'.
  - destruct (loopResult a sch st) as [[|] s'|f s'].
    + destruct Hres as (-> & _). constructor.
    + destruct Hres as (-> & _). constructor.
    + destruct Hres as (_ & [->|(j & Hj & Hbr & _)]); [constructor|].
      destruct Hbr as (members & call & wb & Hc & _ & Hw & ->).
      apply Forall_app. split; [repeat constructor|].
      eapply isWriteBack_eligible; eassumption.
Qed.

Lemma probeValid_static a p :
  variation (identifier a) = BakedDataVariation.StaticSource \/
  variation (identifier a) = BakedDataVariation.StaticListener ->
  probeValid (identifier a) p =
    contains (endpointInfluence (identifier a)) (center (influence p)).
Proof.
  unfold probeValid, probeEndpoints.
  intros [-> | ->]; destruct (contains _ _); reflexivity.
Qed.

Lemma untouched_of_ineligible a pb n evs :
  Forall (writesEligible a pb) evs -> eligible a pb (Z.of_nat n) = false ->
  reverbUntouched n evs /\ energyFieldUntouched n evs.
Proof.
  intros Hall Hn. rewrite Forall_forall in Hall.
  split; intros index x Hin Heq;
    apply list_elem_of_In, Hall in Hin; cbn in Hin;
    assert (0 <= index)
      by (unfold eligible in Hin; apply andb_true_iff in Hin; lia);
    replace (Z.of_nat n) with index in Hn by lia; congruence.
Qed.

(** C7: with variation StaticSource or StaticListener a probe is eligible
    iff the endpoint's influence contains its centre; every Reverb or Energy
    Field the bake writes is that of an eligible probe; and the stored Reverb
    and Energy Field of every probe whose centre lies outside the influence
    are after the call what they were before it, however the call ends. *)
Theorem static_endpoint_frame (a : BakeArgs) (sch : Schedule) (st : State) :
  variation (identifier a) = BakedDataVariation.StaticSource \/
  variation (identifier a) = BakedDataVariation.StaticListener ->
  let id := identifier a in
  let pb := probeBatch st in
  let pb' := probeBatch (bake a sch st).1 in
  (forall p,
     probeValid id p = contains (endpointInfluence id) (center (influence p)))
  /\
  Forall (writesEligible a pb) (bakeEvents a sch st) /\
  (forall n p,
     mProbes pb !! n = Some p ->
     contains (endpointInfluence id) (center (influence p)) = false ->
     storedReverb pb' id (Z.of_nat n) = storedReverb pb id (Z.of_nat n) /\
     storedEnergyField pb' id (Z.of_nat n) =
       storedEnergyField pb id (Z.of_nat n)).
Proof.
  intros Hvar id pb pb'.
  split; [intros p; apply probeValid_static, Hvar|].
  split; [apply bake_writes_eligible|].
  intros n p Hp Hout.
  destruct (preconditions a) eqn:Hpre.
  2:{ subst pb'. unfold bake. rewrite Hpre. split; reflexivity. }
  assert (Hn : eligible a pb (Z.of_nat n) = false).
  { rewrite (eligible_at a pb (Z.of_nat n) p) by (rewrite ?Nat2Z.id; auto; lia).
    rewrite probeValid_static by assumption. exact Hout. }
  destruct (untouched_of_ineligible a pb n _
              (bake_writes_eligible a sch st) Hn) as [Hr He].
  destruct (bake_frame a sch st n Hpre) as [Fr Fe]. split; auto.
Qed.

Lemma bake_flags a sch st :
  preconditions a = true ->
  let id := identifier a in
  let pb := probeBatch st in
  let pb' := probeBatch (bake a sch st).1 in
  hasConvolution pb' id =
    Some (default false (hasConvolution pb id) || bakeConvolution a) /\
  hasParametric pb' id =
    Some (default false (hasParametric pb id) || bakeParametric a).
Proof.
  intros Hpre. cbn zeta. unfold hasConvolution, hasParametric.
  rewrite bake_data by assumption. cbn [fmap option_fmap option_map].
  destruct (replay_flags (bakeEvents a sch st)
              (targetData a (probeBatch st))) as [-> ->].
  unfold targetData.
  destruct (lookupData (identifier a) (mData (probeBatch st))) as [d|];
    cbn; [split; reflexivity|].
  rewrite !orb_diag. split; reflexivity.
Qed.

(** C2: the baked data of an identifier is created once; a later bake of
    the identifier keeps the entry, leaves the data of every other
    identifier alone and keeps the content of every per-probe slot it does
    not write.  The capability flags accumulate: a bake that creates the
    data leaves each flag at the value the call requests; a later bake
    leaves each flag at its previous value or-ed with the one the call
    requests, so a bake that requests only one output kind leaves the
    other flag as it found it, and a flag once set stays set. *)
Theorem capability_flags_accumulate
    (a : BakeArgs) (sch : Schedule) (st : State) :
  preconditions a = true ->
  let id := identifier a in
  let pb := probeBatch st in
  let pb' := probeBatch (bake a sch st).1 in
  (hasData id pb = false ->
   hasConvolution pb' id = Some (bakeConvolution a) /\
   hasParametric pb' id = Some (bakeParametric a)) /\
  (hasData id pb = true ->
   (forall c, hasConvolution pb id = Some c ->
      hasConvolution pb' id = Some (c || bakeConvolution a)) /\
   (forall p, hasParametric pb id = Some p ->
      hasParametric pb' id = Some (p || bakeParametric a)) /\
   flagsAccumulate a sch st /\
   (hasConvolution pb id = Some true -> hasConvolution pb' id = Some true) /\
   (hasParametric pb id = Some true -> hasParametric pb' id = Some true) /\
   map fst (mData pb') = map fst (mData pb) /\
   (forall id', id' <> id ->
      lookupData id' (mData pb') = lookupData id' (mData pb)) /\
   (forall n,
      (reverbUntouched n (bakeEvents a sch st) ->
       storedReverb pb' id (Z.of_nat n) = storedReverb pb id (Z.of_nat n)) /\
      (energyFieldUntouched n (bakeEvents a sch st) ->
       storedEnergyField pb' id (Z.of_nat n) =
         storedEnergyField pb id (Z.of_nat n)))).
Proof.
  intros Hpre id pb pb'.
  destruct (bake_flags a sch st Hpre) as [Hc Hp].
  fold id pb pb' in Hc, Hp.
  assert (Hnew : hasData id pb = false ->
                 hasConvolution pb id = None /\ hasParametric pb id = None).
  { unfold hasData, hasConvolution, hasParametric.
    destruct (lookupData id (mData pb)); [discriminate|split; reflexivity]. }
  assert (Hold : hasData id pb = true ->
                 exists c p, hasConvolution pb id = Some c /\
                             hasParametric pb id = Some p).
  { unfold hasData, hasConvolution, hasParametric.
    destruct (lookupData id (mData pb)) as [d|]; [|discriminate].
    intros _. exists (mHasConvolution d), (mHasParametric d).
    split; reflexivity. }
  split.
  { intros Hhas. destruct (Hnew Hhas) as [Hc0 Hp0].
    rewrite Hc0 in Hc. rewrite Hp0 in Hp. split; assumption. }
  intros Hhas. destruct (Hold Hhas) as (c & p & Hc0 & Hp0).
  rewrite Hc0 in Hc. rewrite Hp0 in Hp. cbn [default] in Hc, Hp.
  split; [intros c' Hc'; rewrite Hc0 in Hc'; injection Hc' as <-; exact Hc|].
  split; [intros p' Hp'; rewrite Hp0 in Hp'; injection Hp' as <-; exact Hp|].
  split.
  { unfold flagsAccumulate. fold id pb pb'. rewrite Hc, Hp, Hc0, Hp0.
    repeat split; intros ->; rewrite ?orb_false_r, ?orb_true_r; reflexivity. }
  split; [intros Hc'; rewrite Hc0 in Hc'; injection Hc' as ->; exact Hc|].
  split; [intros Hp'; rewrite Hp0 in Hp'; injection Hp' as ->; exact Hp|].
  assert (Hpb : exists b s, pb' = probeBatch (leave a st b s)).
  { subst pb'. unfold bake. rewrite Hpre. cbn [negb].
    destruct (_ <? _); [eauto|].
    destruct (bakeLoop _ _ _ _ _ _); eauto. }
  destruct Hpb as (b & s & Hpb).
  assert (Hen : ensureData a pb = pb)
    by (unfold ensureData; fold id; rewrite Hhas; reflexivity).
  split; [|split].
  - rewrite Hpb. cbn. fold pb. rewrite Hen. apply keys_putData.
  - intros id' Hne. rewrite Hpb. cbn. fold pb. rewrite Hen.
    apply lookupData_putData_ne, Hne.
  - intros n. apply (bake_frame a sch st n Hpre).
Qed.

(** ** Progress *)

Lemma shape_partial_progress a sch st bl partial :
  bakeShape a sch st bl partial -> progressReports partial = [].
Proof.
  intros (_ & _ & _ & Hres).
  destruct ((bake a sch st).2).
  - destruct Hres as (-> & _). reflexivity.
  - destruct Hres as (-> & _). reflexivity.
  - destruct Hres as (_ & [->|(j & _ & Hbr & _)]); [reflexivity|].
    destruct (simulateCalls_broken _ _ _ _ Hbr) as (? & ? & _ & Hp & _).
    exact Hp.
Qed.

Lemma shape_progress a sch st bl partial :
  bakeShape a sch st bl partial ->
  progressReports (bakeEvents a sch st) =
    if callback a
    then map (fun b => (b_i b + 1, numProbes (probeBatch st))) bl
    else [].
Proof.
  intros Hsh. pose proof (shape_partial_progress _ _ _ _ _ Hsh) as Hp.
  destruct Hsh as (-> & Hok & _).
  rewrite progressReports_app, Hp, app_nil_r.
  apply progressReports_batches. eapply batchOK_writes, Hok.
Qed.

Lemma sorted_reports (N : Z) (bl : list Batch) :
  StronglySorted Z.lt (map b_i bl) ->
  StronglySorted Z.lt (map fst (map (fun b => (b_i b + 1, N)) bl)).
Proof.
  induction bl as [|b bl IH]; cbn [map]; intros Hs; [constructor|].
  apply StronglySorted_inv in Hs. destruct Hs as [Hs Hall].
  constructor; [apply IH, Hs|].
  rewrite Forall_map in Hall. rewrite !Forall_map.
  eapply Forall_impl; [exact Hall|]. cbn. intros; lia.
Qed.

Lemma sorted_values (N : Z) (l : list (Z * Z)) :
  N < 2^31 ->
  Forall (fun nd => 1 <= nd.1 <= N /\ nd.2 = N) l ->
  StronglySorted Z.lt (map fst l) ->
  StronglySorted (fun x y => Binary32.leb x y = true) (map reportedValue l).
Proof.
  intros HN Hall. induction Hall as [|[n d] l [Hn Hd] Hall IH];
    cbn [map fst]; intros Hs; [constructor|].
  apply StronglySorted_inv in Hs. destruct Hs as [Hs Hlt].
  cbn [fst snd] in Hn, Hd. subst d.
  constructor; [apply IH, Hs|].
  rewrite Forall_map in Hlt. rewrite Forall_map.
  rewrite Forall_forall in Hall, Hlt |- *.
  intros [n' d'] Hin. specialize (Hall _ Hin). specialize (Hlt _ Hin).
  cbn [fst snd] in Hall, Hlt. destruct Hall as [Hn' ->].
  apply reportedValue_monotone; lia.
Qed.

(** The last report of a completed bake is made at the last probe. *)
Lemma completed_last_report a sch st :
  callback a = true -> (bake a sch st).2 = Completed ->
  0 < numProbes (probeBatch st) ->
  last (progressReports (bakeEvents a sch st)) =
    Some (numProbes (probeBatch st), numProbes (probeBatch st)).
Proof.
  intros Hcb Hdone HN0.
  destruct (completed_started a sch st) as [Hpre Hb];
    [rewrite Hdone; reflexivity|].
  destruct (bake_shape a sch st Hpre Hb) as (bl & partial & Hsh).
  pose proof (shape_progress _ _ _ _ _ Hsh) as Hpr.
  destruct Hsh as (_ & _ & _ & Hres). rewrite Hdone in Hres.
  destruct Hres as (_ & _ & Hlast & _).
  assert (Hne : mProbes (probeBatch st) <> []).
  { intros Hnil. unfold numProbes in HN0. rewrite Hnil in HN0.
    cbn in HN0. lia. }
  specialize (Hlast Hne).
  rewrite Hpr, Hcb.
  rewrite <- (map_map b_i (fun i => (i + 1, numProbes (probeBatch st)))).
  change (map (fun i => (i + 1, numProbes (probeBatch st))) (map b_i bl))
    with ((fun i => (i + 1, numProbes (probeBatch st))) <$> map b_i bl).
  rewrite fmap_last, Hlast. cbn. f_equal. f_equal. lia.
Qed.

(** C9 (amended): without a callback no progress is reported.  With a
    callback, the events of a bake that returns are, batch after closed
    batch, the dispatch, the write-back calls, one progress report for the
    iteration i that closed the batch, and the read of the cancellation
    flag.  The report has the value (i + 1.0f) / numProbes computed in
    binary32, with 1 <= i + 1 <= numProbes; the reports are made at
    strictly increasing i, and with numProbes an int (below 2^31) the
    values reported never decrease.  The last report of a bake that runs
    to completion over a non-empty probe list is made at
    i + 1 = numProbes, and its value is 1.0 when numProbes is at most
    2^24. *)
Theorem progress_reports (a : BakeArgs) (sch : Schedule) (st : State) :
  let evs := bakeEvents a sch st in
  let N := numProbes (probeBatch st) in
  (callback a = false -> progressReports evs = []) /\
  (callback a = true -> isFault (bake a sch st).2 = false ->
   exists bl,
     evs = concat (map (batchEvents a N) bl) /\
     Forall (fun b => Forall (isWriteBack (b_members b)) (b_writes b)) bl /\
     progressReports evs = map (fun b => (b_i b + 1, N)) bl) /\
  Forall (fun nd => 1 <= nd.1 <= N /\ nd.2 = N) (progressReports evs) /\
  StronglySorted Z.lt (map fst (progressReports evs)) /\
  (N < 2^31 ->
   StronglySorted (fun x y => Binary32.leb x y = true)
     (map reportedValue (progressReports evs))) /\
  (callback a = true -> (bake a sch st).2 = Completed -> 0 < N ->
   last (progressReports evs) = Some (N, N) /\
   (N <= 2^24 -> reportedValue (N, N) = Binary32.one)).
Proof.
  intros evs N. subst evs.
  assert (Hearly : preconditions a = false \/ effectiveBatchSize a < 0 \/
                   (preconditions a = true /\ 0 <= effectiveBatchSize a)).
  { destruct (preconditions a); [|auto].
    destruct (Z.ltb_spec (effectiveBatchSize a) 0); auto. }
  destruct Hearly as [He|[He|[Hpre Hb]]].
  1,2: pose proof (bake_early_outcome a sch st ltac:(auto)) as Hf;
       rewrite bakeEvents_early by auto; cbn;
       split; [reflexivity|]; split; [congruence|];
       split; [constructor|]; split; [constructor|];
       split; [constructor|];
       intros _ Hc; rewrite Hc in Hf; discriminate.
  destruct (bake_shape a sch st Hpre Hb) as (bl & partial & Hsh).
  pose proof (shape_progress _ _ _ _ _ Hsh) as Hpr. fold N in Hpr.
  destruct Hsh as (Hev & Hok & Hsort & Hres). fold N in Hev.
  split; [intros Hcb; rewrite Hpr, Hcb; reflexivity|].
  split.
  { intros Hcb Hnf. exists bl. rewrite Hpr, Hcb.
    split; [|split; [eapply batchOK_writes, Hok|reflexivity]].
    rewrite Hev. destruct ((bake a sch st).2); try discriminate;
      destruct Hres as (-> & _); apply app_nil_r. }
  assert (Hin : Forall (fun nd => 1 <= nd.1 <= N /\ nd.2 = N)
                  (progressReports (bakeEvents a sch st))).
  { rewrite Hpr. destruct (callback a); [|constructor].
    apply Forall_map. eapply Forall_impl; [exact Hok|].
    intros b (Hr & _). fold N in Hr. cbn. split; [lia|reflexivity]. }
  assert (Hinc : StronglySorted Z.lt
                   (map fst (progressReports (bakeEvents a sch st)))).
  { rewrite Hpr. destruct (callback a); [|constructor].
    apply sorted_reports, Hsort. }
  split; [exact Hin|]. split; [exact Hinc|]. split.
  - intros HN. apply (sorted_values N); assumption.
  - intros Hcb Hdone HN0.
    split; [apply completed_last_report; assumption|].
    intros HN. apply reportedValue_one. lia.
Qed.

(** ** Cancellation *)





Lemma sorted_snoc_lt (l : list Z) (x : Z) :
  StronglySorted Z.lt (l ++ [x]) -> Forall (fun y => y < x) l.
Proof.
  induction l as [|y l IH]; cbn; intros Hs; [constructor|].
  apply StronglySorted_inv in Hs. destruct Hs as [Hs Hall].
  constructor; [|apply IH, Hs].
  rewrite Forall_app in Hall. destruct Hall as [_ Hx].
  apply Forall_inv in Hx. exact Hx.
Qed.


Lemma returned_state a sch st :
  isFault (bake a sch st).2 = false ->
  sBakeInProgress (bake a sch st).1 = false.
Proof.
  intros Hnf. destruct (completed_started a sch st Hnf) as [Hpre Hb].
  rewrite bake_unfold in Hnf |- * by assumption.
  destruct (loopResult a sch st) as [brk s|f s]; [reflexivity|discriminate].
Qed.

(** A fault past the asserts leaves [sBakeInProgress] set. *)
Lemma faulted_state a sch st :
  preconditions a = true -> isFault (bake a sch st).2 = true ->
  sBakeInProgress (bake a sch st).1 = true.
Proof.
  intros Hpre Hf. unfold bake in *. rewrite Hpre in *. cbn [negb] in *.
  destruct (effectiveBatchSize a <? 0); [reflexivity|].
  destruct (bakeLoop _ _ _ _ _ _) as [[|] s|f s];
    [discriminate|discriminate|reflexivity].
Qed.



(** ** The empty batch at the last probe *)

Lemma dispatch_empty a N i s :
  numValidInBatch s = 0 ->
  exists call s',
    dispatch a N i s = Done (f_sCancel s) s' /\
    f_trace s' =
      f_trace s ++
      [EvJobGraphReset; EvSimulate i [] call; EvProcess] ++
      (if callback a then [EvProgress (i + 1) N] else []) ++
      [EvCancelCheck (f_sCancel s)] /\
    (sc_numSources call, sc_numListeners call) =
      endpointCounts (sceneType a) (variation (identifier a)) 0.
Proof.
  intros Hnv.
  destruct (simulateBatch_spec a i s)
    as (call & s1 & Hsim & Ht1 & Hcnt & _ & _ & _ & _ & _
        & Hc1 & _ & _ & _ & _ & Hv1 & _).
  unfold pendingMembers in Ht1. rewrite Hnv in Ht1, Hcnt, Hv1.
  change (take (Z.to_nat 0) (indices s)) with (@nil Z) in Ht1.
  assert (Hdev : deviceToHost a s1 = Done tt s1).
  { unfold deviceToHost. destruct (_ && _); [|reflexivity].
    rewrite bind_eq. cbn [get]. rewrite Hv1. reflexivity. }
  assert (Hwb : writeBack a s1 = Done tt s1).
  { unfold writeBack. rewrite bind_eq. cbn [get]. rewrite Hv1.
    destruct (bakeParametric a), (bakeConvolution a); reflexivity. }
  exists call. unfold dispatch.
  rewrite bind_eq, Hsim, bind_eq, Hdev, bind_eq, Hwb.
  unfold reportAndCheck, setNumValidInBatch, bind, get, emit, setCancel, ret.
  rewrite <- Hc1.
  destruct (callback a); frame_simpl; destruct (f_sCancel s1);
    frame_simpl; eexists; (split; [reflexivity|]); frame_simpl;
    rewrite Ht1, <- !app_assoc; split; auto.
Qed.

Lemma numValidInBatch_requestCancel s :
  numValidInBatch (requestCancel s) = numValidInBatch s.
Proof. unfold requestCancel. destruct (f_sBakeInProgress s); reflexivity. Qed.

(** C10: when the probes that remain after the last dispatched batch are
    all ineligible, reaching the last probe still closes a batch, with no
    member: the job graph is reset, the simulator is called with the
    endpoint counts of zero eligible probes (numSources = 0 and
    numListeners = 1 unless the GPU backend is active), the executor runs
    the graph, the progress callback (if any) is called with
    numProbes / numProbes, and the cancellation flag is read. *)
Theorem empty_final_batch (a : BakeArgs) (sch : Schedule) (N : Z) :
  forall (ps : list Probe) (i : Z) (s : Frame),
    ps <> [] ->
    Forall (fun p => probeValid (identifier a) p = false) ps ->
    i + Z.of_nat (length ps) = N ->
    numValidInBatch s = 0 ->
    effectiveBatchSize a <> 0 ->
    exists brk s' call,
      bakeLoop a sch N i ps s = Done brk s' /\
      f_trace s' =
        f_trace s ++
        [EvJobGraphReset; EvSimulate (N - 1) [] call; EvProcess] ++
        (if callback a then [EvProgress N N] else []) ++
        [EvCancelCheck brk] /\
      (sc_numSources call, sc_numListeners call) =
        if SceneType.eqb (sceneType a) SceneType.RadeonRays then
          match variation (identifier a) with
          | BakedDataVariation.StaticSource => (1, 0)
          | BakedDataVariation.StaticListener => (0, 1)
          | BakedDataVariation.Reverb => (0, 0)
          | BakedDataVariation.Dynamic => (0, 1)
          end
        else (0, 1).
Proof.
  induction ps as [|p ps IH]; intros i s Hne Hall HN Hnv Hbs; [congruence|].
  apply Forall_cons in Hall. destruct Hall as [Hp Hall].
  cbn [bakeLoop]. rewrite bind_eq. unfold iteration. rewrite bind_eq.
  set (s0 := if cancelDuring sch i then requestCancel s else s).
  assert (Hs0 : (if cancelDuring sch i then cancelRequest else ret tt) s
                = Done tt s0)
    by (subst s0; destruct (cancelDuring sch i); reflexivity).
  assert (Hnv0 : numValidInBatch s0 = 0)
    by (subst s0; destruct (cancelDuring sch i);
        rewrite ?numValidInBatch_requestCancel; exact Hnv).
  assert (Ht0 : f_trace s0 = f_trace s)
    by (subst s0; destruct (cancelDuring sch i);
        rewrite ?f_trace_requestCancel; reflexivity).
  rewrite Hs0. unfold loopBody. rewrite bind_eq.
  unfold probeValid in Hp.
  destruct (probeEndpoints (identifier a) p); [discriminate|].
  cbn [ret]. rewrite bind_eq. cbn [get]. rewrite Hnv0.
  destruct (Z.eqb_spec 0 (effectiveBatchSize a)) as [Heq|_]; [congruence|].
  cbn [orb]. destruct ps as [|p' ps].
  - (* the last probe *)
    cbn [length] in HN.
    destruct (Z.eqb_spec i (N - 1)) as [Hi|Hi]; [|lia].
    destruct (dispatch_empty a N i s0 Hnv0) as (call & s' & Hd & Ht & Hcnt).
    rewrite Hd. exists (f_sCancel s0), s', call.
    split; [destruct (f_sCancel s0); reflexivity|].
    rewrite <- Hi. replace (i + 1) with N in Ht by lia.
    rewrite <- Ht0. split; [|rewrite Hcnt; apply endpointCounts_eq].
    destruct (f_sCancel s0); exact Ht.
  - cbn [length] in HN.
    destruct (Z.eqb_spec i (N - 1)) as [Hi|Hi]; [lia|].
    cbn [ret].
    destruct (IH (i + 1) s0 ltac:(discriminate) Hall ltac:(cbn [length]; lia)
                Hnv0 Hbs) as (brk & s' & call & Hl & Ht & Hcnt).
    exists brk, s', call. rewrite <- Ht0. auto.
Qed.

(** ** The parametric bake *)

Lemma applyEvent_length e d :
  length (mReverbs (applyEvent e d)) = length (mReverbs d).
Proof. destruct e; cbn; rewrite ?length_insert; reflexivity. Qed.

Lemma replay_keeps_reverb n evs :
  forall d,
    (exists r, mReverbs d !! n = Some (Some r)) ->
    exists r, mReverbs (replay evs d) !! n = Some (Some r).
Proof.
  induction evs as [|e evs IH]; intros d Hd; [exact Hd|].
  rewrite replay_cons. apply IH. destruct Hd as (r & Hr).
  destruct e; cbn; eauto.
  destruct (decide (Z.to_nat index = n)) as [<-|Hne].
  - rewrite list_lookup_insert_eq by (eapply lookup_lt_Some; eassumption).
    eauto.
  - rewrite list_lookup_insert_ne by assumption. eauto.
Qed.

Lemma replay_written index r evs :
  forall d,
    In (EvSetReverb index r) evs ->
    (Z.to_nat index < length (mReverbs d))%nat ->
    exists r', mReverbs (replay evs d) !! Z.to_nat index = Some (Some r').
Proof.
  induction evs as [|e evs IH]; intros d Hin Hlen; [destruct Hin|].
  rewrite replay_cons. destruct Hin as [->|Hin].
  - apply replay_keeps_reverb. cbn.
    rewrite list_lookup_insert_eq by assumption. eauto.
  - apply IH; [exact Hin|]. rewrite applyEvent_length. exact Hlen.
Qed.

Lemma targetData_length a pb :
  wellSized pb ->
  length (mReverbs (targetData a pb)) = length (mProbes pb).
Proof.
  intros Hw. unfold targetData.
  destruct (lookupData (identifier a) (mData pb)) as [d|] eqn:Hl; cbn.
  - unfold wellSized in Hw. induction (mData pb) as [|[k v] l IH];
      [discriminate|].
    apply Forall_cons in Hw. destruct Hw as [[Hr _] Hw]. cbn in Hl.
    destruct (decide (k = identifier a)); [|apply IH; assumption].
    injection Hl as <-. exact Hr.
  - rewrite length_replicate. unfold numProbes. lia.
Qed.

Lemma eligible_range a pb index :
  eligible a pb index = true -> 0 <= index < numProbes pb.
Proof.
  unfold eligible, numProbes. intros Hel. apply andb_true_iff in Hel.
  destruct Hel as [H0 Hp].
  destruct (mProbes pb !! Z.to_nat index) eqn:Hl; [|discriminate].
  apply lookup_lt_Some in Hl. lia.
Qed.

(** A bake that runs to completion with parametric output requested has
    stored a Reverb for every eligible probe. *)
Lemma parametric_bake_stores_reverbs a sch st index :
  preconditions a = true -> bakeParametric a = true ->
  wellSized (probeBatch st) ->
  (bake a sch st).2 = Completed ->
  eligible a (probeBatch st) index = true ->
  is_Some (storedReverb (probeBatch (bake a sch st).1) (identifier a) index).
Proof.
  intros Hpre Hpar Hw Hdone Hel.
  destruct (Z.ltb_spec (effectiveBatchSize a) 0) as [Hneg|Hb].
  { pose proof (bake_early_outcome a sch st ltac:(auto)) as Hf.
    rewrite Hdone in Hf. discriminate. }
  destruct (bake_shape a sch st Hpre Hb) as (bl & partial & Hsh).
  destruct Hsh as (Hev & Hok & _ & Hres). rewrite Hdone in Hres.
  destruct Hres as (-> & _ & _ & Hcat). rewrite app_nil_r in Hev.
  pose proof (eligible_range _ _ _ Hel) as Hr.
  assert (Hin : In index (concat (map b_members bl))).
  { rewrite Hcat. apply list_elem_of_In, list_elem_of_filter.
    split; [exact Hel|]. apply elem_of_seqZ. lia. }
  apply in_concat in Hin. destruct Hin as (ms & Hms & Hin).
  apply in_map_iff in Hms. destruct Hms as (b & <- & Hb').
  rewrite Forall_forall in Hok.
  destruct (Hok b ltac:(apply list_elem_of_In, Hb'))
    as (_ & _ & _ & [_ [Hall _]] & _).
  destruct (Hall Hpar index Hin) as (r & Hwr).
  assert (Hevs : In (EvSetReverb index r) (bakeEvents a sch st)).
  { rewrite Hev. apply in_concat. eexists. split.
    - apply in_map. exact Hb'.
    - unfold batchEvents. rewrite !in_app_iff. auto. }
  unfold storedReverb. rewrite bake_data by assumption. unfold reverbAt.
  destruct (replay_written index r _ (targetData a (probeBatch st)) Hevs)
    as (r' & ->).
  - rewrite targetData_length by assumption. unfold numProbes in Hr. lia.
  - cbn. eauto.
Qed.

Lemma filter_all (f : Z -> bool) (l : list Z) :
  (forall x, In x l -> f x = true) -> filter (fun x => f x = true) l = l.
Proof.
  induction l as [|x l IH]; intros Hin; [reflexivity|].
  rewrite filter_cons.
  destruct (decide (f x = true)) as [_|Hn].
  - f_equal. apply IH. intros y Hy. apply Hin. right. exact Hy.
  - exfalso. apply Hn, Hin. left. reflexivity.
Qed.

Lemma requested_quiet sch lo hi :
  (forall i, cancelDuring sch i = false) -> requested sch false lo hi = false.
Proof.
  intros Hq. unfold requested. cbn.
  induction (seqZ lo (hi + 1 - lo)) as [|x l IH]; [reflexivity|].
  cbn. rewrite Hq. exact IH.
Qed.

Lemma probeValid_reverb a p :
  variation (identifier a) = BakedDataVariation.Reverb ->
  probeValid (identifier a) p = true.
Proof. unfold probeValid, probeEndpoints. intros ->. reflexivity. Qed.

Lemma eligible_reverb a pb index :
  variation (identifier a) = BakedDataVariation.Reverb ->
  0 <= index < numProbes pb -> eligible a pb index = true.
Proof.
  intros Hv Hr. unfold eligible, numProbes in *.
  destruct (mProbes pb !! Z.to_nat index) as [p|] eqn:Hl.
  - rewrite probeValid_reverb by assumption.
    destruct (Z.leb_spec 0 index); [reflexivity|lia].
  - apply lookup_ge_None in Hl. lia.
Qed.

(** On the CPU backend a Reverb bake for parametric output only, with no
    cancellation, dispatches every probe on its own, in order. *)
Lemma reverb_bake_one_by_one a sch st :
  type (identifier a) = BakedDataType.Reflections ->
  variation (identifier a) = BakedDataVariation.Reverb ->
  SceneType.eqb (sceneType a) SceneType.RadeonRays = false ->
  bakeParametric a = true -> bakeConvolution a = false ->
  sCancel st = false -> (forall i, cancelDuring sch i = false) ->
  (bake a sch st).2 = Completed /\
  map (fun c => (c.1.1, c.1.2)) (simulateCalls (bakeEvents a sch st)) =
    map (fun k => (k, [k])) (seqZ 0 (numProbes (probeBatch st))).
Proof.
  intros Hty Hvar Hcpu Hpar Hcv Hc0 Hquiet.
  assert (Hpre : preconditions a = true)
    by (unfold preconditions; rewrite Hpar, Hty, Hvar, orb_true_r;
        reflexivity).
  assert (Hbs : effectiveBatchSize a = 1)
    by (unfold effectiveBatchSize; rewrite Hcpu, Hvar; reflexivity).
  assert (Hnm : noMove a = true) by (unfold noMove; rewrite Hcv; reflexivity).
  pose proof (bake_no_fault a sch st Hpre Hnm ltac:(lia)) as Hnf.
  destruct (bake_shape a sch st Hpre ltac:(lia)) as (bl & partial & Hsh).
  destruct Hsh as (Hev & Hok & Hsort & Hres). rewrite Hc0 in Hok.
  assert (Hnc : Forall (fun b => b_cancelled b = false) bl).
  { eapply Forall_impl; [exact Hok|]. intros b (_ & _ & _ & _ & ->).
    apply requested_quiet, Hquiet. }
  destruct ((bake a sch st).2) as [| |f] eqn:Hout; [|exfalso|discriminate].
  2:{ destruct Hres as (_ & _ & bl0 & b & -> & Hb & _).
      apply Forall_app in Hnc. destruct Hnc as [_ Hnc].
      apply Forall_inv in Hnc. congruence. }
  split; [reflexivity|].
  destruct Hres as (-> & _ & _ & Hcat). rewrite app_nil_r in Hev.
  rewrite Hev, simulateCalls_batches by (eapply batchOK_writes, Hok).
  assert (Hone : Forall (fun b => b_members b = [b_i b]) bl).
  { eapply Forall_impl; [exact Hok|].
    intros b (Hr & (_ & Hle & _ & Hlast) & _).
    rewrite eligible_reverb in Hlast by (auto; lia). rewrite Hbs in Hle.
    destruct (b_members b) as [|x [|y l]]; cbn in *;
      try discriminate; try lia. congruence. }
  assert (Hall : filter (fun index => eligible a (probeBatch st) index = true)
                   (seqZ 0 (numProbes (probeBatch st))) =
                 seqZ 0 (numProbes (probeBatch st))).
  { apply filter_all. intros x Hx. apply list_elem_of_In, elem_of_seqZ in Hx.
    apply eligible_reverb; [assumption|lia]. }
  rewrite Hall in Hcat. rewrite <- Hcat. unfold callsOf.
  clear Hcat Hall Hev Hsort Hnc Hok.
  induction Hone as [|b bl Hb _ IH]; [reflexivity|].
  cbn [map concat]. rewrite Hb. cbn. f_equal. exact IH.
Qed.

(** C1 (amended): for a bake of 10 probes with variation Reverb on the CPU
    backend, bakeParametric = true and bakeConvolution = false, whatever
    the bakeBatchSize and with no cancellation: the bake performs exactly
    10 simulator calls, one per probe in order, each processing that one
    probe; every one of the 10 probes ends with a stored Reverb;
    hasParametric ends true and hasConvolution is unchanged from its value
    before the call. *)
Theorem reverb_scenario (a : BakeArgs) (sch : Schedule) (st : State) :
  length (mProbes (probeBatch st)) = 10%nat ->
  type (identifier a) = BakedDataType.Reflections ->
  variation (identifier a) = BakedDataVariation.Reverb ->
  SceneType.eqb (sceneType a) SceneType.RadeonRays = false ->
  bakeParametric a = true -> bakeConvolution a = false ->
  sCancel st = false -> (forall i, cancelDuring sch i = false) ->
  wellSized (probeBatch st) ->
  let id := identifier a in
  let pb' := probeBatch (bake a sch st).1 in
  (bake a sch st).2 = Completed /\
  map (fun c => (c.1.1, c.1.2)) (simulateCalls (bakeEvents a sch st)) =
    [(0, [0]); (1, [1]); (2, [2]); (3, [3]); (4, [4]);
     (5, [5]); (6, [6]); (7, [7]); (8, [8]); (9, [9])] /\
  (forall n, (n < 10)%nat -> is_Some (storedReverb pb' id (Z.of_nat n))) /\
  hasParametric pb' id = Some true /\
  convolutionFlagUnchanged a sch st.
Proof.
  intros Hlen Hty Hvar Hcpu Hpar Hcv Hc0 Hquiet Hw id pb'.
  assert (Hpre : preconditions a = true)
    by (unfold preconditions; rewrite Hpar, Hty, Hvar, orb_true_r;
        reflexivity).
  destruct (reverb_bake_one_by_one a sch st Hty Hvar Hcpu Hpar Hcv Hc0 Hquiet)
    as [Hdone Hcalls].
  assert (HN : numProbes (probeBatch st) = 10)
    by (unfold numProbes; rewrite Hlen; reflexivity).
  split; [exact Hdone|]. split; [rewrite Hcalls, HN; reflexivity|].
  split.
  - intros n Hn. apply parametric_bake_stores_reverbs; try assumption.
    apply eligible_reverb; [assumption|lia].
  - destruct (bake_flags a sch st Hpre) as [Hc Hp].
    rewrite Hpar, orb_true_r in Hp. rewrite Hcv, orb_false_r in Hc.
    split; [exact Hp|]. unfold convolutionFlagUnchanged. rewrite Hc, Hcv.
    destruct (hasConvolution (probeBatch st) (identifier a)); reflexivity.
Qed.

(** * Further properties *)

(** ** The diagnostic file *)

Lemma le_value_int_bytes z : Wav.le_value (Wav.int_bytes z) = z mod 2^32.
Proof.
  unfold Wav.int_bytes, Wav.le_value.
  pose proof (Z.mod_pos_bound z (2^32) ltac:(lia)) as Hu.
  generalize dependent (z mod 2^32). intros u Hu.
  change (2^8) with 256. change (2^16) with 65536. change (2^24) with 16777216.
  change (2^32) with 4294967296 in Hu.
  Z.div_mod_to_equations. lia.
Qed.

Lemma le_value_short_bytes z : Wav.le_value (Wav.short_bytes z) = z mod 2^16.
Proof.
  unfold Wav.short_bytes, Wav.le_value.
  pose proof (Z.mod_pos_bound z (2^16) ltac:(lia)) as Hu.
  generalize dependent (z mod 2^16). intros u Hu.
  change (2^8) with 256. change (2^16) with 65536 in Hu.
  Z.div_mod_to_equations. lia.
Qed.

Lemma bytesAt_here (l r : list Z) (n : nat) :
  length l = n -> Wav.bytesAt 0 n (l ++ r) = l.
Proof. intros <-. unfold Wav.bytesAt. cbn [skipn]. apply take_app_length. Qed.

Lemma bytesAt_skip (l r : list Z) (k off n : nat) :
  length l = k -> Wav.bytesAt (k + off) n (l ++ r) = Wav.bytesAt off n r.
Proof.
  intros <-. unfold Wav.bytesAt. f_equal.
  change skipn with (@drop Z). rewrite <- drop_drop, drop_app_length. reflexivity.
Qed.

Lemma length_floatBytes (ir : list float) :
  Forall (fun x => length (floatBytes x) = 4%nat) ir ->
  length (concat (map floatBytes ir)) = (4 * length ir)%nat.
Proof.
  induction 1 as [|x l Hx _ IH]; [reflexivity|].
  cbn [map concat length]. rewrite length_app, Hx, IH. lia.
Qed.


Lemma to_int_small z : - 2^31 <= z < 2^31 -> Wav.to_int z = z.
Proof.
  intros Hz. unfold Wav.to_int.
  rewrite Z.mod_small by lia. lia.
Qed.

Lemma wav_split (ir : list float) (sampleRate : Z) :
  Forall (fun x => length (floatBytes x) = 4%nat) ir ->
  4 * Z.of_nat (length ir) < 2^31 ->
  Wav.exportImpulseResponseAsWav ir sampleRate =
    Wav.chars "RIFF" ++
    Wav.int_bytes (Wav.to_int (36 + 4 * Z.of_nat (length ir))) ++
    Wav.chars "WAVE" ++ Wav.chars "fmt " ++
    Wav.int_bytes 16 ++ Wav.short_bytes 3 ++ Wav.short_bytes 1 ++
    Wav.int_bytes sampleRate ++
    Wav.int_bytes (Wav.to_int (sampleRate * 1 * 4)) ++
    Wav.short_bytes 4 ++ Wav.short_bytes 32 ++
    Wav.chars "data" ++ Wav.int_bytes (4 * Z.of_nat (length ir)) ++
    concat (map floatBytes ir).
Proof.
  intros Hb Hn. unfold Wav.exportImpulseResponseAsWav, Wav.sizeof_float.
  cbv zeta.
  rewrite (to_int_small (Z.of_nat (length ir) * 4)) by lia.
  replace (Z.of_nat (length ir) * 4) with (4 * Z.of_nat (length ir)) by lia.
  rewrite firstn_all2 by (rewrite length_floatBytes by assumption; lia).
  reflexivity.
Qed.

(** X1: when every sample takes four bytes and the data size fits an [int],
    the file written is a header of 44 bytes followed by the bytes of the
    samples, in order and in full. *)
Theorem wav_file_layout (ir : list float) (sampleRate : Z) :
  Forall (fun x => length (floatBytes x) = 4%nat) ir ->
  4 * Z.of_nat (length ir) < 2^31 ->
  let file := Wav.exportImpulseResponseAsWav ir sampleRate in
  length file = (44 + 4 * length ir)%nat /\
  skipn 44 file = concat (map floatBytes ir).
Proof.
  intros Hb Hn file. subst file. rewrite wav_split by assumption.
  split.
  - rewrite !length_app, length_floatBytes by assumption. reflexivity.
  - reflexivity.
Qed.

Ltac skip_bytes k :=
  match goal with
  | |- context [Wav.bytesAt ?off ?n (?l ++ ?r)] =>
      let off' := eval cbv in (off - k)%nat in
      change (Wav.bytesAt off n (l ++ r))
        with (Wav.bytesAt (k + off') n (l ++ r));
      rewrite (bytesAt_skip l r k off' n) by reflexivity
  end.

Ltac field_at :=
  repeat first
    [ rewrite bytesAt_here by reflexivity
    | skip_bytes 4%nat
    | skip_bytes 2%nat ].

(** X2: the header of the file written, when every sample takes four
    bytes, the file size 36 + 4n for n samples is below 2^31 and the
    sample rate is not negative with four times it below 2^31.  Read least
    significant byte first, the field after "RIFF" is the length of the
    file less 8, the format chunk has size 16 and announces format 3 (IEEE
    float), one channel, the sample rate, a byte rate of four times the
    sample rate, a block alignment of 4 and 32 bits per sample, and the
    field after "data" is the number of bytes that follow the header. *)
Theorem wav_header (ir : list float) (sampleRate : Z) :
  Forall (fun x => length (floatBytes x) = 4%nat) ir ->
  36 + 4 * Z.of_nat (length ir) < 2^31 ->
  0 <= sampleRate -> 4 * sampleRate < 2^31 ->
  let file := Wav.exportImpulseResponseAsWav ir sampleRate in
  let size := Z.of_nat (length file) in
  Wav.bytesAt 0 4 file = Wav.chars "RIFF" /\
  Wav.le_value (Wav.bytesAt 4 4 file) = size - 8 /\
  Wav.bytesAt 8 4 file = Wav.chars "WAVE" /\
  Wav.bytesAt 12 4 file = Wav.chars "fmt " /\
  Wav.le_value (Wav.bytesAt 16 4 file) = 16 /\
  Wav.le_value (Wav.bytesAt 20 2 file) = 3 /\
  Wav.le_value (Wav.bytesAt 22 2 file) = 1 /\
  Wav.le_value (Wav.bytesAt 24 4 file) = sampleRate /\
  Wav.le_value (Wav.bytesAt 28 4 file) = 4 * sampleRate /\
  Wav.le_value (Wav.bytesAt 32 2 file) = 4 /\
  Wav.le_value (Wav.bytesAt 34 2 file) = 32 /\
  Wav.bytesAt 36 4 file = Wav.chars "data" /\
  Wav.le_value (Wav.bytesAt 40 4 file) = size - 44.
Proof.
  intros Hb Hn Hs0 Hs1 file size.
  assert (Hlen : size = 44 + 4 * Z.of_nat (length ir)).
  { subst size file. rewrite wav_split by (assumption || lia).
    rewrite !length_app, length_floatBytes by assumption.
    change (length (Wav.chars "RIFF")) with 4%nat.
    change (length (Wav.chars "WAVE")) with 4%nat.
    change (length (Wav.chars "fmt ")) with 4%nat.
    change (length (Wav.chars "data")) with 4%nat.
    cbn [Wav.int_bytes Wav.short_bytes length]. lia. }
  rewrite Hlen. subst file. rewrite wav_split by (assumption || lia).
  rewrite !to_int_small by lia.
  repeat split; field_at;
    rewrite ?le_value_int_bytes, ?le_value_short_bytes;
    try reflexivity; rewrite Z.mod_small; lia.
Qed.


Lemma string_length_append (s t : string) :
  String.length (s ++ t) = (String.length s + String.length t)%nat.
Proof. induction s as [|c s IH]; cbn; [reflexivity|]. rewrite IH. reflexivity. Qed.

Lemma string_app_inv_head (s t1 t2 : string) :
  (s ++ t1)%string = (s ++ t2)%string -> t1 = t2.
Proof.
  induction s as [|c s IH]; cbn; intros Heq; [exact Heq|].
  injection Heq as Heq. apply IH, Heq.
Qed.

Lemma string_app_inv_tail (s1 s2 t : string) :
  (s1 ++ t)%string = (s2 ++ t)%string -> s1 = s2.
Proof.
  revert s2. induction s1 as [|c s1 IH]; intros [|d s2] Heq; cbn in Heq.
  - reflexivity.
  - exfalso. apply (f_equal String.length) in Heq. cbn in Heq.
    rewrite string_length_append in Heq. lia.
  - exfalso. apply (f_equal String.length) in Heq. cbn in Heq.
    rewrite string_length_append in Heq. lia.
  - injection Heq as -> Heq. f_equal. apply IH, Heq.
Qed.

Lemma to_int_parses (z : Z) :
  NilZero.int_of_string (NilZero.string_of_int (Z.to_int z)) =
    Some (Z.to_int z).
Proof.
  apply NilZero.isi; destruct z; cbn; try discriminate.
  - intros [= Hp]. revert Hp. apply DecimalPos.Unsigned.to_uint_nonnil.
  - intros [= Hp]. revert Hp. apply DecimalPos.Unsigned.to_uint_nonnil.
Qed.

(** X3: the files of two different probe indices have different paths. *)
Theorem filePath_injective (i j : Z) :
  Wav.filePath i = Wav.filePath j -> i = j.
Proof.
  unfold Wav.filePath. intros Heq.
  apply string_app_inv_head, string_app_inv_tail in Heq.
  apply DecimalZ.to_int_inj.
  pose proof (to_int_parses i) as Hi. rewrite Heq, to_int_parses in Hi.
  congruence.
Qed.

(** ** What a bake may emit *)

#[local] Instance emits_refl P : Reflexive (emits P).
Proof. intros s. exists []. rewrite app_nil_r. split; constructor. Qed.

#[local] Instance emits_trans P : Transitive (emits P).
Proof.
  intros s1 s2 s3 (e1 & Ht1 & H1) (e2 & Ht2 & H2). exists (e1 ++ e2).
  rewrite Ht2, Ht1, app_assoc. split; [reflexivity|].
  apply Forall_app. auto.
Qed.

Lemma emits_silent P s s' : f_trace s' = f_trace s -> emits P s s'.
Proof. intros Ht. exists []. rewrite app_nil_r. split; [exact Ht|constructor]. Qed.

Lemma emits_emit (P : Event -> Prop) e : P e -> always (emits P) (emit e).
Proof.
  intros He s. exists [e]. split; [reflexivity|]. constructor; [exact He|].
  constructor.
Qed.

Lemma requested_storeReverb a j :
  bakeParametric a = true ->
  always (emits (requestedCall a)) (storeReverb j).
Proof.
  intros Hp s. unfold storeReverb, bind, derefEnergyField, readIndex.
  destruct (energyFields s !! j) as [[f|]|]; try apply reflexivity.
  destruct (indices s !! j); [|apply reflexivity].
  apply emits_emit. split; [exact Hp|]. exists f. reflexivity.
Qed.

Lemma requested_copyBack a j :
  IPL_USES_OPENCL && SceneType.eqb (sceneType a) SceneType.RadeonRays = true ->
  always (emits (requestedCall a)) (copyBack j).
Proof.
  intros Hg s. unfold copyBack, bind, derefEnergyField, get, setEnergyFields.
  destruct (energyFields s !! j) as [[f|]|]; try apply reflexivity.
  exists [EvCopyDeviceToHost j]. split; [reflexivity|].
  apply andb_true_iff in Hg. repeat constructor; apply Hg.
Qed.

Lemma requested_storeEnergyField a j :
  bakeConvolution a = true ->
  always (emits (requestedCall a)) (storeEnergyField a j).
Proof.
  intros Hc s.
  unfold storeEnergyField, takeEnergyField, bind, readIndex,
    derefEnergyField, emit, get, setEnergyFields, ret, fail.
  destruct (float_eq (simDuration a) (bakeDuration a)) eqn:Heq; cbv beta.
  - destruct (energyFields s !! j) as [p|] eqn:Hf; frame_simpl;
      [|apply reflexivity].
    destruct (indices s !! j) as [index|]; frame_simpl;
      [|apply emits_silent; reflexivity].
    rewrite list_lookup_insert_eq by (eapply lookup_lt_Some; eassumption).
    frame_simpl. exists [EvSetEnergyField index p].
    split; [reflexivity|]. repeat constructor; [exact Hc|].
    cbn. rewrite Heq. discriminate.
  - destruct (energyFields s !! j) as [[f|]|] eqn:Hf; frame_simpl;
      try apply reflexivity.
    destruct (indices s !! j) as [index|] eqn:Hi; frame_simpl;
      [|apply reflexivity].
    rewrite Hf. frame_simpl. rewrite Hi. frame_simpl.
    eexists. split; [rewrite <- app_assoc; reflexivity|].
    repeat constructor; cbn; eauto.
Qed.

Lemma requested_dispatch a N i :
  always (emits (requestedCall a)) (dispatch a N i).
Proof.
  unfold dispatch.
  apply always_bind; [exact _| |intros _].
  { intros s. destruct (simulateBatch_spec a i s)
      as (call & s1 & -> & Ht & _). cbn [post]. eexists. split; [exact Ht|].
    repeat constructor. }
  apply always_bind; [exact _| |intros _].
  { unfold deviceToHost. destruct (_ && _) eqn:Hg; [|apply always_ret; exact _].
    apply always_bind; [exact _|apply always_get; exact _|intros s0].
    apply always_forEach; try exact _. intros j _.
    apply requested_copyBack, Hg. }
  apply always_bind; [exact _| |intros _].
  { unfold writeBack.
    apply always_bind; [exact _|apply always_get; exact _|intros s0].
    apply always_bind; [exact _| |intros _].
    - destruct (bakeParametric a) eqn:Hp; [|apply always_ret; exact _].
      apply always_forEach; try exact _. intros j _.
      apply requested_storeReverb, Hp.
    - destruct (bakeConvolution a) eqn:Hc; [|apply always_ret; exact _].
      apply always_forEach; try exact _. intros j _.
      apply requested_storeEnergyField, Hc. }
  apply always_bind; [exact _| |intros _].
  { intros s. apply emits_silent. reflexivity. }
  unfold reportAndCheck.
  apply always_bind; [exact _| |intros _].
  { destruct (callback a) eqn:Hcb; [|apply always_ret; exact _].
    apply emits_emit. exact Hcb. }
  apply always_bind; [exact _|apply always_get; exact _|intros s0].
  apply always_bind; [exact _|apply emits_emit; exact I|intros _].
  destruct (f_sCancel s0); [|apply always_ret; exact _].
  apply always_bind; [exact _| |intros _; apply always_ret; exact _].
  intros s. apply emits_silent. reflexivity.
Qed.

Lemma requested_bakeLoop a sch N ps :
  forall i, always (emits (requestedCall a)) (bakeLoop a sch N i ps).
Proof.
  induction ps as [|p ps IH]; intros i; cbn [bakeLoop].
  - apply always_ret; exact _.
  - apply always_bind; [exact _| |intros [|]].
    + unfold iteration. apply always_bind; [exact _| |intros _].
      * destruct (cancelDuring sch i); [|apply always_ret; exact _].
        intros s. apply emits_silent, f_trace_requestCancel.
      * unfold loopBody. apply always_bind; [exact _| |intros _].
        -- destruct (probeEndpoints _ p); [|apply always_ret; exact _].
           intros s. unfold enqueue. destruct (_ <? _)%nat;
             apply emits_silent; reflexivity.
        -- apply always_bind; [exact _|apply always_get; exact _|intros s0].
           destruct (_ || _); [apply requested_dispatch|].
           apply always_ret; exact _.
    + apply always_ret; exact _.
    + apply IH.
Qed.

(** Every call of a bake is one its arguments ask for. *)
Lemma bake_calls_requested a sch st :
  Forall (requestedCall a) (bakeEvents a sch st).
Proof.
  destruct (preconditions a) eqn:Hpre;
    [|rewrite bakeEvents_early by auto; constructor].
  destruct (Z.ltb_spec (effectiveBatchSize a) 0) as [Hneg|Hb];
    [rewrite bakeEvents_early by auto; constructor|].
  destruct (requested_bakeLoop a sch (numProbes (probeBatch st))
              (mProbes (probeBatch st)) 0 (enter a st)) as (evs & Ht & Hn).
  fold (loopResult a sch st) in Ht.
  destruct (bake_trace a sch st Hpre Hb) as [Ht' _].
  rewrite Ht' in Ht. cbn [enter f_trace] in Ht. apply app_inv_head in Ht.
  rewrite Ht. exact Hn.
Qed.


(** X4: a bake produces only what it is asked for.  Without parametric
    output no Reverb is set and every stored Reverb of the identifier is
    what it was; without convolution output no Energy Field is set, no
    file is written and every stored Energy Field is what it was; no
    energy field is copied from the device unless the build has OpenCL and
    the backend is RadeonRays. *)
Theorem unrequested_output_untouched
    (a : BakeArgs) (sch : Schedule) (st : State) :
  let evs := bakeEvents a sch st in
  let id := identifier a in
  let pb := probeBatch st in
  let pb' := probeBatch (bake a sch st).1 in
  (bakeParametric a = false ->
   (forall index r, ~ In (EvSetReverb index r) evs) /\
   (forall n, storedReverb pb' id (Z.of_nat n) =
              storedReverb pb id (Z.of_nat n))) /\
  (bakeConvolution a = false ->
   (forall index f, ~ In (EvSetEnergyField index f) evs) /\
   Forall notWriteFile evs /\
   (forall n, storedEnergyField pb' id (Z.of_nat n) =
              storedEnergyField pb id (Z.of_nat n))) /\
  (IPL_USES_OPENCL && SceneType.eqb (sceneType a) SceneType.RadeonRays
     = false ->
   forall j, ~ In (EvCopyDeviceToHost j) evs).
Proof.
  intros evs id pb pb'.
  pose proof (bake_calls_requested a sch st) as Hreq.
  fold evs in Hreq. rewrite Forall_forall in Hreq.
  assert (Hframe : forall n,
    (reverbUntouched n evs ->
     storedReverb pb' id (Z.of_nat n) = storedReverb pb id (Z.of_nat n)) /\
    (energyFieldUntouched n evs ->
     storedEnergyField pb' id (Z.of_nat n) =
       storedEnergyField pb id (Z.of_nat n))).
  { intros n. destruct (preconditions a) eqn:Hpre.
    - apply bake_frame, Hpre.
    - subst pb' pb. unfold bake. rewrite Hpre. split; reflexivity. }
  split; [|split].
  - intros Hp.
    assert (Hno : forall index r, ~ In (EvSetReverb index r) evs).
    { intros index r Hin. apply list_elem_of_In, Hreq in Hin.
      destruct Hin as [Hin _]. congruence. }
    split; [exact Hno|]. intros n. apply Hframe.
    intros index r Hin. destruct (Hno index r Hin).
  - intros Hc.
    assert (Hno : forall index f, ~ In (EvSetEnergyField index f) evs).
    { intros index f Hin. apply list_elem_of_In, Hreq in Hin.
      destruct Hin as [Hin _]. congruence. }
    split; [exact Hno|]. split.
    + apply Forall_forall. intros e He. specialize (Hreq e He).
      destruct e; cbn in *; auto. destruct Hreq as [Hreq _]. congruence.
    + intros n. apply Hframe. intros index f Hin. destruct (Hno index f Hin).
  - intros Hg j Hin. apply list_elem_of_In, Hreq in Hin.
    destruct Hin as [Ho Hr]. rewrite Ho, Hr in Hg. discriminate.
Qed.

Lemma isWriteBack_file a pb i members wb :
  closedBatch a pb i members -> Forall (isWriteBack members) wb ->
  Forall (fileOfEligible a pb) wb.
Proof.
  intros Hc Hw. pose proof (closedBatch_eligible _ _ _ _ Hc) as Hel.
  rewrite Forall_forall in Hel. eapply Forall_impl; [exact Hw|].
  intros e He. destruct e; cbn in *; auto.
  destruct He as (index & Hin & ->). exists index.
  split; [apply Hel, list_elem_of_In, Hin|reflexivity].
Qed.

Lemma bake_files_eligible a sch st :
  Forall (fileOfEligible a (probeBatch st)) (bakeEvents a sch st).
Proof.
  destruct (preconditions a) eqn:Hpre;
    [|rewrite bakeEvents_early by auto; constructor].
  destruct (Z.ltb_spec (effectiveBatchSize a) 0) as [Hneg|Hb];
    [rewrite bakeEvents_early by auto; constructor|].
  destruct (bake_shape a sch st Hpre Hb) as (bl & partial & Hev & Hok & _ & Hres).
  rewrite Hev. apply Forall_app. split.
  - apply Forall_concat, Forall_map. eapply Forall_impl; [exact Hok|].
    intros b (_ & Hc & _ & [Hw _] & _). unfold batchEvents.
    repeat (apply Forall_app; split); try (repeat constructor; fail).
    + eapply isWriteBack_file; eassumption.
    + destruct (callback a); repeat constructor.
  - destruct ((bake a sch st).2).
    + destruct Hres as (-> & _). constructor.
    + destruct Hres as (-> & _). constructor.
    + destruct Hres as (_ & [->|(j & Hj & Hbr & _)]); [constructor|].
      destruct Hbr as (members & call & wb & Hc & _ & Hw & ->).
      apply Forall_app. split; [repeat constructor|].
      eapply isWriteBack_file; eassumption.
Qed.


(** X5: every file a bake writes is written for convolution output, under
    the path of an eligible probe of the batch, and holds the export of an
    impulse response at 44100 Hz. *)
Theorem diagnostic_files_of_a_bake (a : BakeArgs) (sch : Schedule) (st : State) :
  forall path contents,
    In (EvWriteFile path contents) (bakeEvents a sch st) ->
    bakeConvolution a = true /\
    (exists index,
       eligible a (probeBatch st) index = true /\
       path = Wav.filePath index) /\
    exists ir, contents = Wav.exportImpulseResponseAsWav ir 44100.
Proof.
  intros path contents Hin. apply list_elem_of_In in Hin.
  pose proof (bake_calls_requested a sch st) as Hreq.
  pose proof (bake_files_eligible a sch st) as Hel.
  rewrite Forall_forall in Hreq, Hel.
  specialize (Hreq _ Hin). specialize (Hel _ Hin). cbn in Hreq, Hel.
  destruct Hreq as (Hc & _ & ir & _ & ->).
  split; [exact Hc|]. split; [exact Hel|]. exists ir. reflexivity.
Qed.

(** ** What a completed bake has stored *)

Lemma applyEvent_length_fields e d :
  length (mEnergyFields (applyEvent e d)) = length (mEnergyFields d).
Proof. destruct e; cbn; rewrite ?length_insert; reflexivity. Qed.

Lemma replay_length evs :
  forall d,
    length (mReverbs (replay evs d)) = length (mReverbs d) /\
    length (mEnergyFields (replay evs d)) = length (mEnergyFields d).
Proof.
  induction evs as [|e evs IH]; intros d; [split; reflexivity|].
  rewrite replay_cons. destruct (IH (applyEvent e d)) as [-> ->].
  rewrite applyEvent_length, applyEvent_length_fields. split; reflexivity.
Qed.

Lemma targetData_length_fields a pb :
  wellSized pb ->
  length (mEnergyFields (targetData a pb)) = length (mProbes pb).
Proof.
  intros Hw. unfold targetData.
  destruct (lookupData (identifier a) (mData pb)) as [d|] eqn:Hl; cbn.
  - unfold wellSized in Hw. induction (mData pb) as [|[k v] l IH];
      [discriminate|].
    apply Forall_cons in Hw. destruct Hw as [[_ Hr] Hw]. cbn in Hl.
    destruct (decide (k = identifier a)); [|apply IH; assumption].
    injection Hl as <-. exact Hr.
  - rewrite length_replicate. unfold numProbes. lia.
Qed.

(** The last call of [set] for a slot decides what the slot holds. *)
Lemma replay_reverb_kept (Q : Reverb -> Prop) n evs :
  forall d,
    Forall (fun e => match e with EvSetReverb _ r => Q r | _ => True end)
           evs ->
    (exists r, mReverbs d !! n = Some (Some r) /\ Q r) ->
    exists r, mReverbs (replay evs d) !! n = Some (Some r) /\ Q r.
Proof.
  induction evs as [|e evs IH]; intros d Hall Hd; [exact Hd|].
  apply Forall_cons in Hall. destruct Hall as [He Hall].
  rewrite replay_cons. apply IH; [exact Hall|]. destruct Hd as (r & Hr & Hq).
  destruct e; cbn; eauto.
  destruct (decide (Z.to_nat index = n)) as [<-|Hne].
  - rewrite list_lookup_insert_eq by (eapply lookup_lt_Some; eassumption).
    eauto.
  - rewrite list_lookup_insert_ne by assumption. eauto.
Qed.

Lemma replay_reverb_set (Q : Reverb -> Prop) index r evs :
  forall d,
    Forall (fun e => match e with EvSetReverb _ r => Q r | _ => True end)
           evs ->
    In (EvSetReverb index r) evs ->
    (Z.to_nat index < length (mReverbs d))%nat ->
    exists r', mReverbs (replay evs d) !! Z.to_nat index = Some (Some r') /\
               Q r'.
Proof.
  induction evs as [|e evs IH]; intros d Hall Hin Hlen; [destruct Hin|].
  apply Forall_cons in Hall. destruct Hall as [He Hall].
  rewrite replay_cons. destruct Hin as [->|Hin].
  - apply replay_reverb_kept; [exact Hall|]. cbn.
    rewrite list_lookup_insert_eq by assumption. eauto.
  - apply IH; [exact Hall|exact Hin|]. rewrite applyEvent_length. exact Hlen.
Qed.

Lemma replay_field_kept (Q : option EnergyField -> Prop) n evs :
  forall d,
    Forall (fun e => match e with EvSetEnergyField _ f => Q f | _ => True end)
           evs ->
    (exists f, mEnergyFields d !! n = Some f /\ Q f) ->
    exists f, mEnergyFields (replay evs d) !! n = Some f /\ Q f.
Proof.
  induction evs as [|e evs IH]; intros d Hall Hd; [exact Hd|].
  apply Forall_cons in Hall. destruct Hall as [He Hall].
  rewrite replay_cons. apply IH; [exact Hall|]. destruct Hd as (r & Hr & Hq).
  destruct e; cbn; eauto.
  destruct (decide (Z.to_nat index = n)) as [<-|Hne].
  - rewrite list_lookup_insert_eq by (eapply lookup_lt_Some; eassumption).
    eauto.
  - rewrite list_lookup_insert_ne by assumption. eauto.
Qed.

Lemma replay_field_set (Q : option EnergyField -> Prop) index f evs :
  forall d,
    Forall (fun e => match e with EvSetEnergyField _ f => Q f | _ => True end)
           evs ->
    In (EvSetEnergyField index f) evs ->
    (Z.to_nat index < length (mEnergyFields d))%nat ->
    exists f', mEnergyFields (replay evs d) !! Z.to_nat index = Some f' /\
               Q f'.
Proof.
  induction evs as [|e evs IH]; intros d Hall Hin Hlen; [destruct Hin|].
  apply Forall_cons in Hall. destruct Hall as [He Hall].
  rewrite replay_cons. destruct Hin as [->|Hin].
  - apply replay_field_kept; [exact Hall|]. cbn.
    rewrite list_lookup_insert_eq by assumption. eauto.
  - apply IH; [exact Hall|exact Hin|].
    rewrite applyEvent_length_fields. exact Hlen.
Qed.

(** The batch of a completed bake that holds an eligible probe. *)
Lemma completed_member a sch st index :
  (bake a sch st).2 = Completed ->
  eligible a (probeBatch st) index = true ->
  exists b,
    In index (b_members b) /\
    allWritten a (b_members b) (b_writes b) /\
    forall e, In e (b_writes b) -> In e (bakeEvents a sch st).
Proof.
  intros Hdone Hel.
  destruct (completed_started a sch st) as [Hpre Hb];
    [rewrite Hdone; reflexivity|].
  destruct (bake_shape a sch st Hpre Hb) as (bl & partial & Hsh).
  destruct Hsh as (Hev & Hok & _ & Hres). rewrite Hdone in Hres.
  destruct Hres as (-> & _ & _ & Hcat). rewrite app_nil_r in Hev.
  pose proof (eligible_range _ _ _ Hel) as Hr.
  assert (Hin : In index (concat (map b_members bl))).
  { rewrite Hcat. apply list_elem_of_In, list_elem_of_filter.
    split; [exact Hel|]. apply elem_of_seqZ. lia. }
  apply in_concat in Hin. destruct Hin as (ms & Hms & Hin).
  apply in_map_iff in Hms. destruct Hms as (b & <- & Hb').
  rewrite Forall_forall in Hok.
  destruct (Hok b ltac:(apply list_elem_of_In, Hb'))
    as (_ & _ & _ & [_ Hall] & _).
  exists b. split; [exact Hin|]. split; [exact Hall|].
  intros e He. rewrite Hev. apply in_concat. eexists. split.
  - apply in_map. exact Hb'.
  - unfold batchEvents. rewrite !in_app_iff. auto.
Qed.

(** X6: after a bake for parametric output that ran to completion, every
    eligible probe holds a Reverb, the estimate of an energy field,
    whatever the variation, the backend and the batch size. *)
Theorem completed_parametric_bake
    (a : BakeArgs) (sch : Schedule) (st : State) (index : Z) :
  bakeParametric a = true ->
  wellSized (probeBatch st) ->
  (bake a sch st).2 = Completed ->
  eligible a (probeBatch st) index = true ->
  exists f,
    storedReverb (probeBatch (bake a sch st).1) (identifier a) index =
      Some (ReverbEstimator_estimate f).
Proof.
  intros Hpar Hw Hdone Hel.
  destruct (completed_started a sch st) as [Hpre Hb];
    [rewrite Hdone; reflexivity|].
  destruct (completed_member a sch st index Hdone Hel)
    as (b & Hin & [Hall _] & Hsub).
  destruct (Hall Hpar index Hin) as (r & Hwr). apply Hsub in Hwr.
  pose proof (eligible_range _ _ _ Hel) as Hr.
  unfold storedReverb. rewrite bake_data by assumption. unfold reverbAt.
  destruct (replay_reverb_set (fun r => exists f, r = ReverbEstimator_estimate f)
              index r (bakeEvents a sch st) (targetData a (probeBatch st)))
    as (r' & -> & f & ->).
  - eapply Forall_impl; [apply bake_calls_requested|].
    intros e He. destruct e; auto. apply He.
  - exact Hwr.
  - rewrite targetData_length by assumption. unfold numProbes in Hr. lia.
  - exists f. reflexivity.
Qed.

(** X7: after a bake for convolution output with different simulated and
    stored durations that ran to completion, every eligible probe holds a
    new field of the stored duration and the order of the bake that
    received a copy, and the diagnostic file of the probe was written. *)
Theorem completed_convolution_bake
    (a : BakeArgs) (sch : Schedule) (st : State) (index : Z) :
  bakeConvolution a = true ->
  float_eq (simDuration a) (bakeDuration a) = false ->
  wellSized (probeBatch st) ->
  (bake a sch st).2 = Completed ->
  eligible a (probeBatch st) index = true ->
  (exists src,
     storedEnergyField (probeBatch (bake a sch st).1) (identifier a) index =
       Some (copyFrom (EnergyField_new (bakeDuration a) (order a)) src)) /\
  exists ir,
    In (EvWriteFile (Wav.filePath index)
          (Wav.exportImpulseResponseAsWav ir 44100))
       (bakeEvents a sch st).
Proof.
  intros Hcv Hne Hw Hdone Hel.
  destruct (completed_started a sch st) as [Hpre Hb];
    [rewrite Hdone; reflexivity|].
  destruct (completed_member a sch st index Hdone Hel)
    as (b & Hin & [_ Hall] & Hsub).
  destruct (Hall Hcv index Hin) as (f & bytes & Hset & Hfile).
  apply Hsub in Hset, Hfile.
  pose proof (eligible_range _ _ _ Hel) as Hr.
  pose proof (bake_calls_requested a sch st) as Hreq.
  split.
  - unfold storedEnergyField. rewrite bake_data by assumption.
    unfold energyFieldAt.
    destruct (replay_field_set
                (fun f => exists src,
                   f = Some (copyFrom
                               (EnergyField_new (bakeDuration a) (order a))
                               src))
                index f (bakeEvents a sch st) (targetData a (probeBatch st)))
      as (f' & -> & src & ->).
    + eapply Forall_impl; [exact Hreq|].
      intros e He. destruct e; auto. apply He, Hne.
    + exact Hset.
    + rewrite targetData_length_fields by assumption.
      unfold numProbes in Hr. lia.
    + exists src. reflexivity.
  - rewrite Forall_forall in Hreq.
    destruct (Hreq _ ltac:(apply list_elem_of_In, Hfile))
      as (_ & index' & ir & _ & ->).
    exists ir. exact Hfile.
Qed.


(** ** The only fault of the loop *)

Lemma nullSafe_safe n m : safe n m -> nullSafe n m.
Proof. intros Hm s Hn Hf. left. apply Hm; assumption. Qed.

Lemma nullSafe_bind n (m k : M unit) :
  nullSafe n m -> nullSafe n k -> nullSafe n (m ;;; k).
Proof.
  intros Hm Hk s Hn Hf. rewrite bind_eq.
  destruct (Hm s Hn Hf) as [(s1 & -> & Hf1 & Hv1)|(s1 & ->)]; [|eauto].
  destruct (Hk s1 ltac:(congruence) Hf1) as [(s2 & -> & Hf2 & Hv2)|(s2 & ->)];
    [left|right; eauto].
  exists s2. split; [reflexivity|]. split; [assumption|congruence].
Qed.

Lemma nullSafe_forEach n (js : list nat) (body : nat -> M unit) :
  (forall j, In j js -> nullSafe n (body j)) -> nullSafe n (forEach js body).
Proof.
  induction js as [|j js IH]; intros Hb; cbn [forEach].
  - apply nullSafe_safe, safe_ret.
  - apply nullSafe_bind; [apply Hb; left; reflexivity|].
    apply IH. intros j' Hj'. apply Hb. right. exact Hj'.
Qed.

Lemma storeEnergyField_moved a j s :
  float_eq (simDuration a) (bakeDuration a) = true ->
  (exists p, energyFields s !! j = Some p) ->
  (exists index, indices s !! j = Some index) ->
  exists s', storeEnergyField a j s = Crash NullDereference s'.
Proof.
  intros Heq (p & Hp) (index & Hi).
  unfold storeEnergyField, takeEnergyField, bind, readIndex,
    derefEnergyField, emit, get, setEnergyFields, ret, fail.
  rewrite Heq. cbv beta. rewrite Hp. frame_simpl. rewrite Hi. frame_simpl.
  rewrite list_lookup_insert_eq by (eapply lookup_lt_Some; eassumption).
  eauto.
Qed.

Lemma nullSafe_storeEnergyField n a j :
  (j < n)%nat -> nullSafe n (storeEnergyField a j).
Proof.
  intros Hj. destruct (float_eq (simDuration a) (bakeDuration a)) eqn:Heq.
  - intros s Hn Hf. right.
    destruct (Hf j ltac:(lia)) as [(f & Hfj) Hij].
    apply storeEnergyField_moved; eauto.
  - apply nullSafe_safe, safe_storeEnergyField; assumption.
Qed.

Lemma nullSafe_writeBack n a : nullSafe n (writeBack a).
Proof.
  intros s Hn Hf. unfold writeBack. rewrite bind_eq. cbn [get].
  apply (nullSafe_bind n
           (if bakeParametric a
            then forEach (slots (numValidInBatch s)) storeReverb
            else ret tt)
           (if bakeConvolution a
            then forEach (slots (numValidInBatch s)) (storeEnergyField a)
            else ret tt)); [| |exact Hn|exact Hf].
  - apply nullSafe_safe.
    destruct (bakeParametric a); [|apply safe_ret].
    apply safe_fixed_slots; [assumption|].
    intros j Hj. apply safe_storeReverb, Hj.
  - destruct (bakeConvolution a); [|apply nullSafe_safe, safe_ret].
    unfold slots. rewrite Hn. apply nullSafe_forEach.
    intros j Hj. apply nullSafe_storeEnergyField. apply in_seq in Hj. lia.
Qed.

Lemma dispatch_nullSafe a N i s :
  Filled s ->
  (exists brk s', dispatch a N i s = Done brk s' /\ numValidInBatch s' = 0) \/
  (exists s', dispatch a N i s = Crash NullDereference s').
Proof.
  intros Hf. unfold dispatch. rewrite bind_eq.
  set (n := Z.to_nat (numValidInBatch s)).
  destruct (safe_simulateBatch n a i s eq_refl Hf) as (s1 & -> & Hf1 & Hv1).
  rewrite bind_eq.
  destruct (safe_deviceToHost n a s1 ltac:(subst n; congruence) Hf1)
    as (s2 & -> & Hf2 & Hv2).
  rewrite bind_eq.
  destruct (nullSafe_writeBack n a s2 ltac:(subst n; congruence) Hf2)
    as [(s3 & -> & Hf3 & Hv3)|(s3 & ->)]; [|eauto].
  left.
  unfold reportAndCheck, setNumValidInBatch, bind, get, emit, setCancel, ret.
  destruct (callback a); frame_simpl; destruct (f_sCancel s3); eauto.
Qed.

Lemma iteration_nullSafe a sch pb i p s :
  1 <= effectiveBatchSize a ->
  HeadInv a pb i s -> Filled s ->
  (exists brk s',
     iteration a sch (numProbes pb) i p s = Done brk s' /\
     (brk = false -> Filled s')) \/
  (exists s', iteration a sch (numProbes pb) i p s = Crash NullDereference s').
Proof.
  intros Hbs HI Hf. unfold iteration. rewrite bind_eq.
  set (s0 := if cancelDuring sch i then requestCancel s else s).
  assert (Hs0 : (if cancelDuring sch i then cancelRequest else ret tt) s
                = Done tt s0)
    by (subst s0; destruct (cancelDuring sch i); reflexivity).
  assert (HI0 : HeadInv a pb i s0)
    by (subst s0; destruct (cancelDuring sch i);
        [apply HeadInv_requestCancel|]; exact HI).
  assert (Hf0 : Filled s0)
    by (subst s0; destruct (cancelDuring sch i);
        [apply Filled_requestCancel|]; exact Hf).
  rewrite Hs0. clearbody s0. clear Hs0 HI Hf s.
  destruct HI0 as [Hs Hl He Hi H0 Hhi Hm Hp].
  unfold loopBody. rewrite bind_eq.
  assert (Hstep : exists s1,
            match probeEndpoints (identifier a) p with
            | Some sl => enqueue a i sl
            | None => ret tt
            end s0 = Done tt s1 /\ Filled s1).
  { destruct (probeEndpoints (identifier a) p) as [sl|]; [|eauto].
    destruct (enqueue a i sl s0) as [[] s1|f s1] eqn:Henq.
    - exists s1. split; [reflexivity|].
      eapply Filled_enqueue; try eassumption; congruence.
    - exfalso. unfold enqueue in Henq.
      destruct (Nat.ltb_spec (Z.to_nat (numValidInBatch s0))
                  (length (sources s0))); [discriminate|lia]. }
  destruct Hstep as (s1 & -> & Hf1). rewrite bind_eq. cbn [get].
  destruct (_ || _).
  - destruct (dispatch_nullSafe a (numProbes pb) i s1 Hf1)
      as [(brk & s' & Hd & Hv)|(s' & Hd)]; [left|right; eauto].
    exists brk, s'. split; [exact Hd|]. intros _.
    intros j Hj. rewrite Hv in Hj. cbn in Hj. lia.
  - left. exists false, s1. auto.
Qed.

Lemma bakeLoop_nullSafe a sch pb :
  1 <= effectiveBatchSize a ->
  forall ps i s,
    HeadInv a pb i s -> Filled s -> 0 <= i ->
    drop (Z.to_nat i) (mProbes pb) = ps ->
    (exists brk s', bakeLoop a sch (numProbes pb) i ps s = Done brk s') \/
    (exists s', bakeLoop a sch (numProbes pb) i ps s
                = Crash NullDereference s').
Proof.
  intros Hbs. induction ps as [|p ps IH]; intros i s HI Hf Hi0 Hdrop.
  - cbn. eauto.
  - destruct (drop_cons_inv _ _ _ _ Hdrop) as [Hp Hdrop'].
    cbn [bakeLoop]. rewrite bind_eq.
    destruct (iteration_nullSafe a sch pb i p s Hbs HI Hf)
      as [(brk & s1 & Hit & Hf1)|(s1 & Hit)]; [|rewrite Hit; eauto].
    pose proof (iteration_spec a sch pb i p s HI Hi0 Hp) as Hspec.
    cbn zeta in Hspec. rewrite Hit in Hspec. rewrite Hit.
    destruct brk; [cbn; eauto|].
    destruct Hspec as [HI1 _].
    apply (IH (i + 1) s1 HI1 (Hf1 eq_refl)); [lia|].
    replace (Z.to_nat (i + 1)) with (S (Z.to_nat i)) by lia. exact Hdrop'.
Qed.

Lemma bake_fault_kind a sch st f :
  preconditions a = true -> 1 <= effectiveBatchSize a ->
  (bake a sch st).2 = Faulted f -> f = NullDereference.
Proof.
  intros Hpre Hbs. rewrite bake_unfold by (auto; lia).
  destruct (bakeLoop_nullSafe a sch (probeBatch st) Hbs
              (mProbes (probeBatch st)) 0 (enter a st))
    as [(brk & s' & Hl)|(s' & Hl)].
  - apply HeadInv_enter. lia.
  - intros j Hj. cbn in Hj. lia.
  - lia.
  - reflexivity.
  - unfold loopResult. rewrite Hl. destruct brk; discriminate.
  - unfold loopResult. rewrite Hl. cbn. congruence.
Qed.

(** X16: a bake that passes its asserts and works with a batch size of at
    least one never reads or writes its batch arrays out of range: if it
    faults, it does so on the dereference of an emptied energy field
    pointer, and it was asked for convolution output with equal
    durations. *)
Theorem bake_faults_only_on_a_moved_field
    (a : BakeArgs) (sch : Schedule) (st : State) (f : Fault) :
  preconditions a = true -> 1 <= effectiveBatchSize a ->
  (bake a sch st).2 = Faulted f ->
  f = NullDereference /\
  bakeConvolution a = true /\
  float_eq (simDuration a) (bakeDuration a) = true.
Proof.
  intros Hpre Hbs Hout.
  split; [eapply bake_fault_kind; eassumption|].
  destruct (noMove a) eqn:Hnm.
  - pose proof (bake_no_fault a sch st Hpre Hnm Hbs) as Hnf.
    rewrite Hout in Hnf. discriminate.
  - unfold noMove in Hnm. apply orb_false_iff in Hnm.
    destruct Hnm as [Hc He]. apply negb_false_iff in Hc, He.
    split; [exact Hc|exact He].
Qed.


(** ** How a bake ends *)

Lemma quiet_not_cancelled a sch st :
  sCancel st = false -> (forall i, cancelDuring sch i = false) ->
  (bake a sch st).2 <> Cancelled.
Proof.
  intros Hc0 Hquiet Hout.
  destruct (completed_started a sch st) as [Hpre Hb];
    [rewrite Hout; reflexivity|].
  destruct (bake_shape a sch st Hpre Hb) as (bl & partial & Hsh).
  destruct Hsh as (_ & Hok & _ & Hres). rewrite Hc0 in Hok.
  rewrite Hout in Hres. destruct Hres as (_ & _ & bl0 & b & -> & Hbc & _).
  apply Forall_app in Hok. destruct Hok as [_ Hok].
  apply Forall_inv in Hok. destruct Hok as (_ & _ & _ & _ & Hreq).
  rewrite requested_quiet in Hreq by assumption. congruence.
Qed.

(** With a batch size of zero the batch arrays are empty: the first
    eligible probe is written out of range, and every probe before it
    closes an empty batch. *)
Lemma bakeLoop_zero a sch N ps :
  effectiveBatchSize a = 0 ->
  forall i s,
    numValidInBatch s = 0 -> length (sources s) = 0%nat ->
    (exists brk s', bakeLoop a sch N i ps s = Done brk s') \/
    (exists s', bakeLoop a sch N i ps s = Crash IndexOutOfRange s').
Proof.
  intros Hz. induction ps as [|p ps IH]; intros i s Hnv Hlen; cbn [bakeLoop].
  { left. eexists _, _. reflexivity. }
  set (s0 := if cancelDuring sch i then requestCancel s else s).
  assert (Hreq : (if cancelDuring sch i then cancelRequest else ret tt) s =
                 Done tt s0) by (subst s0; destruct (cancelDuring sch i);
                                 reflexivity).
  assert (Hnv0 : numValidInBatch s0 = 0)
    by (subst s0; destruct (cancelDuring sch i);
        rewrite ?numValidInBatch_requestCancel; exact Hnv).
  assert (Hlen0 : length (sources s0) = 0%nat).
  { subst s0. destruct (cancelDuring sch i); [|exact Hlen].
    unfold requestCancel. destruct (f_sBakeInProgress s); exact Hlen. }
  rewrite bind_eq. unfold iteration. rewrite bind_eq, Hreq.
  unfold loopBody. rewrite bind_eq.
  destruct (probeEndpoints (identifier a) p) as [sl|].
  - right. unfold enqueue. rewrite Hnv0, Hlen0. cbn. eauto.
  - cbn [ret]. rewrite bind_eq. cbn [get]. rewrite Hnv0, Hz. cbn [Z.eqb orb].
    destruct (dispatch_empty a N i s0 Hnv0) as (call & s' & Hd & _).
    destruct (dispatch_spec a N i s0 ltac:(lia)
                ltac:(rewrite Hnv0; cbn; lia)) as (call' & wb & _ & _ & Hs).
    rewrite Hd in Hs |- *.
    destruct Hs as (_ & _ & _ & _ & Hnv' & _ & Hlen' & _).
    destruct (f_sCancel s0).
    + left. eexists _, _. reflexivity.
    + apply IH; [exact Hnv'|rewrite Hlen'; exact Hlen0].
Qed.

(** X8: how a bake ends, for every input.  A bake that fails an assert
    changes nothing.  Otherwise, by the batch size that lines 101-104
    leave: with a negative size the batch arrays cannot be allocated;
    with a size of zero they are empty, an eligible probe is written out
    of range, and the bake only runs to completion when no probe is
    eligible; with a size of at least one the bake returns, or faults on
    the dereference of an emptied energy field pointer, and it returns
    whenever it moves no energy field out of its batch (no convolution
    output, or different durations), running to completion when no
    cancellation is pending or made.  A bake that returns has reset
    sBakeInProgress, so that a later cancel() changes nothing; a bake
    left by a fault past the asserts leaves the flag set. *)
Theorem bake_outcomes (a : BakeArgs) (sch : Schedule) (st : State) :
  let r := bake a sch st in
  (preconditions a = false -> r = (st, Faulted AssertionFailure)) /\
  (preconditions a = true ->
   (effectiveBatchSize a < 0 -> r.2 = Faulted AllocationFailure) /\
   (effectiveBatchSize a = 0 ->
    (r.2 = Completed \/ r.2 = Cancelled \/ r.2 = Faulted IndexOutOfRange) /\
    (r.2 = Completed ->
     forall index, eligible a (probeBatch st) index = false)) /\
   (1 <= effectiveBatchSize a ->
    (r.2 = Completed \/ r.2 = Cancelled \/ r.2 = Faulted NullDereference) /\
    (noMove a = true -> r.2 = Completed \/ r.2 = Cancelled) /\
    (noMove a = true ->
     sCancel st = false -> (forall i, cancelDuring sch i = false) ->
     r.2 = Completed)) /\
   (isFault r.2 = true -> sBakeInProgress r.1 = true)) /\
  (isFault r.2 = false -> sBakeInProgress r.1 = false /\ cancel r.1 = r.1).
Proof.
  intros r. subst r.
  split; [intros Hpre; unfold bake; rewrite Hpre; reflexivity|].
  split.
  2:{ intros Hnf. pose proof (returned_state a sch st Hnf) as Hp.
      split; [exact Hp|]. unfold cancel. rewrite Hp. reflexivity. }
  intros Hpre. split; [|split; [|split]].
  - intros Hneg. unfold bake. rewrite Hpre. cbn [negb].
    destruct (Z.ltb_spec (effectiveBatchSize a) 0); [reflexivity|lia].
  - intros Hz. split.
    + rewrite bake_unfold by (auto; lia). unfold loopResult.
      destruct (bakeLoop_zero a sch (numProbes (probeBatch st))
                  (mProbes (probeBatch st)) Hz 0 (enter a st))
        as [(brk & s' & ->)|(s' & ->)].
      * reflexivity.
      * cbn. rewrite Hz. reflexivity.
      * destruct brk; auto.
      * auto.
    + intros Hdone index.
      destruct (bake_shape a sch st Hpre ltac:(lia)) as (bl & partial & Hsh).
      destruct Hsh as (_ & Hok & _ & Hres). rewrite Hdone in Hres.
      destruct Hres as (_ & _ & _ & Hcat).
      assert (Hnil : concat (map b_members bl) = []).
      { clear Hcat. induction Hok as [|b bl Hb _ IH]; [reflexivity|].
        destruct Hb as (_ & (_ & Hle & _) & _). rewrite Hz in Hle.
        cbn [map concat]. rewrite IH.
        destruct (b_members b); [reflexivity|cbn in Hle; lia]. }
      rewrite Hnil in Hcat.
      destruct (eligible a (probeBatch st) index) eqn:He; [|reflexivity].
      exfalso.
      assert (Hin : index ∈ filter
                (fun index => eligible a (probeBatch st) index = true)
                (seqZ 0 (numProbes (probeBatch st)))).
      { apply list_elem_of_filter. split; [exact He|].
        apply elem_of_seqZ. apply eligible_range in He. lia. }
      rewrite <- Hcat in Hin. inversion Hin.
  - intros Hbs. split; [|split].
    + destruct ((bake a sch st).2) as [| |f] eqn:Hout; auto.
      right. right. f_equal. eapply bake_fault_kind; eassumption.
    + intros Hnm.
      pose proof (bake_no_fault a sch st Hpre Hnm Hbs) as Hnf.
      destruct ((bake a sch st).2); auto. discriminate.
    + intros Hnm Hc0 Hquiet.
      pose proof (bake_no_fault a sch st Hpre Hnm Hbs) as Hnf.
      pose proof (quiet_not_cancelled a sch st Hc0 Hquiet) as Hnc.
      destruct ((bake a sch st).2); [reflexivity|congruence|discriminate].
  - intros Hf. apply faulted_state; assumption.
Qed.

(** X9: sCancel is cleared only by the read that finds it set.  A bake that
    is entered with the flag set and returns stops at its first closed
    batch: one simulator call, the outcome of a cancellation. *)
Theorem pending_cancel_stops_the_next_bake
    (a : BakeArgs) (sch : Schedule) (st : State) :
  sCancel st = true ->
  isFault (bake a sch st).2 = false ->
  mProbes (probeBatch st) <> [] ->
  (bake a sch st).2 = Cancelled /\
  length (simulateCalls (bakeEvents a sch st)) = 1%nat /\
  sCancel (bake a sch st).1 = cancelAfter sch.
Proof.
  intros Hc0 Hnf Hne.
  destruct (completed_started a sch st Hnf) as [Hpre Hb].
  destruct (bake_shape a sch st Hpre Hb) as (bl & partial & Hsh).
  destruct Hsh as (Hev & Hok & _ & Hres). rewrite Hc0 in Hok.
  assert (Hall : Forall (fun b => b_cancelled b = true) bl).
  { eapply Forall_impl; [exact Hok|]. intros b (_ & _ & _ & _ & ->).
    reflexivity. }
  destruct ((bake a sch st).2) eqn:Hout; [exfalso| |discriminate].
  - destruct Hres as (_ & Hnc & Hlast & _). specialize (Hlast Hne).
    destruct bl as [|b bl]; [discriminate|].
    apply Forall_inv in Hall. apply Forall_inv in Hnc. congruence.
  - destruct Hres as (-> & Hsc & bl0 & b & -> & _ & Hnc).
    split; [reflexivity|]. split; [|exact Hsc].
    destruct bl0 as [|b0 bl0].
    + rewrite app_nil_r in Hev. rewrite Hev.
      rewrite simulateCalls_batches by (eapply batchOK_writes, Hok).
      reflexivity.
    + apply Forall_inv in Hall. apply Forall_inv in Hnc. congruence.
Qed.

(** X11: in a bake that ran to completion the members of the simulator
    calls, call after call, are the eligible probes in probe order, each
    once; the calls are made at strictly increasing probes, the last one at
    the last probe. *)
Theorem completed_bake_simulates_each_eligible_probe_once
    (a : BakeArgs) (sch : Schedule) (st : State) :
  (bake a sch st).2 = Completed ->
  let calls := simulateCalls (bakeEvents a sch st) in
  let N := numProbes (probeBatch st) in
  concat (map (fun c => c.1.2) calls) =
    filter (fun index => eligible a (probeBatch st) index = true)
           (seqZ 0 N) /\
  StronglySorted Z.lt (map (fun c => c.1.1) calls) /\
  (0 < N -> last (map (fun c => c.1.1) calls) = Some (N - 1)).
Proof.
  intros Hdone calls N. subst calls N.
  destruct (completed_started a sch st) as [Hpre Hb];
    [rewrite Hdone; reflexivity|].
  destruct (bake_shape a sch st Hpre Hb) as (bl & partial & Hsh).
  destruct Hsh as (Hev & Hok & Hsort & Hres). rewrite Hdone in Hres.
  destruct Hres as (-> & _ & Hlast & Hcat). rewrite app_nil_r in Hev.
  rewrite Hev, simulateCalls_batches by (eapply batchOK_writes, Hok).
  unfold callsOf. rewrite !map_map. cbn [fst snd].
  split; [exact Hcat|]. split; [exact Hsort|].
  intros HN. apply Hlast. unfold numProbes in HN.
  destruct (mProbes (probeBatch st)); [cbn in HN; lia|discriminate].
Qed.

(** X12: every simulator call is made at a probe of the batch and is given
    the numRays, numBounces, simDuration (not bakeDuration), order and
    irradianceMinDistance of the bake. *)
Theorem simulator_calls_pass_the_arguments
    (a : BakeArgs) (sch : Schedule) (st : State) :
  Forall (fun c =>
            0 <= c.1.1 < numProbes (probeBatch st) /\
            sc_numRays c.2 = numRays a /\
            sc_numBounces c.2 = numBounces a /\
            sc_simDuration c.2 = simDuration a /\
            sc_order c.2 = order a /\
            sc_irradianceMinDistance c.2 = irradianceMinDistance a)
         (simulateCalls (bakeEvents a sch st)).
Proof.
  eapply Forall_impl; [apply bake_calls|].
  intros [[i members] call] (Hi & _ & _ & Hrest). cbn [fst snd] in *.
  split; [exact Hi|exact Hrest].
Qed.

(** X13: with convolution output, equal durations, no cancellation and an
    eligible probe in the batch, a bake does not return, and writes no
    file; when it passes its asserts with a batch size of at least one, it
    faults on the dereference of the emptied pointer. *)
Theorem moved_field_bake_faults
    (a : BakeArgs) (sch : Schedule) (st : State) (index : Z) :
  bakeConvolution a = true ->
  float_eq (simDuration a) (bakeDuration a) = true ->
  sCancel st = false -> (forall i, cancelDuring sch i = false) ->
  eligible a (probeBatch st) index = true ->
  isFault (bake a sch st).2 = true /\
  Forall notWriteFile (bakeEvents a sch st) /\
  (preconditions a = true -> 1 <= effectiveBatchSize a ->
   (bake a sch st).2 = Faulted NullDereference).
Proof.
  intros Hcv Heq Hc0 Hquiet Hel.
  pose proof (moved_field_writes_no_file a sch st Heq) as Hno.
  assert (Hf : isFault (bake a sch st).2 = true).
  { destruct ((bake a sch st).2) eqn:Hout; [exfalso|exfalso|reflexivity].
    - destruct (completed_member a sch st index Hout Hel)
        as (b & Hin & [_ Hall] & Hsub).
      destruct (Hall Hcv index Hin) as (f & bytes & _ & Hfile).
      apply Hsub, list_elem_of_In in Hfile.
      rewrite Forall_forall in Hno. apply (Hno _ Hfile).
    - apply (quiet_not_cancelled a sch st Hc0 Hquiet Hout). }
  split; [exact Hf|]. split; [exact Hno|].
  intros Hpre Hbs. destruct ((bake a sch st).2) as [| |f] eqn:Hout;
    try discriminate.
  f_equal. eapply bake_fault_kind; eassumption.
Qed.


(** ** The baked data stays in shape *)

Lemma bake_batch a sch st :
  preconditions a = true ->
  probeBatch (bake a sch st).1 =
    withData (identifier a)
      (replay (bakeEvents a sch st) (targetData a (probeBatch st)))
      (ensureData a (probeBatch st)).
Proof.
  intros Hpre. pose proof (bake_data a sch st Hpre) as Hd.
  assert (Hl : exists b s, (bake a sch st).1 = leave a st b s).
  { unfold bake. rewrite Hpre. cbn [negb].
    destruct (effectiveBatchSize a <? 0); [eauto|].
    destruct (bakeLoop _ _ _ _ _ _); eauto. }
  destruct Hl as (b & s & Hl). rewrite Hl in Hd |- *.
  rewrite lookupData_leave in Hd. injection Hd as Hd.
  cbn [leave probeBatch]. rewrite Hd. reflexivity.
Qed.

Lemma Forall_putData (Q : BakedReflectionsData -> Prop) id d l :
  Forall (fun kv => Q kv.2) l -> Q d ->
  Forall (fun kv => Q kv.2) (putData id d l).
Proof.
  intros Hall Hd. induction Hall as [|[k v] l Hkv Hl IH]; cbn; [constructor|].
  destruct (decide (k = id)); constructor; auto.
Qed.

Lemma lookupData_filter_ne id id' l :
  id' <> id ->
  lookupData id' (filter (fun kv => kv.1 <> id) l) = lookupData id' l.
Proof.
  intros Hne. induction l as [|[k v] l IH]; [reflexivity|].
  rewrite filter_cons. cbn [fst].
  destruct (decide (k <> id)) as [Hk|Hk]; cbn [lookupData].
  - destruct (decide (k = id')); [reflexivity|exact IH].
  - destruct (decide (k = id')) as [->|_]; [|exact IH].
    exfalso. apply Hk. exact Hne.
Qed.

(** X14: a bake leaves the probes of the batch alone; every call of
    [set] it makes is for a probe index of the batch; each baked data
    object of the batch has after the bake the number of Reverb and of
    Energy Field slots it had before, and data the bake creates has one
    slot of each kind per probe.  So if every baked data object holds one
    slot of each kind per probe before the bake, it does so after it. *)
Theorem bake_keeps_the_batch_well_sized
    (a : BakeArgs) (sch : Schedule) (st : State) :
  let pb := probeBatch st in
  let pb' := probeBatch (bake a sch st).1 in
  mProbes pb' = mProbes pb /\
  Forall (writesInRange pb) (bakeEvents a sch st) /\
  (forall id d',
     lookupData id (mData pb') = Some d' ->
     match lookupData id (mData pb) with
     | Some d =>
         length (mReverbs d') = length (mReverbs d) /\
         length (mEnergyFields d') = length (mEnergyFields d)
     | None =>
         id = identifier a /\
         length (mReverbs d') = length (mProbes pb) /\
         length (mEnergyFields d') = length (mProbes pb)
     end) /\
  (wellSized pb -> wellSized pb').
Proof.
  intros pb pb'. subst pb pb'.
  assert (Hrange : Forall (writesInRange (probeBatch st))
                     (bakeEvents a sch st)).
  { eapply Forall_impl; [apply bake_writes_eligible|].
    intros e He. destruct e; cbn in *; auto; eapply eligible_range, He. }
  destruct (preconditions a) eqn:Hpre.
  2:{ unfold bake in *. rewrite Hpre. cbn [negb fst].
      split; [reflexivity|].
      split; [rewrite bakeEvents_early by auto; constructor|].
      split; [|auto].
      intros id d' Hl. rewrite Hl. split; reflexivity. }
  rewrite bake_batch by assumption.
  assert (Hp : mProbes (ensureData a (probeBatch st)) = mProbes (probeBatch st))
    by (unfold ensureData; destruct (hasData _ _); reflexivity).
  split; [exact Hp|]. split; [exact Hrange|]. split.
  - intros id d' Hl. cbn [withData mData] in Hl.
    destruct (decide (id = identifier a)) as [->|Hne].
    + rewrite lookupData_putData in Hl
        by (rewrite lookupData_ensureData; discriminate).
      injection Hl as <-.
      destruct (replay_length (bakeEvents a sch st)
                  (targetData a (probeBatch st))) as [-> ->].
      unfold targetData.
      destruct (lookupData (identifier a) (mData (probeBatch st))) as [d|];
        cbn; [split; reflexivity|].
      rewrite !length_replicate. unfold numProbes. split; [reflexivity|].
      split; lia.
    + rewrite lookupData_putData_ne in Hl by exact Hne.
      assert (Hsame : lookupData id (mData (ensureData a (probeBatch st))) =
                      lookupData id (mData (probeBatch st))).
      { unfold ensureData. destruct (hasData _ _); [reflexivity|].
        cbn [addData mData lookupData].
        destruct (decide (identifier a = id)); [congruence|].
        apply lookupData_filter_ne, Hne. }
      rewrite Hsame in Hl. rewrite Hl. split; reflexivity.
  - intros Hw. unfold wellSized. cbn [withData mProbes mData].
    rewrite Hp.
    apply (Forall_putData
             (fun d => length (mReverbs d) = length (mProbes (probeBatch st)) /\
                       length (mEnergyFields d) =
                         length (mProbes (probeBatch st)))).
    + unfold ensureData. destruct (hasData _ _); [exact Hw|].
      cbn [addData mData]. constructor.
      * cbn. rewrite !length_replicate. unfold numProbes. lia.
      * apply Forall_forall. intros kv Hkv.
        apply list_elem_of_filter in Hkv. destruct Hkv as [_ Hkv].
        unfold wellSized in Hw. rewrite Forall_forall in Hw. apply Hw, Hkv.
    + destruct (replay_length (bakeEvents a sch st)
                  (targetData a (probeBatch st))) as [-> ->].
      rewrite targetData_length, targetData_length_fields by assumption.
      split; reflexivity.
Qed.

(** ** The endpoints passed to the simulator *)

Lemma simulateBatch_call a i s :
  exists call s1,
    simulateBatch a i s = Done tt s1 /\
    f_trace s1 =
      f_trace s ++
      [EvJobGraphReset; EvSimulate i (pendingMembers s) call; EvProcess] /\
    sc_sources call = sources s /\ sc_listeners call = listeners s.
Proof.
  unfold simulateBatch, bind, get, emit, setSimulator, setEnergyFields.
  eexists _, _. split; [reflexivity|]. frame_simpl.
  rewrite <- !app_assoc. repeat split.
Qed.

Lemma isWriteBack_endpoints a pb members wb :
  Forall (isWriteBack members) wb -> Forall (simulatesEndpoints a pb) wb.
Proof.
  intros Hw. eapply Forall_impl; [exact Hw|].
  intros e He. destruct e; cbn in *; auto. destruct He.
Qed.

Lemma endpoints_dispatch a pb N i s :
  0 <= numValidInBatch s ->
  (Z.to_nat (numValidInBatch s) <= length (indices s))%nat ->
  Staged a pb s ->
  emits (simulatesEndpoints a pb) s (post (dispatch a N i s)).
Proof.
  intros H0 Hlen Hst.
  destruct (dispatch_spec a N i s H0 Hlen) as (call0 & wb & _ & Hwb & Hd).
  destruct (simulateBatch_call a i s) as (call & s1 & Hsim & Ht1 & Hsrc & Hlst).
  assert (Hrest : always logged
            (deviceToHost a ;;; writeBack a ;;; setNumValidInBatch 0 ;;;
             reportAndCheck a N i)).
  { apply always_bind; [exact _|apply logged_deviceToHost|intros _].
    apply always_bind; [exact _|apply logged_writeBack|intros _].
    apply always_bind; [exact _|apply logged_setNumValidInBatch|intros _].
    apply logged_reportAndCheck. }
  destruct (Hrest s1) as [(evs' & Ht' & _) _].
  assert (Hd' : dispatch a N i s =
                (deviceToHost a ;;; writeBack a ;;; setNumValidInBatch 0 ;;;
                 reportAndCheck a N i) s1).
  { unfold dispatch. rewrite bind_eq, Hsim. reflexivity. }
  rewrite <- Hd' in Ht'. rewrite Ht1, <- app_assoc in Ht'.
  assert (Hgood : simulatesEndpoints a pb
                    (EvSimulate i (pendingMembers s) call)).
  { cbn. intros j index Hj. rewrite Hsrc, Hlst. apply Hst, Hj. }
  pose proof (isWriteBack_endpoints a pb _ _ Hwb) as Hwb'.
  destruct (dispatch a N i s) as [brk s'|f s']; cbn [post] in *.
  - destruct Hd as (_ & Ht & _). rewrite Ht in Ht'.
    apply app_inv_head in Ht'. unfold batchEvents in Ht'.
    cbn [b_i b_members b_call b_writes b_cancelled app] in Ht'.
    injection Ht' as Hcall _. subst call0.
    eexists. split; [exact Ht|]. unfold batchEvents.
    cbn [b_i b_members b_call b_writes b_cancelled].
    repeat (apply Forall_app; split); try assumption.
    + constructor; [exact I|]. constructor; [exact Hgood|].
      constructor; [exact I|constructor].
    + destruct (callback a); repeat constructor.
    + repeat constructor.
  - rewrite Hd in Ht'. apply app_inv_head in Ht'. cbn [app] in Ht'.
    injection Ht' as Hcall _. subst call0.
    eexists. split; [exact Hd|].
    apply Forall_app; split; [|assumption].
    constructor; [exact I|]. constructor; [exact Hgood|].
    constructor; [exact I|constructor].
Qed.

Lemma Staged_requestCancel a pb s :
  Staged a pb s -> Staged a pb (requestCancel s).
Proof.
  unfold Staged, requestCancel, pendingMembers.
  destruct (f_sBakeInProgress s); auto.
Qed.

Lemma endpointsAt_probe a pb i p :
  0 <= i -> mProbes pb !! Z.to_nat i = Some p ->
  endpointsAt a pb i = probeEndpoints (identifier a) p.
Proof.
  intros H0 Hp. unfold endpointsAt. rewrite Hp.
  destruct (Z.leb_spec 0 i); [reflexivity|lia].
Qed.

Lemma Staged_enqueue a pb i p sl s s1 :
  HeadInv a pb i s -> Staged a pb s ->
  0 <= i -> mProbes pb !! Z.to_nat i = Some p ->
  probeEndpoints (identifier a) p = Some sl ->
  enqueue a i sl s = Done tt s1 -> Staged a pb s1.
Proof.
  intros [Hs Hl He Hi H0 Hhi Hm Hp] Hst Hi0 Hpr Hsl. unfold enqueue.
  destruct (Nat.ltb_spec (Z.to_nat (numValidInBatch s)) (length (sources s)))
    as [Hlt|Hge]; [|discriminate].
  intros Hd. injection Hd as <-.
  set (k := Z.to_nat (numValidInBatch s)) in *.
  assert (Hpm : pendingMembers s = take k (indices s)) by reflexivity.
  intros j index. unfold pendingMembers, slotEndpoints. frame_simpl.
  replace (Z.to_nat (numValidInBatch s + 1)) with (S k) by lia.
  intros Hj. pose proof (lookup_lt_Some _ _ _ Hj) as Hjlt.
  rewrite length_take, length_insert in Hjlt.
  apply lookup_take_Some in Hj. destruct Hj as [Hj _].
  destruct (decide (j = k)) as [->|Hne].
  - rewrite list_lookup_insert_eq in Hj by lia. injection Hj as <-.
    rewrite !list_lookup_insert_eq by lia.
    rewrite (endpointsAt_probe a pb i p Hi0 Hpr), Hsl.
    split; [eauto|]. destruct sl; reflexivity.
  - rewrite list_lookup_insert_ne in Hj by auto.
    rewrite !list_lookup_insert_ne by auto.
    apply Hst. rewrite Hpm. apply lookup_take_Some. split; [exact Hj|lia].
Qed.

Lemma endpoints_loopBody a pb i p s :
  HeadInv a pb i s -> Staged a pb s ->
  0 <= i -> mProbes pb !! Z.to_nat i = Some p ->
  emits (simulatesEndpoints a pb) s
    (post (loopBody a (numProbes pb) i p s)) /\
  forall s', loopBody a (numProbes pb) i p s = Done false s' ->
             Staged a pb s'.
Proof.
  intros HI Hst Hi0 Hpr.
  assert (Hclose : forall s1,
    f_trace s1 = f_trace s -> Staged a pb s1 ->
    0 <= numValidInBatch s1 ->
    (Z.to_nat (numValidInBatch s1) <= length (indices s1))%nat ->
    emits (simulatesEndpoints a pb) s
      (post ((s2 <- get ;;
              if (numValidInBatch s2 =? effectiveBatchSize a)
                 || (i =? numProbes pb - 1)
              then dispatch a (numProbes pb) i
              else ret false) s1)) /\
    forall s',
      (s2 <- get ;;
       if (numValidInBatch s2 =? effectiveBatchSize a)
          || (i =? numProbes pb - 1)
       then dispatch a (numProbes pb) i
       else ret false) s1 = Done false s' ->
      Staged a pb s').
  { intros s1 Ht1 Hst1 H0 Hle. rewrite bind_eq. cbn [get].
    destruct (_ || _).
    - pose proof (endpoints_dispatch a pb (numProbes pb) i s1 H0 Hle Hst1)
        as (evs & Ht & Hall).
      split; [exists evs; rewrite Ht, Ht1; auto|].
      intros s' Hd.
      destruct (dispatch_spec a (numProbes pb) i s1 H0 Hle)
        as (call & wb & _ & _ & Hspec).
      rewrite Hd in Hspec. destruct Hspec as (_ & _ & _ & _ & Hv & _).
      intros j index. unfold pendingMembers. rewrite Hv.
      change (Z.to_nat 0) with 0%nat. rewrite take_0, lookup_nil.
      discriminate.
    - cbn [ret post]. split; [apply emits_silent, Ht1|].
      intros s' Hd. injection Hd as <-. exact Hst1. }
  unfold loopBody. rewrite bind_eq.
  destruct (probeEndpoints (identifier a) p) as [sl|] eqn:Hsl.
  - pose proof (HeadInv_enqueue a pb i p sl s HI Hi0 Hpr Hsl) as Henq.
    pose proof (Staged_enqueue a pb i p sl s) as Hst1.
    destruct (enqueue a i sl s) as [[] s1|f s1].
    + destruct Henq as (Ht & _ & _ & _ & _ & _ & Hix & Hv & Hle & _).
      pose proof (hi_lo _ _ _ _ HI).
      apply Hclose; [exact Ht|eapply Hst1; eauto|lia|lia].
    + cbn [post]. subst s1. split; [apply reflexivity|discriminate].
  - cbn [ret]. destruct HI as [Hs Hl He Hix H0 Hhi Hm Hp].
    apply Hclose; [reflexivity|exact Hst|exact H0|lia].
Qed.

Lemma endpoints_iteration a sch pb i p s :
  HeadInv a pb i s -> Staged a pb s ->
  0 <= i -> mProbes pb !! Z.to_nat i = Some p ->
  emits (simulatesEndpoints a pb) s
    (post (iteration a sch (numProbes pb) i p s)) /\
  forall s', iteration a sch (numProbes pb) i p s = Done false s' ->
             Staged a pb s'.
Proof.
  intros HI Hst Hi0 Hpr. unfold iteration. rewrite bind_eq.
  destruct (cancelDuring sch i); cbn [cancelRequest ret].
  - destruct (endpoints_loopBody a pb i p (requestCancel s))
      as [(evs & Ht & Hall) Hk]; auto using HeadInv_requestCancel,
                                   Staged_requestCancel.
    split; [|exact Hk]. exists evs.
    rewrite Ht, f_trace_requestCancel. auto.
  - apply endpoints_loopBody; assumption.
Qed.

Lemma endpoints_bakeLoop a sch pb :
  forall ps i s,
    HeadInv a pb i s -> Staged a pb s -> 0 <= i ->
    drop (Z.to_nat i) (mProbes pb) = ps ->
    emits (simulatesEndpoints a pb) s
      (post (bakeLoop a sch (numProbes pb) i ps s)).
Proof.
  induction ps as [|p ps IH]; intros i s HI Hst Hi0 Hdrop; cbn [bakeLoop].
  - apply reflexivity.
  - apply drop_cons_inv in Hdrop. destruct Hdrop as [Hp Hdrop].
    destruct (endpoints_iteration a sch pb i p s HI Hst Hi0 Hp) as [Hem Hk].
    pose proof (iteration_spec a sch pb i p s HI Hi0 Hp) as Hspec.
    cbn zeta in Hspec. rewrite bind_eq.
    destruct (iteration a sch (numProbes pb) i p s) as [[|] s'|f s'];
      cbn [post ret] in *; try exact Hem.
    destruct Hspec as [HI' _]. etransitivity; [exact Hem|].
    apply IH; [exact HI'|apply Hk; reflexivity|lia|].
    rewrite <- Hdrop. f_equal. lia.
Qed.

Lemma Staged_enter a st : Staged a (probeBatch st) (enter a st).
Proof.
  intros j index. unfold pendingMembers. cbn [enter numValidInBatch].
  change (Z.to_nat 0) with 0%nat. rewrite take_0, lookup_nil.
  discriminate.
Qed.

(** X15: at every simulator call, the source and the listener arrays hold
    at the position of each batch member the endpoints lines 134-157 give
    that probe: its own centre twice for Reverb, the centre of the
    endpoint's influence and its own centre for StaticSource, the reverse
    for StaticListener. *)
Theorem simulator_gets_the_endpoints_of_each_member
    (a : BakeArgs) (sch : Schedule) (st : State) :
  Forall (fun c => callEndpoints a (probeBatch st) c.1.2 c.2)
         (simulateCalls (bakeEvents a sch st)).
Proof.
  assert (Hev : Forall (simulatesEndpoints a (probeBatch st))
                  (bakeEvents a sch st)).
  { destruct (preconditions a) eqn:Hpre;
      [|rewrite bakeEvents_early by auto; constructor].
    destruct (Z.ltb_spec (effectiveBatchSize a) 0) as [Hneg|Hb];
      [rewrite bakeEvents_early by auto; constructor|].
    destruct (endpoints_bakeLoop a sch (probeBatch st)
                (mProbes (probeBatch st)) 0 (enter a st))
      as (evs & Ht & Hn);
      [apply HeadInv_enter, Hb|apply Staged_enter|lia|reflexivity|].
    fold (loopResult a sch st) in Ht.
    destruct (bake_trace a sch st Hpre Hb) as [Ht' _].
    rewrite Ht' in Ht. cbn [enter f_trace] in Ht. apply app_inv_head in Ht.
    rewrite Ht. exact Hn. }
  induction Hev as [|e evs He _ IH]; [constructor|].
  destruct e; cbn; auto.
Qed.


(** ** The number of simulator calls *)

Lemma length_concat_singletons {A B} (f : A -> list B) (l : list A) :
  Forall (fun x => length (f x) = 1%nat) l ->
  length (concat (map f l)) = length l.
Proof.
  induction 1 as [|x l Hx _ IH]; [reflexivity|].
  cbn [map concat length]. rewrite length_app, Hx, IH. reflexivity.
Qed.

Lemma one_at_a_time_members a pb sch c0 lo b :
  effectiveBatchSize a = 1 -> batchOK a pb sch c0 lo b ->
  if eligible a pb (b_i b) then b_members b = [b_i b]
  else b_members b = [] /\ b_i b = numProbes pb - 1.
Proof.
  intros Hbs (_ & (_ & Hle & Hfull & Hlast) & _). rewrite Hbs in *.
  destruct (eligible a pb (b_i b)).
  - destruct (b_members b) as [|x [|y l]]; cbn in *;
      try discriminate; try lia. congruence.
  - destruct (b_members b) as [|x l]; cbn in *; [|lia]. split; [reflexivity|].
    lia.
Qed.

(** X18: with an effective batch size of one, as on every CPU backend
    unless the variation is StaticListener, a bake that runs to completion
    calls the simulator once per eligible probe, and once more, for an
    empty batch, when the last probe is not eligible. *)
Theorem one_call_per_eligible_probe
    (a : BakeArgs) (sch : Schedule) (st : State) :
  effectiveBatchSize a = 1 ->
  (bake a sch st).2 = Completed ->
  0 < numProbes (probeBatch st) ->
  let pb := probeBatch st in
  length (simulateCalls (bakeEvents a sch st)) =
    (length (filter (fun index => eligible a pb index = true)
                    (seqZ 0 (numProbes pb))) +
     (if eligible a pb (numProbes pb - 1) then 0 else 1))%nat.
Proof.
  intros Hbs Hdone HN pb. subst pb.
  destruct (completed_started a sch st) as [Hpre Hb];
    [rewrite Hdone; reflexivity|].
  destruct (bake_shape a sch st Hpre Hb) as (bl & partial & Hsh).
  destruct Hsh as (Hev & Hok & Hsort & Hres). rewrite Hdone in Hres.
  destruct Hres as (-> & _ & Hlast & Hcat). rewrite app_nil_r in Hev.
  rewrite Hev, simulateCalls_batches by (eapply batchOK_writes, Hok).
  unfold callsOf. rewrite length_map, <- Hcat. clear Hev Hcat.
  assert (Hne : mProbes (probeBatch st) <> []).
  { unfold numProbes in HN. destruct (mProbes (probeBatch st));
      [cbn in HN; lia|discriminate]. }
  specialize (Hlast Hne).
  destruct (exists_last (l := bl)) as (bl0 & b & ->).
  { intros ->. discriminate. }
  rewrite map_app in Hlast, Hsort. cbn [map] in Hlast, Hsort.
  rewrite last_snoc in Hlast. injection Hlast as Hbi.
  apply sorted_snoc_lt in Hsort. rewrite Hbi in Hsort.
  apply Forall_app in Hok. destruct Hok as [Hok0 Hokb].
  apply Forall_inv in Hokb.
  assert (Hones : Forall (fun b => length (b_members b) = 1%nat) bl0).
  { apply Forall_forall. intros x Hx.
    rewrite Forall_forall in Hok0. rewrite Forall_forall in Hsort.
    pose proof (one_at_a_time_members _ _ _ _ _ x Hbs (Hok0 x Hx)) as Hm.
    assert (Hlt : b_i x < numProbes (probeBatch st) - 1).
    { apply Hsort. apply list_elem_of_fmap. exists x. auto. }
    destruct (eligible a (probeBatch st) (b_i x)).
    - rewrite Hm. reflexivity.
    - destruct Hm as [_ Hm]. lia. }
  rewrite map_app, concat_app, !length_app.
  rewrite (length_concat_singletons b_members bl0 Hones).
  pose proof (one_at_a_time_members _ _ _ _ _ b Hbs Hokb) as Hm.
  rewrite Hbi in Hm. cbn [map concat length].
  destruct (eligible a (probeBatch st) (numProbes (probeBatch st) - 1)).
  - rewrite Hm. cbn. lia.
  - destruct Hm as [-> _]. cbn. lia.
Qed.


(** ** The values a bake stores *)

Lemma Held_ext g g' n ix sim s :
  (forall j, (j < n)%nat -> g j = g' j) -> Held g n ix sim s ->
  Held g' n ix sim s.
Proof.
  intros Hext (Hn & Hix & Hsim & Hg). repeat split; try assumption;
    destruct (Hg j H0) as [Hf Hi]; [rewrite <- Hext by assumption|]; assumption.
Qed.

Lemma computes_ret Q g n ix sim : computes Q g n ix sim (ret tt).
Proof. intros s Hh. cbn. split; [exact Hh|apply reflexivity]. Qed.

Lemma computes_bind Q g n ix sim (m k : M unit) :
  computes Q g n ix sim m -> computes Q g n ix sim k ->
  computes Q g n ix sim (m ;;; k).
Proof.
  intros Hm Hk s Hh. rewrite bind_eq. specialize (Hm s Hh).
  destruct (m s) as [[] s1|f s1]; [|exact Hm].
  destruct Hm as [Hh1 He1]. specialize (Hk s1 Hh1).
  destruct (k s1) as [[] s2|f s2].
  - destruct Hk as [Hh2 He2]. split; [exact Hh2|]. etransitivity; eassumption.
  - destruct Hk as [Hs2 He2]. split; [exact Hs2|]. etransitivity; eassumption.
Qed.

Lemma computes_forEach Q g n ix sim (js : list nat) (body : nat -> M unit) :
  (forall j, In j js -> computes Q g n ix sim (body j)) ->
  computes Q g n ix sim (forEach js body).
Proof.
  induction js as [|j js IH]; intros Hb; cbn [forEach].
  - apply computes_ret.
  - apply computes_bind; [apply Hb; left; reflexivity|].
    apply IH. intros j' Hj'. apply Hb. right. exact Hj'.
Qed.

Lemma computes_storeReverb (Q : Event -> Prop) g n ix sim j :
  (j < n)%nat ->
  (forall index, ix !! j = Some index ->
     Q (EvSetReverb index (ReverbEstimator_estimate (g j)))) ->
  computes Q g n ix sim (storeReverb j).
Proof.
  intros Hj HQ s Hh. pose proof Hh as (Hn & Hix & Hsim & Hg).
  destruct (Hg j Hj) as [Hf [index Hi]].
  unfold storeReverb, bind, derefEnergyField, readIndex, emit.
  rewrite Hf, Hix, Hi. split.
  - repeat split; frame_simpl; try assumption; apply Hg; assumption.
  - eexists. split; [reflexivity|]. constructor; [apply HQ, Hi|constructor].
Qed.

Lemma computes_storeEnergyField (Q : Event -> Prop) a g n ix sim j :
  (j < n)%nat ->
  (forall index, ix !! j = Some index ->
     Q (EvSetEnergyField index (Some (storedField a (g j)))) /\
     Q (EvWriteFile (Wav.filePath index)
          (Wav.exportImpulseResponseAsWav (getImpulseResponse (g j)) 44100))) ->
  computes Q g n ix sim (storeEnergyField a j).
Proof.
  intros Hj HQ s Hh. pose proof Hh as (Hn & Hix & Hsim & Hg).
  destruct (Hg j Hj) as [Hf [index Hi]].
  destruct (HQ index Hi) as [Hset Hfile]. unfold storedField in Hset.
  unfold storeEnergyField, takeEnergyField, bind, readIndex,
    derefEnergyField, emit, get, setEnergyFields, ret, fail.
  destruct (float_eq (simDuration a) (bakeDuration a)); cbv beta.
  - rewrite Hf. frame_simpl. rewrite Hix, Hi. frame_simpl.
    rewrite list_lookup_insert_eq by (eapply lookup_lt_Some; eassumption).
    frame_simpl. split; [exact Hsim|]. eexists. split; [reflexivity|].
    constructor; [exact Hset|constructor].
  - rewrite Hf. frame_simpl. rewrite Hix, Hi. frame_simpl.
    rewrite Hf. frame_simpl. rewrite Hix, Hi. frame_simpl. split.
    + repeat split; frame_simpl; try assumption; apply Hg; assumption.
    + eexists. split; [rewrite <- app_assoc; reflexivity|].
      constructor; [exact Hset|]. constructor; [exact Hfile|constructor].
Qed.

Lemma computes_writeBack a sim members call g n ix :
  members = take n ix ->
  (forall j, (j < n)%nat -> g j = simulatedField a sim call j) ->
  forall sim',
    computes (writeOf a sim members call) g n ix sim' (writeBack a).
Proof.
  intros Hm Hg sim' s Hh. unfold writeBack. rewrite bind_eq. cbn [get].
  assert (Hmem : forall j index, (j < n)%nat -> ix !! j = Some index ->
                   members !! j = Some index).
  { intros j index Hj Hi. rewrite Hm. apply lookup_take_Some. auto. }
  destruct Hh as (Hn & Hrest). unfold slots. rewrite Hn.
  apply (computes_bind (writeOf a sim members call) g n ix sim'
           (if bakeParametric a then forEach (seq 0 n) storeReverb else ret tt)
           (if bakeConvolution a
            then forEach (seq 0 n) (storeEnergyField a) else ret tt));
    [| |split; assumption].
  - destruct (bakeParametric a); [|apply computes_ret].
    apply computes_forEach. intros j Hj. apply in_seq in Hj.
    apply computes_storeReverb; [lia|]. intros index Hi. cbn.
    exists j. rewrite Hg by lia. split; [apply Hmem; [lia|exact Hi]|reflexivity].
  - destruct (bakeConvolution a); [|apply computes_ret].
    apply computes_forEach. intros j Hj. apply in_seq in Hj.
    apply computes_storeEnergyField; [lia|]. intros index Hi. cbn.
    rewrite Hg by lia. split.
    + exists j. split; [apply Hmem; [lia|exact Hi]|reflexivity].
    + exists j, index. split; [apply Hmem; [lia|exact Hi]|]. auto.
Qed.


Lemma simulateBatch_fields a i s n ix :
  Held (fun _ => freshField a) n ix (f_simulator s) s ->
  exists call s1,
    simulateBatch a i s = Done tt s1 /\
    f_trace s1 =
      f_trace s ++ [EvJobGraphReset; EvSimulate i (take n ix) call; EvProcess]
    /\
    Held (fun j => (replayCall a (f_simulator s) call).2 j (freshField a))
      n ix (replayCall a (f_simulator s) call).1 s1.
Proof.
  intros (Hn & Hix & _ & Hg).
  unfold simulateBatch, bind, get, emit, setSimulator, setEnergyFields.
  eexists _, _. split; [reflexivity|]. frame_simpl.
  rewrite <- !app_assoc, Hn, Hix. split; [reflexivity|].
  repeat split; frame_simpl; try assumption.
  - destruct (Hg j H0) as [Hf _]. unfold runJobGraph.
    rewrite list_lookup_imap, Hf. cbn [fmap option_fmap option_map].
    rewrite Hn. destruct (Nat.ltb_spec j n); [reflexivity|lia].
  - apply Hg, H0.
Qed.

Lemma copyBack_from g n ix sim :
  forall m lo s,
    (lo + m = n)%nat ->
    Held (fun j => if (j <? lo)%nat then copyDeviceToHost (g j) else g j)
      n ix sim s ->
    exists s',
      forEach (seq lo m) copyBack s = Done tt s' /\
      Held (fun j => copyDeviceToHost (g j)) n ix sim s' /\
      emits noWrite s s'.
Proof.
  induction m as [|m IH]; intros lo s Hlo Hh; cbn [seq forEach].
  - exists s. split; [reflexivity|]. split; [|apply reflexivity].
    eapply Held_ext; [|exact Hh]. intros j Hj. cbn beta.
    destruct (Nat.ltb_spec j lo); [reflexivity|lia].
  - pose proof Hh as (Hn & Hix & Hsim & Hg).
    destruct (Hg lo ltac:(lia)) as [Hf Hi]. rewrite Nat.ltb_irrefl in Hf.
    rewrite bind_eq.
    unfold copyBack at 1. unfold bind, derefEnergyField, get, setEnergyFields,
      emit. rewrite Hf. frame_simpl.
    match goal with |- context [forEach _ _ ?s1] =>
      destruct (IH (S lo) s1) as (s' & Hd & Hh' & He); [lia| |]
    end.
    + repeat split; frame_simpl; try assumption.
      * destruct (Hg j H0) as [Hfj _].
        destruct (decide (j = lo)) as [->|Hne].
        -- rewrite list_lookup_insert_eq
             by (eapply lookup_lt_Some; eassumption).
           destruct (Nat.ltb_spec lo (S lo)); [reflexivity|lia].
        -- rewrite list_lookup_insert_ne by auto. rewrite Hfj.
           destruct (Nat.ltb_spec j lo), (Nat.ltb_spec j (S lo));
             try reflexivity; lia.
      * apply Hg, H0.
    + exists s'. split; [exact Hd|]. split; [exact Hh'|].
      etransitivity; [|exact He].
      exists [EvCopyDeviceToHost lo]. split; [reflexivity|].
      repeat constructor.
Qed.

Lemma deviceToHost_fields a g n ix sim s :
  Held g n ix sim s ->
  exists s',
    deviceToHost a s = Done tt s' /\
    Held (fun j =>
            if IPL_USES_OPENCL &&
               SceneType.eqb (sceneType a) SceneType.RadeonRays
            then copyDeviceToHost (g j) else g j) n ix sim s' /\
    emits noWrite s s'.
Proof.
  intros Hh. unfold deviceToHost.
  destruct (IPL_USES_OPENCL &&
            SceneType.eqb (sceneType a) SceneType.RadeonRays).
  - rewrite bind_eq. cbn [get]. unfold slots.
    destruct Hh as (Hn & Hrest). rewrite Hn.
    apply (copyBack_from g n ix sim n 0 s); [lia|].
    split; [exact Hn|exact Hrest].
  - exists s. split; [reflexivity|]. split; [exact Hh|apply reflexivity].
Qed.

Lemma noWrite_writeOf a sim members call : lenient (writeOf a sim members call).
Proof. intros e He. destruct e; cbn in *; auto; destruct He. Qed.

Lemma dispatch_computed a N i s n ix :
  Held (fun _ => freshField a) n ix (f_simulator s) s ->
  exists call rest,
    f_trace (post (dispatch a N i s)) =
      f_trace s ++
      [EvJobGraphReset; EvSimulate i (take n ix) call; EvProcess] ++ rest /\
    Forall (writeOf a (f_simulator s) (take n ix) call) rest /\
    f_simulator (post (dispatch a N i s)) =
      (replayCall a (f_simulator s) call).1.
Proof.
  intros Hh. unfold dispatch. rewrite bind_eq.
  destruct (simulateBatch_fields a i s n ix Hh) as (call & s1 & -> & Ht1 & Hh1).
  rewrite bind_eq.
  destruct (deviceToHost_fields a _ n ix _ s1 Hh1)
    as (s2 & -> & Hh2 & (e2 & Ht2 & He2)).
  rewrite bind_eq.
  pose proof (computes_writeBack a (f_simulator s) (take n ix) call _ n ix
                eq_refl (fun j _ => eq_refl)
                (replayCall a (f_simulator s) call).1 s2 Hh2) as Hwb.
  assert (He2' : Forall (writeOf a (f_simulator s) (take n ix) call) e2).
  { eapply Forall_impl; [exact He2|]. apply noWrite_writeOf. }
  exists call.
  destruct (writeBack a s2) as [[] s3|f s3]; cbn [post].
  - destruct Hwb as [(_ & _ & Hsim3 & _) (e3 & Ht3 & He3)].
    unfold reportAndCheck, setNumValidInBatch, bind, get, emit, setCancel, ret.
    destruct (callback a); frame_simpl; destruct (f_sCancel s3);
      frame_simpl; eexists;
      (split; [rewrite Ht3, Ht2, Ht1, <- !app_assoc; reflexivity|]);
      (split; [|exact Hsim3]);
      repeat (apply Forall_app; split); try assumption;
      repeat constructor.
  - destruct Hwb as [Hsim3 (e3 & Ht3 & He3)].
    exists (e2 ++ e3). split; [rewrite Ht3, Ht2, Ht1, <- !app_assoc;
                               reflexivity|].
    split; [|exact Hsim3]. apply Forall_app. auto.
Qed.

(** *** Along the trace *)

Lemma computed_app a evs1 evs2 :
  forall sim cur,
    computed a sim cur (evs1 ++ evs2) <->
    computed a sim cur evs1 /\
    computed a (simulatorAfter a sim evs1) (allowedAfter a sim cur evs1) evs2.
Proof.
  induction evs1 as [|e evs1 IH]; intros sim cur.
  - cbn. tauto.
  - destruct e; cbn [app computed simulatorAfter allowedAfter];
      rewrite IH; tauto.
Qed.

Lemma simulatorAfter_app a evs1 evs2 :
  forall sim,
    simulatorAfter a sim (evs1 ++ evs2) =
      simulatorAfter a (simulatorAfter a sim evs1) evs2.
Proof.
  induction evs1 as [|e evs1 IH]; intros sim; [reflexivity|].
  destruct e; cbn [app simulatorAfter]; apply IH.
Qed.

Lemma lenient_allowedAfter a evs :
  forall sim cur, lenient cur -> lenient (allowedAfter a sim cur evs).
Proof.
  induction evs as [|e evs IH]; intros sim cur Hc; [exact Hc|].
  destruct e; cbn [allowedAfter]; apply IH; try exact Hc.
  apply noWrite_writeOf.
Qed.

Lemma computed_writes a sim0 members call evs :
  forall sim,
    Forall (writeOf a sim0 members call) evs ->
    computed a sim (writeOf a sim0 members call) evs /\
    simulatorAfter a sim evs = sim.
Proof.
  induction evs as [|e evs IH]; intros sim Hall; [split; constructor|].
  apply Forall_cons in Hall. destruct Hall as [He Hall].
  destruct (IH sim Hall) as [Hc Hs].
  destruct e; cbn [computed simulatorAfter]; auto. destruct He.
Qed.

Lemma computed_block a sim cur i members call rest :
  lenient cur ->
  Forall (writeOf a sim members call) rest ->
  computed a sim cur
    ([EvJobGraphReset; EvSimulate i members call; EvProcess] ++ rest) /\
  simulatorAfter a sim
    ([EvJobGraphReset; EvSimulate i members call; EvProcess] ++ rest) =
    (replayCall a sim call).1.
Proof.
  intros Hc Hall. cbn [app computed simulatorAfter].
  destruct (computed_writes a sim members call rest
              (replayCall a sim call).1 Hall) as [Hr Hs].
  split; [|exact Hs]. split; [apply Hc; exact I|]. split; [exact I|exact Hr].
Qed.


(** *** Along the loop *)

Lemma Ready_Held a s :
  Ready a s ->
  Held (fun _ => freshField a) (Z.to_nat (numValidInBatch s)) (indices s)
    (f_simulator s) s.
Proof. intros Hr. repeat split; apply Hr; assumption. Qed.

Lemma Ready_Filled a s : Ready a s -> Filled s.
Proof.
  intros Hr j Hj. destruct (Hr j Hj) as [Hf [index Hi]]. eauto.
Qed.

Lemma Ready_requestCancel a s : Ready a s -> Ready a (requestCancel s).
Proof.
  unfold requestCancel. destruct (f_sBakeInProgress s); intros Hr; exact Hr.
Qed.

Lemma f_simulator_requestCancel s :
  f_simulator (requestCancel s) = f_simulator s.
Proof. unfold requestCancel. destruct (f_sBakeInProgress s); reflexivity. Qed.

Lemma Ready_enqueue a i sl s :
  Ready a s -> 0 <= numValidInBatch s ->
  length (energyFields s) = length (sources s) ->
  length (indices s) = length (sources s) ->
  match enqueue a i sl s with
  | Done _ s1 =>
      Ready a s1 /\ f_simulator s1 = f_simulator s /\ f_trace s1 = f_trace s
  | Crash _ s1 => s1 = s
  end.
Proof.
  intros Hr H0 He Hi. unfold enqueue.
  destruct (Nat.ltb_spec (Z.to_nat (numValidInBatch s)) (length (sources s)))
    as [Hlt|]; [|reflexivity].
  split; [|split; reflexivity]. intros j Hj.
  cbn [energyFields indices numValidInBatch] in *.
  destruct (decide (j = Z.to_nat (numValidInBatch s))) as [->|Hne].
  - rewrite !list_lookup_insert_eq by lia. split; [reflexivity|eauto].
  - rewrite !list_lookup_insert_ne by auto. apply Hr. lia.
Qed.

Lemma computed_loopBody a pb i p s :
  HeadInv a pb i s -> Ready a s ->
  exists evs,
    f_trace (post (loopBody a (numProbes pb) i p s)) = f_trace s ++ evs /\
    simulatorAfter a (f_simulator s) evs =
      f_simulator (post (loopBody a (numProbes pb) i p s)) /\
    (forall cur, lenient cur -> computed a (f_simulator s) cur evs) /\
    forall s', loopBody a (numProbes pb) i p s = Done false s' -> Ready a s'.
Proof.
  intros [Hs Hl He Hi H0 Hhi Hm Hp] Hr.
  assert (Hclose : forall s1,
    f_trace s1 = f_trace s -> f_simulator s1 = f_simulator s -> Ready a s1 ->
    exists evs,
      f_trace (post ((s2 <- get ;;
                      if (numValidInBatch s2 =? effectiveBatchSize a)
                         || (i =? numProbes pb - 1)
                      then dispatch a (numProbes pb) i
                      else ret false) s1)) = f_trace s ++ evs /\
      simulatorAfter a (f_simulator s) evs =
        f_simulator (post ((s2 <- get ;;
                            if (numValidInBatch s2 =? effectiveBatchSize a)
                               || (i =? numProbes pb - 1)
                            then dispatch a (numProbes pb) i
                            else ret false) s1)) /\
      (forall cur, lenient cur -> computed a (f_simulator s) cur evs) /\
      forall s',
        (s2 <- get ;;
         if (numValidInBatch s2 =? effectiveBatchSize a)
            || (i =? numProbes pb - 1)
         then dispatch a (numProbes pb) i
         else ret false) s1 = Done false s' -> Ready a s').
  { intros s1 Ht1 Hsim1 Hr1. rewrite bind_eq. cbn [get].
    destruct (_ || _).
    - destruct (dispatch_computed a (numProbes pb) i s1 _ _
                  (Ready_Held a s1 Hr1)) as (call & rest & Ht & Hall & Hsim).
      rewrite Hsim1 in Hall, Hsim. rewrite Ht1 in Ht.
      eexists. split; [exact Ht|]. split; [|split].
      + rewrite Hsim. eapply computed_block; [|exact Hall].
        intros e _. exact I.
      + intros cur Hc. eapply computed_block; eassumption.
      + intros s' Hd.
        destruct (dispatch_nullSafe a (numProbes pb) i s1
                    (Ready_Filled a s1 Hr1))
          as [(brk & s2 & Hd2 & Hv)|(s2 & Hd2)]; [|congruence].
        rewrite Hd in Hd2. injection Hd2 as _ <-.
        intros j Hj. rewrite Hv in Hj. cbn in Hj. lia.
    - exists []. cbn [ret post]. rewrite app_nil_r.
      split; [exact Ht1|]. split; [cbn; congruence|].
      split; [intros; exact I|]. intros s' Hd. injection Hd as <-. exact Hr1. }
  unfold loopBody. rewrite bind_eq.
  destruct (probeEndpoints (identifier a) p) as [sl|].
  - pose proof (Ready_enqueue a i sl s Hr H0 ltac:(congruence)
                  ltac:(congruence)) as Henq.
    destruct (enqueue a i sl s) as [[] s1|f s1].
    + destruct Henq as (Hr1 & Hsim1 & Ht1). apply Hclose; assumption.
    + subst s1. exists []. cbn [post]. rewrite app_nil_r.
      split; [reflexivity|]. split; [reflexivity|].
      split; [intros; exact I|discriminate].
  - cbn [ret]. apply Hclose; auto.
Qed.

Lemma computed_iteration a sch pb i p s :
  HeadInv a pb i s -> Ready a s ->
  exists evs,
    f_trace (post (iteration a sch (numProbes pb) i p s)) = f_trace s ++ evs /\
    simulatorAfter a (f_simulator s) evs =
      f_simulator (post (iteration a sch (numProbes pb) i p s)) /\
    (forall cur, lenient cur -> computed a (f_simulator s) cur evs) /\
    forall s', iteration a sch (numProbes pb) i p s = Done false s' ->
               Ready a s'.
Proof.
  intros HI Hr. unfold iteration. rewrite bind_eq.
  destruct (cancelDuring sch i); cbn [cancelRequest ret].
  - destruct (computed_loopBody a pb i p (requestCancel s))
      as (evs & Ht & Hsim & Hc & Hk);
      auto using HeadInv_requestCancel, Ready_requestCancel.
    rewrite f_trace_requestCancel in Ht.
    rewrite f_simulator_requestCancel in Hsim, Hc. eauto.
  - apply computed_loopBody; assumption.
Qed.

Lemma computed_bakeLoop a sch pb :
  forall ps i s,
    HeadInv a pb i s -> Ready a s -> 0 <= i ->
    drop (Z.to_nat i) (mProbes pb) = ps ->
    exists evs,
      f_trace (post (bakeLoop a sch (numProbes pb) i ps s)) =
        f_trace s ++ evs /\
      simulatorAfter a (f_simulator s) evs =
        f_simulator (post (bakeLoop a sch (numProbes pb) i ps s)) /\
      forall cur, lenient cur -> computed a (f_simulator s) cur evs.
Proof.
  induction ps as [|p ps IH]; intros i s HI Hr Hi0 Hdrop; cbn [bakeLoop].
  - exists []. cbn. rewrite app_nil_r. auto.
  - apply drop_cons_inv in Hdrop. destruct Hdrop as [Hp Hdrop].
    destruct (computed_iteration a sch pb i p s HI Hr)
      as (evs & Ht & Hsim & Hc & Hk).
    pose proof (iteration_spec a sch pb i p s HI Hi0 Hp) as Hspec.
    cbn zeta in Hspec. rewrite bind_eq.
    destruct (iteration a sch (numProbes pb) i p s) as [[|] s'|f s'];
      cbn [post ret] in *; eauto.
    destruct Hspec as [HI' _].
    destruct (IH (i + 1) s' HI' (Hk s' eq_refl) ltac:(lia))
      as (evs' & Ht' & Hsim' & Hc').
    { rewrite <- Hdrop. f_equal. lia. }
    exists (evs ++ evs'). rewrite Ht', Ht, app_assoc.
    split; [reflexivity|]. rewrite simulatorAfter_app, Hsim.
    split; [exact Hsim'|]. intros cur Hcur. apply computed_app.
    split; [apply Hc, Hcur|]. rewrite Hsim. apply Hc'.
    apply lenient_allowedAfter, Hcur.
Qed.

Lemma Ready_enter a st : Ready a (enter a st).
Proof. intros j Hj. cbn in Hj. lia. Qed.

(** X19: what a bake stores is what its simulator calls computed.  Along
    the calls of a bake, the simulator threaded from call to call, every
    Reverb set is the estimate of the energy field the latest simulator
    call filled in for the slot of that probe (copied to the host on the
    RadeonRays backend with OpenCL), every Energy Field set is that field
    itself (equal durations) or a new field of the stored duration that
    received its content, every file holds the export at 44100 Hz of its
    impulse response under the path of that probe; nothing is stored
    before the first simulator call; and the simulator the bake leaves is
    the one after its last call. *)
Theorem stored_values_are_computed_from_the_simulation
    (a : BakeArgs) (sch : Schedule) (st : State) :
  computed a (simulator st) noWrite (bakeEvents a sch st) /\
  simulator (bake a sch st).1 =
    simulatorAfter a (simulator st) (bakeEvents a sch st).
Proof.
  destruct (preconditions a) eqn:Hpre.
  2:{ rewrite bakeEvents_early by auto. unfold bake. rewrite Hpre.
      split; [exact I|reflexivity]. }
  destruct (Z.ltb_spec (effectiveBatchSize a) 0) as [Hneg|Hb].
  { rewrite bakeEvents_early by auto. unfold bake. rewrite Hpre. cbn [negb].
    destruct (Z.ltb_spec (effectiveBatchSize a) 0); [|lia].
    split; [exact I|reflexivity]. }
  destruct (computed_bakeLoop a sch (probeBatch st)
              (mProbes (probeBatch st)) 0 (enter a st))
    as (evs & Ht & Hsim & Hc);
    [apply HeadInv_enter, Hb|apply Ready_enter|lia|reflexivity|].
  fold (loopResult a sch st) in Ht, Hsim.
  destruct (bake_trace a sch st Hpre Hb) as [Ht' _].
  rewrite Ht' in Ht. cbn [enter f_trace] in Ht. apply app_inv_head in Ht.
  subst evs. cbn [enter f_simulator] in Hsim, Hc.
  split; [apply Hc; intros e He; exact He|].
  rewrite Hsim, bake_unfold by assumption.
  destruct (loopResult a sch st) as [brk s|f s]; cbn [post fst leave simulator];
    [|reflexivity].
  destruct (cancelAfter sch); [apply f_simulator_requestCancel|reflexivity].
Qed.


End Proofs.

(** * Concrete runs *)

(** C1 as worded fails: on the CPU backend the batch size of a Reverb bake
    is 1, so the 10 probes take 10 simulator calls of one probe each, not
    3 calls of 4, 4 and 2. *)
Lemma scenario_as_worded_fails :
  ~ scenarioAsWorded Toy.scenarioArgs Toy.noCancel Toy.scenarioState.
Proof.
  intros [Hsizes _]. vm_compute in Hsizes. discriminate Hsizes.
Qed.

Lemma reverb_scenario_witness :
  length (mProbes (probeBatch Toy.scenarioState)) = 10%nat /\
  (bake Toy.scenarioArgs Toy.noCancel Toy.scenarioState).2 = Completed /\
  convolutionFlagUnchanged Toy.scenarioArgs Toy.noCancel Toy.scenarioState.
Proof.
  destruct (reverb_scenario Toy.scenarioArgs Toy.noCancel Toy.scenarioState
              eq_refl eq_refl eq_refl eq_refl eq_refl eq_refl eq_refl
              (fun _ => eq_refl) (List.Forall_nil _))
    as (Hdone & _ & _ & _ & Hconv).
  split; [reflexivity|]. split; [exact Hdone|exact Hconv].
Defined.

Lemma capability_flags_accumulate_witness :
  preconditions Toy.parametricArgs = true /\
  hasData (identifier Toy.parametricArgs)
    (probeBatch (bake Toy.convolutionArgs Toy.noCancel (Toy.fresh [0; 1])).1)
    = true /\
  flagsAccumulate Toy.parametricArgs Toy.noCancel
    (bake Toy.convolutionArgs Toy.noCancel (Toy.fresh [0; 1])).1.
Proof.
  split; [reflexivity|]. split; [vm_compute; reflexivity|].
  destruct (capability_flags_accumulate Toy.parametricArgs Toy.noCancel
              (bake Toy.convolutionArgs Toy.noCancel (Toy.fresh [0; 1])).1
              eq_refl) as (_ & Hlater).
  destruct Hlater as (_ & _ & Hacc & _); [vm_compute; reflexivity|].
  exact Hacc.
Defined.

(** C3 as worded fails: on the CPU backend with StaticSource, a single probe
    outside the endpoint's influence closes an empty batch, and the
    simulator is called for zero probes. *)
Lemma batching_law_as_worded_fails :
  ~ batchingLawAsWorded (Toy.staticArgs SceneType.Default) Toy.noCancel
      (Toy.fresh [0]).
Proof.
  unfold batchingLawAsWorded. intros Hlaw.
  assert (Hcalls :
    map (fun c => length c.1.2)
      (simulateCalls
         (bakeEvents (Toy.staticArgs SceneType.Default) Toy.noCancel
            (Toy.fresh [0]))) = [0%nat])
    by (vm_compute; reflexivity).
  destruct (simulateCalls _) as [|c [|c' l]]; try discriminate Hcalls.
  apply Forall_inv in Hlaw. cbn in Hlaw, Hcalls. congruence.
Qed.

(** C4 at a failing input: one Reverb probe, convolution output requested,
    simulated and stored duration equal.  The energy field of the probe is
    handed to storage, then the read of its impulse response goes through
    the emptied pointer: the bake faults and no file is written. *)
Theorem diagnostic_file_missing_after_move :
  let evs := bakeEvents Toy.moveArgsCPU Toy.noCancel (Toy.fresh [0]) in
  float_eq (simDuration Toy.moveArgsCPU) (bakeDuration Toy.moveArgsCPU)
    = true /\
  eligible Toy.moveArgsCPU (probeBatch (Toy.fresh [0])) 0 = true /\
  (bake Toy.moveArgsCPU Toy.noCancel (Toy.fresh [0])).2
    = Faulted NullDereference /\
  last evs =
    Some (EvSetEnergyField 0
            (Some {| Toy.f_duration := 2; Toy.f_order := 1;
                     Toy.f_samples := [0; 0; 0] |})) /\
  Forall notWriteFile evs.
Proof.
  cbn zeta. split; [reflexivity|]. split; [reflexivity|].
  split; [vm_compute; reflexivity|].
  split; [reflexivity|].
  apply moved_field_writes_no_file. reflexivity.
Qed.

(** C6 at a failing input: two Reverb probes in one batch on the GPU
    backend, convolution output requested, simulated and stored duration
    equal.  The field of probe 0 is moved into storage with the simulated
    content; the fault that follows keeps the field of probe 1, which is
    eligible as well, from ever being stored. *)
Theorem second_moved_field_never_stored :
  let r := bake Toy.moveArgsGPU Toy.noCancel (Toy.fresh [0; 1]) in
  let id := identifier Toy.moveArgsGPU in
  float_eq (simDuration Toy.moveArgsGPU) (bakeDuration Toy.moveArgsGPU)
    = true /\
  eligible Toy.moveArgsGPU (probeBatch (Toy.fresh [0; 1])) 1 = true /\
  r.2 = Faulted NullDereference /\
  storedEnergyField (probeBatch r.1) id 0 =
    Some {| Toy.f_duration := 2; Toy.f_order := 1;
            Toy.f_samples := [0; 0; 0] |} /\
  storedEnergyField (probeBatch r.1) id 1 = None.
Proof.
  cbn zeta. repeat split; vm_compute; reflexivity.
Qed.

Lemma endpoint_counts_per_batch_witness :
  (bake (Toy.staticArgs SceneType.RadeonRays) Toy.noCancel
     (Toy.fresh [0; 99; 100])).2 = Completed /\
  concat
    (map (fun c => c.1.2)
       (simulateCalls
          (bakeEvents (Toy.staticArgs SceneType.RadeonRays) Toy.noCancel
             (Toy.fresh [0; 99; 100])))) = [1; 2].
Proof.
  split; [vm_compute; reflexivity|].
  destruct (endpoint_counts_per_batch (Toy.staticArgs SceneType.RadeonRays)
              Toy.noCancel (Toy.fresh [0; 99; 100])) as (_ & _ & Hall).
  rewrite Hall; [reflexivity|vm_compute; reflexivity].
Defined.

Lemma static_endpoint_frame_witness :
  (variation (identifier (Toy.staticArgs SceneType.Default))
     = BakedDataVariation.StaticSource \/
   variation (identifier (Toy.staticArgs SceneType.Default))
     = BakedDataVariation.StaticListener) /\
  storedReverb
    (probeBatch
       (bake (Toy.staticArgs SceneType.Default) Toy.noCancel
          (Toy.fresh [0; 99; 100])).1)
    (identifier (Toy.staticArgs SceneType.Default)) 0 =
  storedReverb (probeBatch (Toy.fresh [0; 99; 100]))
    (identifier (Toy.staticArgs SceneType.Default)) 0.
Proof.
  split; [left; reflexivity|].
  destruct (static_endpoint_frame (Toy.staticArgs SceneType.Default)
              Toy.noCancel (Toy.fresh [0; 99; 100])
              (or_introl eq_refl)) as (_ & _ & Hframe).
  exact (proj1 (Hframe 0%nat (Toy.probeAt 0) eq_refl eq_refl)).
Defined.



(** C9 as worded fails: a Reverb bake of 16777218 probes with a callback
    runs to completion, and the value of its last report is
    (16777217 + 1.0f) / 16777218.  The sum rounds to 16777216 (the tie
    between 16777216 and 16777220 goes to the even mantissa) while the
    probe count is a float as it is, so the quotient is 1 - 2^-23, not
    1.0. *)
Lemma final_report_as_worded_fails :
  ~ finalReportAsWorded Toy.scenarioArgs Toy.noCancel Toy.manyProbes.
Proof.
  assert (HN : numProbes (probeBatch Toy.manyProbes) = 16777218).
  { unfold numProbes, Toy.manyProbes, Toy.fresh. cbn [probeBatch mProbes].
    rewrite length_map, length_replicate. apply Z2Nat.id. discriminate. }
  intros Hworded.
  destruct Hworded as (nd & Hlast & Hone).
  - reflexivity.
  - apply reverb_bake_one_by_one; auto.
  - rewrite HN. reflexivity.
  - rewrite completed_last_report in Hlast.
    + rewrite HN in Hlast. injection Hlast as <-.
      vm_compute in Hone. discriminate Hone.
    + reflexivity.
    + apply reverb_bake_one_by_one; auto.
    + rewrite HN. reflexivity.
Qed.

Lemma progress_reports_witness :
  callback Toy.scenarioArgs = true /\
  (bake Toy.scenarioArgs Toy.noCancel (Toy.fresh [0; 1; 2])).2 = Completed /\
  reportedValue (3, 3) = Binary32.one.
Proof.
  split; [reflexivity|]. split; [vm_compute; reflexivity|].
  destruct (progress_reports Toy.scenarioArgs Toy.noCancel
              (Toy.fresh [0; 1; 2])) as (_ & _ & _ & _ & _ & Hlast).
  destruct Hlast as [_ Hone];
    [reflexivity|vm_compute; reflexivity|reflexivity|].
  apply Hone. discriminate.
Defined.

Lemma empty_final_batch_witness :
  exists brk s' call,
    bakeLoop (Toy.staticArgs SceneType.Default) Toy.noCancel 2 0
      [Toy.probeAt 0; Toy.probeAt 1]
      (enter (Toy.staticArgs SceneType.Default) (Toy.fresh [0; 1]))
      = Done brk s' /\
    f_trace s' =
      [EvJobGraphReset; EvSimulate 1 [] call; EvProcess; EvProgress 2 2;
       EvCancelCheck brk] /\
    (sc_numSources call, sc_numListeners call) = (0, 1).
Proof.
  destruct (empty_final_batch (Toy.staticArgs SceneType.Default) Toy.noCancel
              2 [Toy.probeAt 0; Toy.probeAt 1] 0
              (enter (Toy.staticArgs SceneType.Default) (Toy.fresh [0; 1])))
    as (brk & s' & call & Hrun & Ht & Hc).
  - discriminate.
  - repeat constructor.
  - reflexivity.
  - reflexivity.
  - vm_compute. discriminate.
  - exists brk, s', call. split; [exact Hrun|]. split; [exact Ht|exact Hc].
Defined.

(** ** Concrete runs of the further properties *)

Lemma wav_file_layout_witness :
  Forall (fun x => length (floatBytes x) = 4%nat) Toy.ramp /\
  4 * Z.of_nat (length Toy.ramp) < 2^31 /\
  length (Wav.exportImpulseResponseAsWav Toy.ramp 44100) = 56%nat.
Proof.
  assert (Hb : Forall (fun x => length (floatBytes x) = 4%nat) Toy.ramp)
    by (repeat constructor).
  assert (Hn : 4 * Z.of_nat (length Toy.ramp) < 2^31) by reflexivity.
  split; [exact Hb|]. split; [exact Hn|].
  exact (proj1 (wav_file_layout Toy.ramp 44100 Hb Hn)).
Defined.

Lemma wav_header_witness :
  Forall (fun x => length (floatBytes x) = 4%nat) Toy.ramp /\
  36 + 4 * Z.of_nat (length Toy.ramp) < 2^31 /\
  0 <= 44100 /\ 4 * 44100 < 2^31 /\
  Wav.le_value
    (Wav.bytesAt 28 4 (Wav.exportImpulseResponseAsWav Toy.ramp 44100))
    = 4 * 44100.
Proof.
  assert (Hb : Forall (fun x => length (floatBytes x) = 4%nat) Toy.ramp)
    by (repeat constructor).
  assert (Hn : 36 + 4 * Z.of_nat (length Toy.ramp) < 2^31) by reflexivity.
  assert (H0 : 0 <= 44100) by discriminate.
  assert (H1 : 4 * 44100 < 2^31) by reflexivity.
  split; [exact Hb|]. split; [exact Hn|]. split; [exact H0|].
  split; [exact H1|].
  destruct (wav_header Toy.ramp 44100 Hb Hn H0 H1)
    as (_ & _ & _ & _ & _ & _ & _ & _ & Hrate & _).
  exact Hrate.
Defined.

Lemma filePath_injective_witness :
  Wav.filePath 7 = Wav.filePath (3 + 4) /\ 7 = 3 + 4.
Proof.
  assert (Hp : Wav.filePath 7 = Wav.filePath (3 + 4)) by reflexivity.
  split; [exact Hp|]. exact (filePath_injective 7 (3 + 4) Hp).
Defined.

Lemma unrequested_output_untouched_witness :
  bakeConvolution Toy.parametricArgs = false /\
  Forall notWriteFile
    (bakeEvents Toy.parametricArgs Toy.noCancel (Toy.fresh [0; 1])).
Proof.
  split; [reflexivity|].
  destruct (unrequested_output_untouched Toy.parametricArgs Toy.noCancel
              (Toy.fresh [0; 1])) as (_ & Hc & _).
  exact (proj1 (proj2 (Hc eq_refl))).
Defined.

Lemma diagnostic_files_of_a_bake_witness :
  In (EvWriteFile (Wav.filePath 0)
        (Wav.exportImpulseResponseAsWav [0; 0; 0] 44100))
     (bakeEvents Toy.convolutionArgs Toy.noCancel (Toy.fresh [0; 1])) /\
  bakeConvolution Toy.convolutionArgs = true.
Proof.
  assert (Hin :
    In (EvWriteFile (Wav.filePath 0)
          (Wav.exportImpulseResponseAsWav [0; 0; 0] 44100))
       (bakeEvents Toy.convolutionArgs Toy.noCancel (Toy.fresh [0; 1]))).
  { apply (nth_error_In _ 4). reflexivity. }
  split; [exact Hin|].
  exact (proj1 (diagnostic_files_of_a_bake Toy.convolutionArgs Toy.noCancel
                  (Toy.fresh [0; 1]) _ _ Hin)).
Defined.

Lemma completed_parametric_bake_witness :
  bakeParametric Toy.scenarioArgs = true /\
  (bake Toy.scenarioArgs Toy.noCancel (Toy.fresh [0; 1])).2 = Completed /\
  eligible Toy.scenarioArgs (probeBatch (Toy.fresh [0; 1])) 1 = true /\
  exists f,
    storedReverb
      (probeBatch (bake Toy.scenarioArgs Toy.noCancel (Toy.fresh [0; 1])).1)
      (identifier Toy.scenarioArgs) 1 = Some (ReverbEstimator_estimate f).
Proof.
  assert (Hdone : (bake Toy.scenarioArgs Toy.noCancel (Toy.fresh [0; 1])).2
                  = Completed) by (vm_compute; reflexivity).
  split; [reflexivity|]. split; [exact Hdone|]. split; [reflexivity|].
  exact (completed_parametric_bake Toy.scenarioArgs Toy.noCancel
           (Toy.fresh [0; 1]) 1 eq_refl (List.Forall_nil _) Hdone eq_refl).
Defined.

Lemma completed_convolution_bake_witness :
  bakeConvolution Toy.convolutionArgs = true /\
  float_eq (simDuration Toy.convolutionArgs)
    (bakeDuration Toy.convolutionArgs) = false /\
  (bake Toy.convolutionArgs Toy.noCancel (Toy.fresh [0; 1])).2 = Completed /\
  eligible Toy.convolutionArgs (probeBatch (Toy.fresh [0; 1])) 1 = true /\
  exists src,
    storedEnergyField
      (probeBatch
         (bake Toy.convolutionArgs Toy.noCancel (Toy.fresh [0; 1])).1)
      (identifier Toy.convolutionArgs) 1 =
    Some (copyFrom
            (EnergyField_new (bakeDuration Toy.convolutionArgs)
               (order Toy.convolutionArgs)) src).
Proof.
  assert (Hdone : (bake Toy.convolutionArgs Toy.noCancel (Toy.fresh [0; 1])).2
                  = Completed) by (vm_compute; reflexivity).
  split; [reflexivity|]. split; [reflexivity|]. split; [exact Hdone|].
  split; [reflexivity|].
  exact (proj1 (completed_convolution_bake Toy.convolutionArgs Toy.noCancel
                  (Toy.fresh [0; 1]) 1 eq_refl eq_refl (List.Forall_nil _)
                  Hdone eq_refl)).
Defined.

Lemma bake_outcomes_witness :
  preconditions Toy.convolutionArgs = true /\
  noMove Toy.convolutionArgs = true /\
  1 <= effectiveBatchSize Toy.convolutionArgs /\
  (bake Toy.convolutionArgs Toy.cancelAtOne (Toy.fresh [0; 1; 2])).2
    = Cancelled.
Proof.
  assert (Hb : 1 <= effectiveBatchSize Toy.convolutionArgs) by discriminate.
  split; [reflexivity|]. split; [reflexivity|]. split; [exact Hb|].
  destruct (bake_outcomes Toy.convolutionArgs Toy.cancelAtOne
              (Toy.fresh [0; 1; 2])) as (_ & Hrun & _).
  destruct (Hrun eq_refl) as (_ & _ & Hpos & _).
  destruct (Hpos Hb) as (_ & Hret & _).
  destruct (Hret eq_refl) as [Hdone|Hstop]; [|exact Hstop].
  vm_compute in Hdone. discriminate Hdone.
Defined.

Lemma pending_cancel_stops_the_next_bake_witness :
  sCancel Toy.pendingState = true /\
  isFault (bake Toy.scenarioArgs Toy.noCancel Toy.pendingState).2 = false /\
  (bake Toy.scenarioArgs Toy.noCancel Toy.pendingState).2 = Cancelled.
Proof.
  assert (Hc : sCancel Toy.pendingState = true) by (vm_compute; reflexivity).
  assert (Hnf : isFault
                  (bake Toy.scenarioArgs Toy.noCancel Toy.pendingState).2
                = false) by (vm_compute; reflexivity).
  assert (Hne : mProbes (probeBatch Toy.pendingState) <> []).
  { intros Hnil. apply (f_equal length) in Hnil. vm_compute in Hnil.
    discriminate Hnil. }
  split; [exact Hc|]. split; [exact Hnf|].
  exact (proj1 (pending_cancel_stops_the_next_bake Toy.scenarioArgs
                  Toy.noCancel Toy.pendingState Hc Hnf Hne)).
Defined.

Lemma completed_bake_simulates_each_eligible_probe_once_witness :
  (bake (Toy.staticArgs SceneType.RadeonRays) Toy.noCancel
     (Toy.fresh [0; 99; 100; 1])).2 = Completed /\
  concat
    (map (fun c => c.1.2)
       (simulateCalls
          (bakeEvents (Toy.staticArgs SceneType.RadeonRays) Toy.noCancel
             (Toy.fresh [0; 99; 100; 1])))) =
  filter
    (fun index =>
       eligible (Toy.staticArgs SceneType.RadeonRays)
         (probeBatch (Toy.fresh [0; 99; 100; 1])) index = true)
    (seqZ 0 4).
Proof.
  assert (Hdone : (bake (Toy.staticArgs SceneType.RadeonRays) Toy.noCancel
                     (Toy.fresh [0; 99; 100; 1])).2 = Completed)
    by (vm_compute; reflexivity).
  split; [exact Hdone|].
  exact (proj1 (completed_bake_simulates_each_eligible_probe_once
                  (Toy.staticArgs SceneType.RadeonRays) Toy.noCancel
                  (Toy.fresh [0; 99; 100; 1]) Hdone)).
Defined.

Lemma moved_field_bake_faults_witness :
  bakeConvolution Toy.moveArgsGPU = true /\
  float_eq (simDuration Toy.moveArgsGPU) (bakeDuration Toy.moveArgsGPU)
    = true /\
  eligible Toy.moveArgsGPU (probeBatch (Toy.fresh [0; 1])) 1 = true /\
  isFault (bake Toy.moveArgsGPU Toy.noCancel (Toy.fresh [0; 1])).2 = true.
Proof.
  split; [reflexivity|]. split; [reflexivity|]. split; [reflexivity|].
  exact (proj1 (moved_field_bake_faults Toy.moveArgsGPU Toy.noCancel
                  (Toy.fresh [0; 1]) 1 eq_refl eq_refl eq_refl
                  (fun _ => eq_refl) eq_refl)).
Defined.

Lemma bake_keeps_the_batch_well_sized_witness :
  wellSized (probeBatch (Toy.fresh [0; 1])) /\
  wellSized
    (probeBatch (bake Toy.scenarioArgs Toy.noCancel (Toy.fresh [0; 1])).1).
Proof.
  assert (Hw : wellSized (probeBatch (Toy.fresh [0; 1])))
    by apply List.Forall_nil.
  split; [exact Hw|].
  destruct (bake_keeps_the_batch_well_sized Toy.scenarioArgs Toy.noCancel
              (Toy.fresh [0; 1])) as (_ & _ & _ & Hkeep).
  exact (Hkeep Hw).
Defined.

Lemma bake_faults_only_on_a_moved_field_witness :
  preconditions Toy.moveArgsCPU = true /\
  1 <= effectiveBatchSize Toy.moveArgsCPU /\
  (bake Toy.moveArgsCPU Toy.noCancel (Toy.fresh [0])).2
    = Faulted NullDereference /\
  float_eq (simDuration Toy.moveArgsCPU) (bakeDuration Toy.moveArgsCPU)
    = true.
Proof.
  assert (Hb : 1 <= effectiveBatchSize Toy.moveArgsCPU) by discriminate.
  assert (Hout : (bake Toy.moveArgsCPU Toy.noCancel (Toy.fresh [0])).2
                 = Faulted NullDereference) by (vm_compute; reflexivity).
  split; [reflexivity|]. split; [exact Hb|]. split; [exact Hout|].
  exact (proj2 (proj2 (bake_faults_only_on_a_moved_field Toy.moveArgsCPU
                         Toy.noCancel (Toy.fresh [0]) NullDereference
                         eq_refl Hb Hout))).
Defined.

Lemma one_call_per_eligible_probe_witness :
  effectiveBatchSize (Toy.staticArgs SceneType.Default) = 1 /\
  (bake (Toy.staticArgs SceneType.Default) Toy.noCancel
     (Toy.fresh [99; 0; 100; 1])).2 = Completed /\
  0 < numProbes (probeBatch (Toy.fresh [99; 0; 100; 1])) /\
  length
    (simulateCalls
       (bakeEvents (Toy.staticArgs SceneType.Default) Toy.noCancel
          (Toy.fresh [99; 0; 100; 1]))) = 3%nat.
Proof.
  assert (Hdone : (bake (Toy.staticArgs SceneType.Default) Toy.noCancel
                     (Toy.fresh [99; 0; 100; 1])).2 = Completed)
    by (vm_compute; reflexivity).
  assert (HN : 0 < numProbes (probeBatch (Toy.fresh [99; 0; 100; 1])))
    by reflexivity.
  split; [reflexivity|]. split; [exact Hdone|]. split; [exact HN|].
  exact (one_call_per_eligible_probe (Toy.staticArgs SceneType.Default)
           Toy.noCancel (Toy.fresh [99; 0; 100; 1]) eq_refl Hdone HN).
Defined.
